(** * Softpal PAC archives: the extractor (ExPac.py) and the packer (PkPac.py)

    A shallow embedding of the two scripts and the properties of the
    container codec: the payload cipher, the index table, the format probe,
    extraction and packing.

    Conventions of the embedding.
    - A Python [bytes]/[bytearray] value is a [list Z] whose elements are
      bytes ([bytes_ok]); a file opened in binary mode is the list of its
      bytes, and [file.seek(p); file.read(n)] is [read_at].
    - A Python [str] is a [list ascii] (code points below 256). Names with
      larger code points are never seen by the code modelled here: the reader
      obtains names from [bytes.decode('ascii')], and the packer encodes every
      name with [str.encode('ascii')] before it looks at an extension.
    - Python integers are [Z]; list positions are [nat].
    - A call that can raise returns [res A]: [Ok a] or [Raise e].
    - The output directory of the extractor belongs to the operating
      system: creating it and writing a file into it are parameters of
      [extract_archive], which may return a new state or raise. *)

From Stdlib Require Import ZArith Lia List Ascii String.
From stdpp Require Import base list strings.

Open Scope Z_scope.

(** ** Exceptions *)

Inductive exn : Set :=
  | StructError          (* struct.error *)
  | IndexError
  | ValueError
  | UnicodeDecodeError
  | UnicodeEncodeError
  | FileNotFoundError
  | OSError.             (* the other subclasses of OSError *)

Inductive res (A : Type) : Type :=
  | Ok (a : A)
  | Raise (e : exn).
Arguments Ok {A} a.
Arguments Raise {A} e.

#[global] Instance res_ret : MRet res := fun A a => Ok a.
#[global] Instance res_bind : MBind res := fun A B f m =>
  match m with
  | Ok a => f a
  | Raise e => Raise e
  end.
#[global] Instance res_fmap : FMap res := fun A B f m =>
  match m with
  | Ok a => Ok (f a)
  | Raise e => Raise e
  end.

Definition is_ok {A} (m : res A) : Prop := exists a, m = Ok a.

(** [for x in xs: st = body(st, x)], stopping at the first exception. *)
Fixpoint for_each {S X : Type} (body : S -> X -> res S) (xs : list X) (st : S)
  : res S :=
  match xs with
  | [] => Ok st
  | x :: xs' => st' ← body st x; for_each body xs' st'
  end.

(** [range(start, stop, step)] for a positive [step]. *)
Fixpoint range_from (start step n : nat) : list nat :=
  match n with
  | O => []
  | S n' => start :: range_from (start + step) step n'
  end.

Definition range (start stop step : nat) : list nat :=
  range_from start step (Nat.div (stop - start + (step - 1)) step).

(** ** Bytes and [struct] *)

Definition is_byte (b : Z) : Prop := 0 <= b < 256.
Definition bytes_ok (bs : list Z) : Prop := Forall is_byte bs.

Definition is_byteb (b : Z) : bool := (0 <=? b) && (b <? 256).

(** [len(x)] as a Python integer. *)
Definition len {A} (l : list A) : Z := Z.of_nat (length l).

(** [file.seek(pos); file.read(n)] for a position and a number of bytes
    that are not negative, which is what the scripts pass: constants, and
    fields that [struct.unpack('<I', ...)] returned. A read past the end is
    short, not an error. (A negative position makes [seek] raise and a
    negative number of bytes reads to the end of the file; the properties
    below that speak of arbitrary positions and sizes assume them not
    negative.) *)
Definition read_at (file : list Z) (pos n : Z) : list Z :=
  take (Z.to_nat n) (drop (Z.to_nat pos) file).

(** [b[i:i+n]] *)
Definition slice {A} (l : list A) (i n : nat) : list A := take n (drop i l).

(** [a[i]] *)
Definition getitem {A} (l : list A) (i : nat) : res A :=
  match l !! i with
  | Some x => Ok x
  | None => Raise IndexError
  end.

(** [bytearray.__setitem__]: the value must be in [range(256)]. *)
Definition setitem (arr : list Z) (i : nat) (v : Z) : res (list Z) :=
  if negb (is_byteb v) then Raise ValueError
  else if decide (i < length arr)%nat then Ok (<[i := v]> arr)
  else Raise IndexError.

(** [struct.unpack('<I', bs)[0]] *)
Definition unpack_u32 (bs : list Z) : res Z :=
  match bs with
  | [b0; b1; b2; b3] => Ok (b0 + b1 * 2 ^ 8 + b2 * 2 ^ 16 + b3 * 2 ^ 24)
  | _ => Raise StructError
  end.

(** [struct.pack('<I', v)] *)
Definition pack_u32 (v : Z) : res (list Z) :=
  if (0 <=? v) && (v <? 2 ^ 32)
  then Ok [v mod 256; (v / 2 ^ 8) mod 256; (v / 2 ^ 16) mod 256;
           (v / 2 ^ 24) mod 256]
  else Raise StructError.

(** [struct.unpack('<II', bs)] *)
Definition unpack_u32_u32 (bs : list Z) : res (Z * Z) :=
  if decide (length bs = 8%nat)
  then a ← unpack_u32 (take 4 bs); b ← unpack_u32 (drop 4 bs); Ok (a, b)
  else Raise StructError.

(** [struct.pack('<II', a, b)] *)
Definition pack_u32_u32 (a b : Z) : res (list Z) :=
  x ← pack_u32 a; y ← pack_u32 b; Ok (x ++ y).

(** [struct.pack_into('<I', arr, i, v)] *)
Definition pack_into (arr : list Z) (i : nat) (v : Z) : res (list Z) :=
  bs ← pack_u32 v;
  if decide (i + 4 <= length arr)%nat
  then Ok (take i arr ++ bs ++ drop (i + 4) arr)
  else Raise StructError.

(** ** The payload cipher *)

(** [0x084DF873 ^ 0xFF987DEE] *)
Definition KEY : Z := Z.lxor 0x084DF873 0xFF987DEE.

(** [shift += 1; if shift > 7: shift = 0] *)
Definition next_shift (shift : Z) : Z :=
  let shift := shift + 1 in
  if 7 <? shift then 0 else shift.

(** [(b << shift) & 0xFF | (b >> (8 - shift))] *)
Definition rotl8 (b shift : Z) : Z :=
  Z.lor (Z.land (Z.shiftl b shift) 0xFF) (Z.shiftr b (8 - shift)).

(** [(b >> shift) | (b << (8 - shift)) & 0xFF] *)
Definition rotr8 (b shift : Z) : Z :=
  Z.lor (Z.shiftr b shift) (Z.land (Z.shiftl b (8 - shift)) 0xFF).

(** The shift used for the word with index [k]: the start value 4 updated
    [k] times. *)
Fixpoint shift_at (k : nat) : Z :=
  match k with
  | O => 4
  | S k' => next_shift (shift_at k')
  end.

(** ** Strings *)

Definition str (s : string) : list ascii := list_ascii_of_string s.
Definition ord (c : ascii) : Z := Z.of_N (N_of_ascii c).
Definition chr (n : Z) : ascii := ascii_of_N (Z.to_N n).

(** [str.lower()] on one character: the ASCII capitals and the capitals of
    the Latin-1 supplement (0xC0-0xDE without the multiplication sign). *)
Definition lower_char (c : ascii) : ascii :=
  let n := ord c in
  if ((65 <=? n) && (n <=? 90))
     || ((192 <=? n) && (n <=? 222) && negb (n =? 215))
  then chr (n + 32) else c.

Definition lower (s : list ascii) : list ascii := map lower_char s.

(** [s.rfind(c)] for a one-character [c]: the last position of [c], or -1. *)
Fixpoint rfind_from (c : ascii) (s : list ascii) (i last : Z) : Z :=
  match s with
  | [] => last
  | x :: s' => rfind_from c s' (i + 1) (if decide (x = c) then i else last)
  end.

Definition rfind (c : ascii) (s : list ascii) : Z := rfind_from c s 0 (-1).

(** [s.rstrip(c)] for a one-character [c]. *)
Fixpoint rstrip (c : ascii) (s : list ascii) : list ascii :=
  match s with
  | [] => []
  | x :: s' =>
      match rstrip c s' with
      | [] => if decide (x = c) then [] else [x]
      | r => x :: r
      end
  end.

(** [s.split(c)] for a one-character [c]. *)
Fixpoint split (c : ascii) (s : list ascii) : list (list ascii) :=
  match s with
  | [] => [[]]
  | x :: s' =>
      if decide (x = c) then [] :: split c s'
      else match split c s' with
           | w :: ws => (x :: w) :: ws
           | [] => [[x]]
           end
  end.

(** [bs.decode('ascii')] *)
Definition decode_ascii (bs : list Z) : res (list ascii) :=
  if forallb (fun b => (0 <=? b) && (b <? 128)) bs then Ok (map chr bs)
  else Raise UnicodeDecodeError.

(** [s.encode('ascii')] *)
Definition encode_ascii (s : list ascii) : res (list Z) :=
  if forallb (fun c => ord c <? 128) s then Ok (map ord s)
  else Raise UnicodeEncodeError.

(** [bs.ljust(width, b'\0')]: a value longer than [width] is returned as it
    is. *)
Definition ljust (bs : list Z) (width : nat) : list Z :=
  bs ++ replicate (width - length bs) 0.

(** ** [os.path.splitext] *)

Inductive platform : Set := Posix | Nt.

(** [genericpath._splitext(p, sep, altsep, '.')]. The [while] loop that skips
    leading dots returns the split at the first character of
    [p[sepIndex+1:dotIndex]] that is not a dot, and falls through when there
    is none. *)
Definition splitext_generic (sep : ascii) (altsep : option ascii)
    (p : list ascii) : list ascii * list ascii :=
  let sepIndex := rfind sep p in
  let sepIndex :=
    match altsep with
    | Some a => Z.max sepIndex (rfind a p)
    | None => sepIndex
    end in
  let dotIndex := rfind "." p in
  if (sepIndex <? dotIndex)
     && existsb (fun c => negb (bool_decide (c = "."%char)))
          (slice p (Z.to_nat (sepIndex + 1))
                   (Z.to_nat (dotIndex - (sepIndex + 1))))
  then (take (Z.to_nat dotIndex) p, drop (Z.to_nat dotIndex) p)
  else (p, []).

Definition splitext (os : platform) (p : list ascii)
  : list ascii * list ascii :=
  match os with
  | Posix => splitext_generic "/" None p
  | Nt => splitext_generic "\" (Some "/"%char) p
  end.

(** ** ExPac.py *)

Module ExPac.

Inductive kind : Set := Image | Audio | Unknown.

Section Platform.

(** The platform decides which [os.path.splitext] the script runs. *)
Variable os : platform.

(** [Entry.determine_type] *)
Definition determine_type (name : list ascii) : kind :=
  let ext := lower (snd (splitext os name)) in
  if bool_decide (ext ∈ [str ".BPIC"; str ".pgd"; str ".PIC"]) then Image
  else if bool_decide (ext ∈ [str ".wav"; str ".ogg"]) then Audio
  else Unknown.

Record Entry : Type := mkEntry {
  name : list ascii;
  size : Z;
  offset : Z;
  type : kind
}.

(** [Entry(name)] *)
Definition new_Entry (name : list ascii) : Entry :=
  {| name := name; size := 0; offset := 0; type := determine_type name |}.

Definition set_size (e : Entry) (v : Z) : Entry :=
  {| name := name e; size := v; offset := offset e; type := type e |}.

Definition set_offset (e : Entry) (v : Z) : Entry :=
  {| name := name e; size := size e; offset := v; type := type e |}.

(** [PacOpener.is_sane_count] *)
Definition is_sane_count (count : Z) : bool :=
  (0 <? count) && (count <? 100000).

(** The body of the loop of [PacOpener.read_index]; the state is
    [(entries, index_offset)]. *)
Definition read_index_iter (file : list Z) (name_length : Z)
    (st : list Entry * Z) (_ : nat) : res (list Entry * Z) :=
  let '(entries, index_offset) := st in
  decoded ← decode_ascii (read_at file index_offset name_length);
  let name := rstrip "000" decoded in
  let index_offset := index_offset + name_length in
  '(size, offset) ← unpack_u32_u32 (read_at file index_offset 8);
  let entry := new_Entry name in
  let entry := set_size entry size in
  let entry := set_offset entry offset in
  let entries := entries ++ [entry] in
  let index_offset := index_offset + 8 in
  Ok (entries, index_offset).

(** [PacOpener.read_index] *)
Definition read_index (file : list Z) (count index_offset name_length : Z)
  : res (list Entry) :=
  st ← for_each (read_index_iter file name_length)
         (seq 0 (Z.to_nat count)) ([], index_offset);
  Ok (fst st).

Inductive opener : Set := PacOpener | Pac2Opener.

(** [PacOpener.try_open]; [None] is Python's [None]. *)
Definition PacOpener_try_open (file : list Z) : res (option (list Entry)) :=
  count ← unpack_u32 (read_at file 0 4);
  if negb (is_sane_count count) then Ok None
  else
    let index_offset := 0x3FE in
    let name_length := 0x20 in
    first_offset ← unpack_u32 (read_at file (index_offset + name_length + 4) 4);
    if negb (first_offset =? index_offset + count * (name_length + 8)) then
      let name_length := 0x10 in
      first_offset ←
        unpack_u32 (read_at file (index_offset + name_length + 4) 4);
      if negb (first_offset =? index_offset + count * (name_length + 8))
      then Ok None
      else Some <$> read_index file count index_offset name_length
    else Some <$> read_index file count index_offset name_length.

(** [Pac2Opener.try_open] *)
Definition Pac2Opener_try_open (file : list Z) : res (option (list Entry)) :=
  count ← unpack_u32 (read_at file 8 4);
  if negb (is_sane_count count) then Ok None
  else
    let index_offset := 0x804 in
    let name_length := 0x20 in
    first_offset ← unpack_u32 (read_at file (index_offset + name_length + 4) 4);
    if negb (first_offset =? index_offset + count * (name_length + 8))
    then Ok None
    else Some <$> read_index file count index_offset name_length.

Definition try_open (o : opener) (file : list Z) : res (option (list Entry)) :=
  match o with
  | PacOpener => PacOpener_try_open file
  | Pac2Opener => Pac2Opener_try_open file
  end.

(** One iteration of the loop of [PacOpener.open_entry]; the state is
    [(data_array, shift)]. *)
Definition decrypt_iter (st : list Z * Z) (i : nat) : res (list Z * Z) :=
  let '(data_array, shift) := st in
  b ← getitem data_array i;
  data_array ← setitem data_array i (rotl8 b shift);
  let shift := next_shift shift in
  value ← unpack_u32 (slice data_array i 4);
  let value := Z.lxor value KEY in
  data_array ← pack_into data_array i value;
  Ok (data_array, shift).

(** Lines 78-92 of ExPac.py: what [open_entry] does with a payload that
    passed the apply-condition of line 75. *)
Definition decrypt_data (data : list Z) : res (list Z) :=
  let count := (len data - 16) / 4 in
  if 0 <? count then
    st ← for_each decrypt_iter (range 16 (length data) 4) (data, 4);
    Ok (fst st)
  else Ok data.

(** [PacOpener.open_entry], inherited unchanged by [Pac2Opener]. *)
Definition open_entry (file : list Z) (entry : Entry) : res (list Z) :=
  let data := read_at file (offset entry) (size entry) in
  if match type entry with Image | Audio => true | Unknown => false end
     || (size entry <=? 16)
  then Ok data
  else
    b0 ← getitem data 0;
    if negb (b0 =? ord "$") then Ok data
    else decrypt_data data.

(** The truth value of [entries] in [if entries: break]. *)
Definition truthy (entries : option (list Entry)) : bool :=
  match entries with
  | Some (_ :: _) => true
  | _ => false
  end.

(** The [for opener in openers] loop of [extract_archive]: the state is the
    variable [entries]; the loop stops at the first truthy result. *)
Fixpoint probe (openers : list opener) (file : list Z)
    (entries : option (list Entry)) : res (option (list Entry)) :=
  match openers with
  | [] => Ok entries
  | o :: rest =>
      entries ← try_open o file;
      if truthy entries then Ok entries else probe rest file entries
  end.

Section Output.

(** The output side of [extract_archive] is the operating system's: [fs] is
    the state of the file system, [makedirs] is
    [os.makedirs(output_dir, exist_ok=True)], and [write_file fs name data]
    is [open(os.path.join(output_dir, name), 'wb')] followed by
    [write(data)]. Each returns the new state or raises; what a name does
    there (an empty name, a name that holds NUL or a separator, a name
    written before) is not the script's to decide. The archive is the
    input [file]; it is not part of what the writes change. *)
Context {fs : Type}.
Variable makedirs : fs -> res fs.
Variable write_file : fs -> list ascii -> list Z -> res fs.

(** The body of the [for entry in entries] loop of [extract_archive]; the
    state is the file system. *)
Definition extract_iter (file : list Z) (out : fs) (entry : Entry) : res fs :=
  data ← open_entry file entry;
  write_file out (name entry) data.

(** [extract_archive]: [None] when the archive could not be opened and
    nothing was touched, else the state of the file system after the last
    write. *)
Definition extract_archive (file : list Z) (out : fs) : res (option fs) :=
  entries ← probe [PacOpener; Pac2Opener] file None;
  match entries with
  | None => Ok None
  | Some entries =>
      out ← makedirs out;
      out ← for_each (extract_iter file) entries out;
      Ok (Some out)
  end.

End Output.

End Platform.

End ExPac.

(** ** PkPac.py *)

Module PkPac.

Record Entry : Type := mkEntry {
  name : list ascii;
  size : Z;
  offset : Z
}.

(** What a name in the input directory refers to. *)
Inductive node : Type :=
  | File (content : list Z)
  | Dir.

(** The input directory: its names in the order [os.listdir] returns them,
    each with what it refers to. *)
Definition directory : Type := list (list ascii * node).

(** [self.name_length] *)
Definition name_length : Z := 0x20.

(** [open(os.path.join(input_dir, name), 'rb').read()] *)
Fixpoint read_file (input_dir : directory) (name : list ascii)
  : res (list Z) :=
  match input_dir with
  | [] => Raise FileNotFoundError
  | (n, nd) :: rest =>
      if decide (n = name) then
        match nd with
        | File content => Ok content
        | Dir => Raise FileNotFoundError
        end
      else read_file rest name
  end.

(** The body of the loop of [PacPacker.collect_files]; the state is
    [(entries, offset)]. *)
Definition collect_iter (st : list Entry * Z) (item : list ascii * node)
  : list Entry * Z :=
  let '(entries, offset) := st in
  let '(filename, nd) := item in
  match nd with
  | File content =>
      let size := len content in
      let entry := {| name := filename; size := size; offset := offset |} in
      (entries ++ [entry], offset + size)
  | Dir => (entries, offset)
  end.

(** [PacPacker.collect_files] *)
Definition collect_files (input_dir : directory) : list Entry :=
  let offset := 0x3FE + len input_dir * (name_length + 8) in
  fst (foldl collect_iter ([], offset) input_dir).

(** One iteration of the loop of [PacPacker.encrypt_data]. *)
Definition encrypt_iter (st : list Z * Z) (i : nat) : res (list Z * Z) :=
  let '(data_array, shift) := st in
  value ← unpack_u32 (slice data_array i 4);
  let value := Z.lxor value KEY in
  data_array ← pack_into data_array i value;
  b ← getitem data_array i;
  data_array ← setitem data_array i (rotr8 b shift);
  let shift := next_shift shift in
  Ok (data_array, shift).

(** [PacPacker.encrypt_data] *)
Definition encrypt_data (data : list Z) : res (list Z) :=
  b0 ← getitem data 0;
  if negb (b0 =? ord "$") then Ok data
  else
    let count := (len data - 16) / 4 in
    if 0 <? count then
      st ← for_each encrypt_iter (range 16 (length data) 4) (data, 4);
      Ok (fst st)
    else Ok data.

(** The index record of one entry: the first loop body of
    [PacPacker.write_archive], appending to the output [f]. *)
Definition write_index_iter (f : list Z) (entry : Entry) : res (list Z) :=
  name_bytes ← encode_ascii (name entry);
  let f := f ++ ljust name_bytes (Z.to_nat name_length) in
  packed ← pack_u32_u32 (size entry) (offset entry);
  Ok (f ++ packed).

(** [entry.name.split('.')[-1].lower() not in [...]] *)
Definition cipher_extension (name : list ascii) : res bool :=
  match last (split "." name) with
  | Some ext =>
      Ok (negb (bool_decide
            (lower ext ∈ [str "jpg"; str "png"; str "bmp"; str "wav";
                          str "mp3"])))
  | None => Raise IndexError
  end.

(** The payload of one entry: the second loop body of
    [PacPacker.write_archive]. *)
Definition write_data_iter (input_dir : directory) (f : list Z)
    (entry : Entry) : res (list Z) :=
  data ← read_file input_dir (name entry);
  ext_ok ← cipher_extension (name entry);
  data ← (if ext_ok && (16 <? len data) then encrypt_data data else Ok data);
  Ok (f ++ data).

(** [PacPacker.write_archive]: the bytes of the output file. *)
Definition write_archive (entries : list Entry) (input_dir : directory)
  : res (list Z) :=
  count ← pack_u32 (len entries);
  let f := count in
  let f := f ++ replicate (Z.to_nat (0x3FE - 4)) 0 in
  f ← for_each write_index_iter entries f;
  for_each (write_data_iter input_dir) entries f.

(** [PacPacker.pack] *)
Definition pack (input_dir : directory) : res (list Z) :=
  let entries := collect_files input_dir in
  write_archive entries input_dir.

End PkPac.

(** ** The cipher, word by word

    What the two loops compute, written by recursion on the payload: the
    word with index [k] is transformed with the shift [shift_at k]. The
    loops are proved equal to these functions below. *)

(** The decode of one word [b0 b1 b2 b3] with the given shift. *)
Definition word_dec (shift b0 b1 b2 b3 : Z) : list Z :=
  let v := Z.lxor (rotl8 b0 shift + b1 * 2 ^ 8 + b2 * 2 ^ 16 + b3 * 2 ^ 24)
             KEY in
  [v mod 256; (v / 2 ^ 8) mod 256; (v / 2 ^ 16) mod 256; (v / 2 ^ 24) mod 256].

(** The encode of one word [b0 b1 b2 b3] with the given shift. *)
Definition word_enc (shift b0 b1 b2 b3 : Z) : list Z :=
  let v := Z.lxor (b0 + b1 * 2 ^ 8 + b2 * 2 ^ 16 + b3 * 2 ^ 24) KEY in
  [rotr8 (v mod 256) shift; (v / 2 ^ 8) mod 256; (v / 2 ^ 16) mod 256;
   (v / 2 ^ 24) mod 256].

(** [f] applied to the consecutive 4-byte words of [ws], the first of which
    has index [k]; fewer than four bytes at the end are left alone. *)
Fixpoint words_map (f : Z -> Z -> Z -> Z -> Z -> list Z) (k : nat)
    (ws : list Z) : list Z :=
  match ws with
  | b0 :: b1 :: b2 :: b3 :: rest =>
      f (shift_at k) b0 b1 b2 b3 ++ words_map f (S k) rest
  | _ => ws
  end.

(** The table of all rotations of all bytes: rotating left and right by the
    same shift are inverse, and the results are bytes. *)
Definition rot_table_ok : bool :=
  forallb (fun b =>
    forallb (fun s =>
      (rotr8 (rotl8 b s) s =? b) && (rotl8 (rotr8 b s) s =? b)
      && is_byteb (rotl8 b s) && is_byteb (rotr8 b s))
      (seqZ 0 8))
    (seqZ 0 256).

(** The little-endian value of four bytes. *)
Definition le32 (b0 b1 b2 b3 : Z) : Z :=
  b0 + b1 * 2 ^ 8 + b2 * 2 ^ 16 + b3 * 2 ^ 24.

(** The four little-endian bytes of a value. *)
Definition bytes32 (v : Z) : list Z :=
  [v mod 256; (v / 2 ^ 8) mod 256; (v / 2 ^ 16) mod 256; (v / 2 ^ 24) mod 256].

(** ** The candidate layouts of the probe

    What the probe reads for a candidate layout with the count at
    [count_pos], the index at [index_offset] and names of [name_length]
    bytes. *)

(** The candidate passes: its count is sane and the stored offset of the
    first record is the end of the index table. *)
Definition accepted (file : list Z) (count_pos index_offset name_length : Z)
    (count : Z) : Prop :=
  unpack_u32 (read_at file count_pos 4) = Ok count
  /\ ExPac.is_sane_count count = true
  /\ unpack_u32 (read_at file (index_offset + name_length + 4) 4)
     = Ok (index_offset + count * (name_length + 8)).

(** The candidate fails: its count is not sane, or the stored offset of the
    first record is not the end of the index table. *)
Definition rejected (file : list Z) (count_pos index_offset name_length : Z)
  : Prop :=
  exists count, unpack_u32 (read_at file count_pos 4) = Ok count
  /\ (ExPac.is_sane_count count = false
      \/ exists first_offset,
           unpack_u32 (read_at file (index_offset + name_length + 4) 4)
           = Ok first_offset
           /\ first_offset <> index_offset + count * (name_length + 8)).

(** ** Named buffers

    The packer is given a directory; a sequence of named buffers is a
    directory that holds regular files only, listed in the order of the
    sequence. *)

Definition as_directory (buffers : list (list ascii * list Z))
  : PkPac.directory :=
  map (fun nb => (fst nb, PkPac.File (snd nb))) buffers.

(** The sum of the sizes of the first [k] buffers. *)
Definition sizes_before (k : nat) (buffers : list (list ascii * list Z)) : Z :=
  foldr Z.add 0 (map (fun nb => len (snd nb)) (take k buffers)).

(** The sum of the sizes of all buffers. *)
Definition total_size (buffers : list (list ascii * list Z)) : Z :=
  foldr Z.add 0 (map (fun nb => len (snd nb)) buffers).

(** The entries of the buffers when the first payload is placed at [off]
    and each next one behind its predecessor. *)
Fixpoint layout (off : Z) (buffers : list (list ascii * list Z))
  : list PkPac.Entry :=
  match buffers with
  | [] => []
  | (n, d) :: rest =>
      {| PkPac.name := n; PkPac.size := len d; PkPac.offset := off |}
      :: layout (off + len d) rest
  end.

(** [[f(x) for x in xs]] for an [f] that can raise. *)
Fixpoint map_res {A B : Type} (f : A -> res B) (xs : list A) : res (list B) :=
  match xs with
  | [] => Ok []
  | x :: xs' => y ← f x; ys ← map_res f xs'; Ok (y :: ys)
  end.

(** The bytes that [write_archive] appends for the index record of an
    entry. *)
Definition index_record (entry : PkPac.Entry) : res (list Z) :=
  PkPac.write_index_iter [] entry.

(** The bytes that [write_archive] appends for the payload of an entry. *)
Definition payload_written (input_dir : PkPac.directory)
    (entry : PkPac.Entry) : res (list Z) :=
  PkPac.write_data_iter input_dir [] entry.

(** ** A sample archive

    What the packer writes for the two buffers "A.TXT" (0x24 followed by 19
    bytes 7) and "B.WAV" (1, 2, 3). *)

Definition sample_buffers : list (list ascii * list Z) :=
  [(str "A.TXT", 0x24 :: replicate 19 7); (str "B.WAV", [1; 2; 3])].

Definition sample_archive : list Z :=
  Eval vm_compute in
    match PkPac.pack (as_directory sample_buffers) with
    | Ok out => out
    | Raise _ => []
    end.

(** ** What a round trip needs *)

(** A name that the index can hold and give back: ASCII, at most 32 bytes,
    and not ending in a NUL character. *)
Definition name_ok (n : list ascii) : Prop :=
  forallb (fun c => ord c <? 128) n = true
  /\ (length n <= 32)%nat
  /\ rstrip "000" n = n.

(** The payload starts with the byte 0x24. *)
Definition dollar (d : list Z) : bool :=
  match d with
  | b :: _ => b =? 0x24
  | [] => false
  end.

(** The packer and the extractor treat the buffer alike. Below 20 bytes
    neither changes anything (up to 16 bytes the cipher is not applied, and
    from 17 to 19 the loops are skipped), and a buffer that does not start
    with 0x24 is left alone by both. Otherwise either both skip it by its
    name (the name is in the packer's list and of a kind the extractor
    skips), or both apply the cipher (the name is not in the packer's list
    and of unknown kind) and the buffer ends at a word. *)
Definition cipher_agrees (os : platform) (n : list ascii) (d : list Z) : Prop :=
  len d < 20
  \/ dollar d = false
  \/ (PkPac.cipher_extension n = Ok false
      /\ ExPac.determine_type os n <> ExPac.Unknown)
  \/ (PkPac.cipher_extension n = Ok true
      /\ ExPac.determine_type os n = ExPac.Unknown
      /\ (len d - 16) mod 4 = 0).

(** The index record of an entry whose name fits. *)
Definition record_bytes (e : PkPac.Entry) : list Z :=
  ljust (map ord (PkPac.name e)) (Z.to_nat PkPac.name_length)
  ++ bytes32 (PkPac.size e) ++ bytes32 (PkPac.offset e).

(** The extractor's entry for a packer's entry. *)
Definition reader_entry (os : platform) (e : PkPac.Entry) : ExPac.Entry :=
  ExPac.set_offset
    (ExPac.set_size (ExPac.new_Entry os (PkPac.name e)) (PkPac.size e))
    (PkPac.offset e).

(** An entry that the index can hold and give back. *)
Definition entry_ok (e : PkPac.Entry) : Prop :=
  name_ok (PkPac.name e)
  /\ 0 <= PkPac.size e < 2 ^ 32 /\ 0 <= PkPac.offset e < 2 ^ 32.

(** The stored payload [w] of the buffer [d] named [n] is decoded to [d]
    by the extractor, wherever it lies in the file. *)
Definition decodes_to (os : platform) (n : list ascii) (d w : list Z) : Prop :=
  forall file off,
    read_at file off (len d) = w ->
    ExPac.open_entry file
      (reader_entry os
         {| PkPac.name := n; PkPac.size := len d; PkPac.offset := off |})
    = Ok d.

(** ** The cipher, byte by byte *)

(** The byte of the key that meets the byte with index [j] of a word:
    0x9D, 0x85, 0xD5, 0xF7. *)
Definition key_byte (j : Z) : Z := (KEY / 2 ^ (8 * j)) mod 256.

(** What decoding makes of the byte [b] with index [r] of a word that is
    decoded with the given shift. *)
Definition dec_byte (shift : Z) (r : nat) (b : Z) : Z :=
  match r with
  | O => Z.lxor (rotl8 b shift) (key_byte 0)
  | _ => Z.lxor b (key_byte (Z.of_nat r))
  end.

(** What encoding makes of the byte [b] with index [r] of a word that is
    encoded with the given shift. *)
Definition enc_byte (shift : Z) (r : nat) (b : Z) : Z :=
  match r with
  | O => rotr8 (Z.lxor b (key_byte 0)) shift
  | _ => Z.lxor b (key_byte (Z.of_nat r))
  end.

(** ** The records of an index table *)

(** The entry [e] is what [read_index] makes of the record at [pos]: its
    name is the decoded name slot without the trailing NUL characters, its
    size and offset are the two 32-bit values behind the slot, and its kind
    is that of its name. *)
Definition record_at (os : platform) (file : list Z) (name_length pos : Z)
    (e : ExPac.Entry) : Prop :=
  exists decoded,
    decode_ascii (read_at file pos name_length) = Ok decoded
    /\ ExPac.name e = rstrip "000" decoded
    /\ unpack_u32_u32 (read_at file (pos + name_length) 8)
       = Ok (ExPac.size e, ExPac.offset e)
    /\ ExPac.type e = ExPac.determine_type os (ExPac.name e).

(** The record at [pos] can be read: its name slot holds ASCII bytes only
    and the 8 bytes behind it are in the file. *)
Definition record_readable (file : list Z) (name_length pos : Z) : Prop :=
  forallb (fun b => (0 <=? b) && (b <? 128)) (read_at file pos name_length)
  = true
  /\ length (read_at file (pos + name_length) 8) = 8%nat.

(** ** The regular files of a directory *)

(** The names of a directory that refer to regular files, in listing order,
    each with the content of its file: what passes [os.path.isfile] in
    [collect_files]. *)
Fixpoint files_of (input_dir : PkPac.directory) : list (list ascii * list Z) :=
  match input_dir with
  | [] => []
  | (n, PkPac.File content) :: rest => (n, content) :: files_of rest
  | (_, PkPac.Dir) :: rest => files_of rest
  end.

(** What the extractor makes of the stored payload [w] of the buffer [d]
    named [n]: [open_entry] on the payload alone, at offset 0. *)
Definition extracted (os : platform) (n : list ascii) (d w : list Z)
  : res (list Z) :=
  ExPac.open_entry w
    (reader_entry os
       {| PkPac.name := n; PkPac.size := len d; PkPac.offset := 0 |}).

(** ** The output side *)

(** The file system that accepts every write and keeps the requests in
    order, as (name, data): what [extract_archive] asks for. *)
Definition record_makedirs (log : list (list ascii * list Z))
  : res (list (list ascii * list Z)) := Ok log.

Definition record_write (log : list (list ascii * list Z)) (name : list ascii)
    (data : list Z) : res (list (list ascii * list Z)) :=
  Ok (log ++ [(name, data)]).

(** What a round trip of [buffers] asks of the file system: the output
    directory, then one write for every buffer, in order, under its name and
    with its content. *)
Definition write_buffers {fs : Type} (makedirs : fs -> res fs)
    (write_file : fs -> list ascii -> list Z -> res fs)
    (buffers : list (list ascii * list Z)) (out : fs) : res (option fs) :=
  out ← makedirs out;
  out ← for_each (fun out nb => write_file out (fst nb) (snd nb)) buffers out;
  Ok (Some out).

(** ** Candidates the probe cannot read *)

(** The check of the candidate raises [struct.error]: the file ends before
    the count field or, the count being sane, before the field of the first
    offset. *)
Definition unreadable (file : list Z) (count_pos index_offset name_length : Z)
  : Prop :=
  len file < count_pos + 4
  \/ exists count,
       unpack_u32 (read_at file count_pos 4) = Ok count
       /\ ExPac.is_sane_count count = true
       /\ len file < index_offset + name_length + 4 + 4.

(** * Properties *)

(** ** Bytes, words and rotations *)

Lemma is_byteb_true b : is_byte b -> is_byteb b = true.
Proof. unfold is_byte, is_byteb. lia. Qed.

Lemma next_shift_range s : 0 <= s <= 7 -> 0 <= next_shift s <= 7.
Proof. unfold next_shift. intros H. destruct (7 <? s + 1) eqn:E; lia. Qed.

Lemma shift_at_range k : 0 <= shift_at k <= 7.
Proof.
  induction k as [|k IH]; simpl; [lia|]. by apply next_shift_range.
Qed.

Lemma shift_at_mod k : shift_at k = (Z.of_nat k + 4) mod 8.
Proof.
  induction k as [|k IH]; [reflexivity|].
  cbn [shift_at]. rewrite IH. unfold next_shift.
  pose proof (Z.mod_pos_bound (Z.of_nat k + 4) 8 ltac:(lia)) as Hb.
  replace (Z.of_nat (S k) + 4) with (Z.of_nat k + 4 + 1) by lia.
  rewrite (Z.add_mod (Z.of_nat k + 4) 1 8) by lia.
  change (1 mod 8) with 1.
  destruct (7 <? (Z.of_nat k + 4) mod 8 + 1) eqn:E.
  - assert ((Z.of_nat k + 4) mod 8 = 7) as -> by lia. reflexivity.
  - rewrite (Z.mod_small ((Z.of_nat k + 4) mod 8 + 1)); lia.
Qed.

Lemma rot_table : rot_table_ok = true.
Proof. vm_compute. reflexivity. Qed.

Lemma rot_facts b s :
  is_byte b -> 0 <= s <= 7 ->
  rotr8 (rotl8 b s) s = b /\ rotl8 (rotr8 b s) s = b
  /\ is_byte (rotl8 b s) /\ is_byte (rotr8 b s).
Proof.
  intros Hb Hs. pose proof rot_table as T. unfold rot_table_ok in T.
  rewrite forallb_forall in T.
  assert (In b (seqZ 0 256)) as Hin
    by (apply list_elem_of_In, elem_of_seqZ; unfold is_byte in Hb; lia).
  specialize (T b Hin). rewrite forallb_forall in T.
  assert (In s (seqZ 0 8)) as Hin'
    by (apply list_elem_of_In, elem_of_seqZ; lia).
  specialize (T s Hin'). unfold is_byte, is_byteb in *. lia.
Qed.

Lemma rotr8_rotl8 b s : is_byte b -> 0 <= s <= 7 -> rotr8 (rotl8 b s) s = b.
Proof. intros; by apply rot_facts. Qed.

Lemma rotl8_rotr8 b s : is_byte b -> 0 <= s <= 7 -> rotl8 (rotr8 b s) s = b.
Proof. intros; by apply rot_facts. Qed.

Lemma rotl8_byte b s : is_byte b -> 0 <= s <= 7 -> is_byte (rotl8 b s).
Proof. intros; by apply rot_facts. Qed.

Lemma rotr8_byte b s : is_byte b -> 0 <= s <= 7 -> is_byte (rotr8 b s).
Proof. intros; by apply rot_facts. Qed.

Lemma le32_range b0 b1 b2 b3 :
  is_byte b0 -> is_byte b1 -> is_byte b2 -> is_byte b3 ->
  0 <= le32 b0 b1 b2 b3 < 2 ^ 32.
Proof. unfold is_byte, le32. lia. Qed.

Lemma bytes32_le32 b0 b1 b2 b3 :
  is_byte b0 -> is_byte b1 -> is_byte b2 -> is_byte b3 ->
  bytes32 (le32 b0 b1 b2 b3) = [b0; b1; b2; b3].
Proof.
  unfold is_byte, le32, bytes32. intros H0 H1 H2 H3.
  change (2 ^ 8) with 256. change (2 ^ 16) with 65536.
  change (2 ^ 24) with 16777216.
  repeat f_equal.
  - symmetry. apply (Z.mod_unique_pos _ _ (b1 + b2 * 256 + b3 * 65536)); lia.
  - replace ((b0 + b1 * 256 + b2 * 65536 + b3 * 16777216) / 256)
      with (b1 + b2 * 256 + b3 * 65536)
      by (apply (Z.div_unique_pos _ _ _ b0); lia).
    symmetry. apply (Z.mod_unique_pos _ _ (b2 + b3 * 256)); lia.
  - replace ((b0 + b1 * 256 + b2 * 65536 + b3 * 16777216) / 65536)
      with (b2 + b3 * 256)
      by (apply (Z.div_unique_pos _ _ _ (b0 + b1 * 256)); lia).
    symmetry. apply (Z.mod_unique_pos _ _ b3); lia.
  - replace ((b0 + b1 * 256 + b2 * 65536 + b3 * 16777216) / 16777216)
      with b3
      by (apply (Z.div_unique_pos _ _ _ (b0 + b1 * 256 + b2 * 65536)); lia).
    apply Z.mod_small; lia.
Qed.

Lemma bytes32_ok v : bytes_ok (bytes32 v).
Proof.
  unfold bytes_ok, bytes32.
  repeat constructor; apply Z.mod_pos_bound; lia.
Qed.

Lemma le32_bytes32 v :
  0 <= v < 2 ^ 32 ->
  le32 (v mod 256) ((v / 2 ^ 8) mod 256) ((v / 2 ^ 16) mod 256)
       ((v / 2 ^ 24) mod 256) = v.
Proof.
  intros Hv. unfold le32.
  change (2 ^ 8) with 256. change (2 ^ 16) with 65536.
  change (2 ^ 24) with 16777216. change (2 ^ 32) with 4294967296 in Hv.
  pose proof (Z.div_mod v 256 ltac:(lia)) as E0.
  pose proof (Z.div_mod (v / 256) 256 ltac:(lia)) as E1.
  pose proof (Z.div_mod (v / 256 / 256) 256 ltac:(lia)) as E2.
  rewrite (Z.div_div v 256 256) in E1, E2 by lia.
  rewrite (Z.div_div v (256 * 256) 256) in E2 by lia.
  change (256 * 256 * 256) with 16777216 in *.
  change (256 * 256) with 65536 in *.
  assert (0 <= v / 16777216 < 256) as Hq.
  { split; [apply Z.div_pos; lia|]. apply Z.div_lt_upper_bound; lia. }
  rewrite (Z.mod_small (v / 16777216) 256) by lia.
  lia.
Qed.

Lemma lxor_KEY_range v : 0 <= v < 2 ^ 32 -> 0 <= Z.lxor v KEY < 2 ^ 32.
Proof.
  intros Hv. split.
  - apply Z.lxor_nonneg. split; intros _; [by vm_compute | lia].
  - destruct (Z.eq_dec (Z.lxor v KEY) 0) as [->|Hne]; [lia|].
    assert (0 <= Z.lxor v KEY) as Hnn
      by (apply Z.lxor_nonneg; split; intros _; [by vm_compute | lia]).
    apply Z.log2_lt_pow2; [lia|].
    eapply Z.le_lt_trans; [apply Z.log2_lxor; [lia | by vm_compute]|].
    apply Z.max_lub_lt; [|by vm_compute].
    destruct (Z.eq_dec v 0) as [->|Hv0]; [by vm_compute|].
    apply Z.log2_lt_pow2; lia.
Qed.

Lemma lxor_KEY_involutive v : Z.lxor (Z.lxor v KEY) KEY = v.
Proof. by rewrite Z.lxor_assoc, Z.lxor_nilpotent, Z.lxor_0_r. Qed.

Lemma pack_u32_ok v : 0 <= v < 2 ^ 32 -> pack_u32 v = Ok (bytes32 v).
Proof.
  intros Hv. unfold pack_u32.
  destruct (0 <=? v) eqn:E1; [|lia]. destruct (v <? 2 ^ 32) eqn:E2; [|lia].
  reflexivity.
Qed.

(** ** The two loops, word by word *)

(** Splits a hypothesis [bytes_ok (b0 :: b1 :: b2 :: b3 :: rest)]. *)
Ltac four_bytes H H0 H1 H2 H3 :=
  unfold bytes_ok in H;
  apply Forall_cons in H as [H0 H]; apply Forall_cons in H as [H1 H];
  apply Forall_cons in H as [H2 H]; apply Forall_cons in H as [H3 H].

Lemma getitem_middle {A} (pre : list A) x rest :
  getitem (pre ++ x :: rest) (length pre) = Ok x.
Proof. unfold getitem. by rewrite list_lookup_middle. Qed.

Lemma setitem_middle pre x y rest :
  is_byte y ->
  setitem (pre ++ x :: rest) (length pre) y = Ok (pre ++ y :: rest).
Proof.
  intros Hy. unfold setitem. rewrite (is_byteb_true _ Hy). simpl.
  destruct (decide _) as [_|Hn].
  - rewrite insert_app_r_alt by lia. by rewrite Nat.sub_diag.
  - exfalso. apply Hn. rewrite length_app. simpl. lia.
Qed.

Lemma slice_middle {A} (pre : list A) a b c d rest :
  slice (pre ++ a :: b :: c :: d :: rest) (length pre) 4 = [a; b; c; d].
Proof. unfold slice. by rewrite drop_app_length. Qed.

Lemma pack_into_middle pre a b c d rest v :
  0 <= v < 2 ^ 32 ->
  pack_into (pre ++ a :: b :: c :: d :: rest) (length pre) v
  = Ok (pre ++ bytes32 v ++ rest).
Proof.
  intros Hv. unfold pack_into. rewrite (pack_u32_ok _ Hv). simpl.
  destruct (decide _) as [_|Hn].
  - by rewrite take_app_length, drop_app_add.
  - exfalso. apply Hn. rewrite length_app. simpl. lia.
Qed.

Lemma decrypt_iter_word pre b0 b1 b2 b3 rest k :
  is_byte b0 -> is_byte b1 -> is_byte b2 -> is_byte b3 ->
  ExPac.decrypt_iter (pre ++ b0 :: b1 :: b2 :: b3 :: rest, shift_at k)
    (length pre)
  = Ok (pre ++ word_dec (shift_at k) b0 b1 b2 b3 ++ rest, shift_at (S k)).
Proof.
  intros H0 H1 H2 H3. unfold ExPac.decrypt_iter.
  pose proof (shift_at_range k) as Hs.
  pose proof (rotl8_byte b0 _ H0 Hs) as Hr.
  rewrite getitem_middle. simpl.
  rewrite (setitem_middle _ _ _ _ Hr). simpl.
  rewrite slice_middle. simpl.
  rewrite pack_into_middle
    by (apply lxor_KEY_range; by apply (le32_range (rotl8 b0 (shift_at k)))).
  reflexivity.
Qed.

Lemma encrypt_iter_word pre b0 b1 b2 b3 rest k :
  is_byte b0 -> is_byte b1 -> is_byte b2 -> is_byte b3 ->
  PkPac.encrypt_iter (pre ++ b0 :: b1 :: b2 :: b3 :: rest, shift_at k)
    (length pre)
  = Ok (pre ++ word_enc (shift_at k) b0 b1 b2 b3 ++ rest, shift_at (S k)).
Proof.
  intros H0 H1 H2 H3. unfold PkPac.encrypt_iter.
  pose proof (shift_at_range k) as Hs.
  rewrite slice_middle. simpl.
  rewrite pack_into_middle by (apply lxor_KEY_range; by apply le32_range).
  simpl. rewrite getitem_middle. simpl.
  rewrite setitem_middle; [reflexivity|].
  apply rotr8_byte; [|done]. apply Z.mod_pos_bound. lia.
Qed.

Lemma word_dec_length s b0 b1 b2 b3 : length (word_dec s b0 b1 b2 b3) = 4%nat.
Proof. reflexivity. Qed.

Lemma word_enc_length s b0 b1 b2 b3 : length (word_enc s b0 b1 b2 b3) = 4%nat.
Proof. reflexivity. Qed.

Section Loop.

(** A loop body that transforms the word at its position with [f] and
    advances the shift. *)
Variable iter : list Z * Z -> nat -> res (list Z * Z).
Variable f : Z -> Z -> Z -> Z -> Z -> list Z.

Hypothesis iter_word : forall pre b0 b1 b2 b3 rest k,
  is_byte b0 -> is_byte b1 -> is_byte b2 -> is_byte b3 ->
  iter (pre ++ b0 :: b1 :: b2 :: b3 :: rest, shift_at k) (length pre)
  = Ok (pre ++ f (shift_at k) b0 b1 b2 b3 ++ rest, shift_at (S k)).

Hypothesis f_length : forall s b0 b1 b2 b3,
  length (f s b0 b1 b2 b3) = 4%nat.

Lemma words_map_length k ws : length (words_map f k ws) = length ws.
Proof.
  remember (length ws) as n eqn:Hn. revert k ws Hn.
  induction n as [n IH] using lt_wf_ind. intros k ws Hn.
  destruct ws as [|b0 [|b1 [|b2 [|b3 rest]]]]; try (simpl in *; lia).
  cbn [words_map]. rewrite length_app, f_length.
  rewrite (IH (length rest)); simpl in *; lia.
Qed.

(** [n] whole words are transformed one after the other; the loop then
    goes on with what follows them. *)
Lemma loop_words n : forall ws tl pre k m,
  length ws = (4 * n)%nat -> bytes_ok ws ->
  for_each iter (range_from (length pre) 4 (n + m))
    (pre ++ ws ++ tl, shift_at k)
  = for_each iter (range_from (length pre + 4 * n) 4 m)
      (pre ++ words_map f k ws ++ tl, shift_at (k + n)).
Proof.
  induction n as [|n IH]; intros ws tl pre k m Hlen Hok.
  - destruct ws; [|simpl in Hlen; lia]. simpl.
    by rewrite !Nat.add_0_r.
  - destruct ws as [|b0 [|b1 [|b2 [|b3 ws]]]]; try (simpl in Hlen; lia).
    four_bytes Hok H0 H1 H2 H3.
    cbn [Nat.add range_from for_each app].
    rewrite (iter_word pre b0 b1 b2 b3 (ws ++ tl) k H0 H1 H2 H3).
    cbn [mbind res_bind].
    specialize (IH ws tl (pre ++ f (shift_at k) b0 b1 b2 b3) (S k) m).
    rewrite length_app, f_length, <- !app_assoc in IH.
    rewrite IH by (simpl in Hlen; done || lia).
    cbn [words_map]. rewrite <- !app_assoc.
    replace (length pre + 4 + 4 * n)%nat with (length pre + 4 * S n)%nat
      by lia.
    replace (S k + n)%nat with (k + S n)%nat by lia.
    reflexivity.
Qed.

Lemma words_map_bytes_ok k ws :
  (forall s b0 b1 b2 b3,
      0 <= s <= 7 -> is_byte b0 -> is_byte b1 -> is_byte b2 -> is_byte b3 ->
      bytes_ok (f s b0 b1 b2 b3)) ->
  bytes_ok ws -> bytes_ok (words_map f k ws).
Proof.
  intros Hf. remember (length ws) as n eqn:Hn. revert k ws Hn.
  induction n as [n IH] using lt_wf_ind. intros k ws Hn Hok.
  destruct ws as [|b0 [|b1 [|b2 [|b3 rest]]]]; try done.
  four_bytes Hok H0 H1 H2 H3.
  cbn [words_map]. apply Forall_app. split.
  - apply Hf; try done. apply shift_at_range.
  - apply (IH (length rest)); simpl in *; done || lia.
Qed.

Lemma range_16_aligned n :
  range 16 (16 + 4 * n) 4 = range_from 16 4 n.
Proof.
  unfold range. f_equal.
  replace (16 + 4 * n - 16 + (4 - 1))%nat with (3 + n * 4)%nat by lia.
  by rewrite Nat.div_add.
Qed.

Lemma range_16_unaligned n r :
  (0 < r < 4)%nat ->
  range 16 (16 + 4 * n + r) 4 = range_from 16 4 (n + 1).
Proof.
  intros Hr. unfold range. f_equal.
  replace (16 + 4 * n + r - 16 + (4 - 1))%nat
    with ((r + 3) + n * 4)%nat by lia.
  rewrite Nat.div_add by lia.
  assert (Nat.div (r + 3) 4 = 1%nat) as ->; [|lia].
  symmetry. apply (Nat.div_unique _ _ _ (r - 1)); lia.
Qed.

(** On a payload of 16 bytes and [n] whole words the loop runs to its
    end: the first 16 bytes are kept and every word is transformed. *)
Lemma loop_aligned data n :
  length data = (16 + 4 * n)%nat -> bytes_ok data ->
  for_each iter (range 16 (length data) 4) (data, 4)
  = Ok (take 16 data ++ words_map f 0 (drop 16 data), shift_at n).
Proof.
  intros Hlen Hok. rewrite Hlen, range_16_aligned.
  pose proof (loop_words n (drop 16 data) [] (take 16 data) 0 0) as L.
  assert (length (take 16 data) = 16%nat) as H16
    by (rewrite length_take; lia).
  rewrite H16, !app_nil_r, take_drop in L.
  rewrite Nat.add_0_r in L. change (shift_at 0) with 4 in L.
  rewrite L; [reflexivity | rewrite length_drop; lia |].
  by apply Forall_drop.
Qed.

Hypothesis iter_short : forall pre tl s,
  (0 < length tl < 4)%nat -> bytes_ok tl -> 0 <= s <= 7 ->
  iter (pre ++ tl, s) (length pre) = Raise StructError.

(** On a payload whose last word is incomplete the loop raises in its
    last iteration. *)
Lemma loop_unaligned data n r :
  length data = (16 + 4 * n + r)%nat -> (0 < r < 4)%nat -> bytes_ok data ->
  for_each iter (range 16 (length data) 4) (data, 4) = Raise StructError.
Proof.
  intros Hlen Hr Hok. rewrite Hlen, range_16_unaligned by done.
  pose proof (loop_words n (take (4 * n) (drop 16 data))
                (drop (4 * n) (drop 16 data)) (take 16 data) 0 1) as L.
  rewrite take_drop, take_drop in L.
  assert (length (take 16 data) = 16%nat) as H16
    by (rewrite length_take; lia).
  rewrite H16 in L.
  change (shift_at 0) with 4 in L.
  rewrite L.
  - cbn [range_from for_each].
    rewrite app_assoc.
    pose proof (iter_short (take 16 data ++
                  words_map f 0 (take (4 * n) (drop 16 data)))
                  (drop (4 * n) (drop 16 data)) (shift_at (0 + n))) as Sh.
    assert (length (take (4 * n) (drop 16 data)) = (4 * n)%nat) as Ht
      by (rewrite length_take, length_drop; lia).
    assert (length (drop (4 * n) (drop 16 data)) = r) as Hd
      by (rewrite !length_drop; lia).
    rewrite length_app, words_map_length, H16, Ht, Hd in Sh.
    rewrite Sh; [reflexivity | lia | | apply shift_at_range].
    by do 2 apply Forall_drop.
  - rewrite length_take, length_drop. lia.
  - by apply Forall_take, Forall_drop.
Qed.

End Loop.

Lemma decrypt_iter_short pre tl s :
  (0 < length tl < 4)%nat -> bytes_ok tl -> 0 <= s <= 7 ->
  ExPac.decrypt_iter (pre ++ tl, s) (length pre) = Raise StructError.
Proof.
  intros Hlen Hok Hs. destruct tl as [|b tl]; [simpl in Hlen; lia|].
  apply Forall_cons in Hok as [Hb _].
  unfold ExPac.decrypt_iter. rewrite getitem_middle. simpl.
  rewrite setitem_middle by (by apply rotl8_byte). simpl.
  unfold slice. rewrite drop_app_length.
  destruct tl as [|? [|? [|? ?]]]; try reflexivity. simpl in Hlen. lia.
Qed.

Lemma encrypt_iter_short pre tl s :
  (0 < length tl < 4)%nat -> bytes_ok tl -> 0 <= s <= 7 ->
  PkPac.encrypt_iter (pre ++ tl, s) (length pre) = Raise StructError.
Proof.
  intros Hlen _ _. unfold PkPac.encrypt_iter, slice.
  rewrite drop_app_length.
  destruct tl as [|? [|? [|? [|? ?]]]]; try reflexivity; simpl in Hlen; lia.
Qed.

Lemma word_dec_bytes_ok s b0 b1 b2 b3 :
  0 <= s <= 7 -> is_byte b0 -> is_byte b1 -> is_byte b2 -> is_byte b3 ->
  bytes_ok (word_dec s b0 b1 b2 b3).
Proof. intros. apply bytes32_ok. Qed.

Lemma word_enc_bytes_ok s b0 b1 b2 b3 :
  0 <= s <= 7 -> is_byte b0 -> is_byte b1 -> is_byte b2 -> is_byte b3 ->
  bytes_ok (word_enc s b0 b1 b2 b3).
Proof.
  intros Hs _ _ _ _. unfold word_enc.
  pose proof (bytes32_ok (Z.lxor (b0 + b1 * 2 ^ 8 + b2 * 2 ^ 16 + b3 * 2 ^ 24)
                            KEY)) as H.
  unfold bytes32 in H. apply Forall_cons in H as [H0 H].
  apply Forall_cons. split; [|done]. by apply rotr8_byte.
Qed.

(** Decoding an encoded word gives the word back. *)
Lemma word_dec_enc s b0 b1 b2 b3 :
  0 <= s <= 7 -> is_byte b0 -> is_byte b1 -> is_byte b2 -> is_byte b3 ->
  let v := Z.lxor (le32 b0 b1 b2 b3) KEY in
  word_dec s (rotr8 (v mod 256) s) ((v / 2 ^ 8) mod 256)
    ((v / 2 ^ 16) mod 256) ((v / 2 ^ 24) mod 256)
  = [b0; b1; b2; b3].
Proof.
  intros Hs H0 H1 H2 H3 v.
  assert (0 <= v < 2 ^ 32) as Hv
    by (apply lxor_KEY_range; by apply le32_range).
  unfold word_dec.
  rewrite rotl8_rotr8 by (done || (apply Z.mod_pos_bound; lia)).
  fold (le32 (v mod 256) ((v / 2 ^ 8) mod 256) ((v / 2 ^ 16) mod 256)
             ((v / 2 ^ 24) mod 256)).
  rewrite (le32_bytes32 v Hv). unfold v. rewrite lxor_KEY_involutive.
  by apply bytes32_le32.
Qed.

(** Encoding a decoded word gives the word back. *)
Lemma word_enc_dec s b0 b1 b2 b3 :
  0 <= s <= 7 -> is_byte b0 -> is_byte b1 -> is_byte b2 -> is_byte b3 ->
  let v := Z.lxor (le32 (rotl8 b0 s) b1 b2 b3) KEY in
  word_enc s (v mod 256) ((v / 2 ^ 8) mod 256)
    ((v / 2 ^ 16) mod 256) ((v / 2 ^ 24) mod 256)
  = [b0; b1; b2; b3].
Proof.
  intros Hs H0 H1 H2 H3 v.
  pose proof (rotl8_byte b0 s H0 Hs) as Hr.
  assert (0 <= v < 2 ^ 32) as Hv
    by (apply lxor_KEY_range; by apply le32_range).
  unfold word_enc.
  fold (le32 (v mod 256) ((v / 2 ^ 8) mod 256) ((v / 2 ^ 16) mod 256)
             ((v / 2 ^ 24) mod 256)).
  rewrite (le32_bytes32 v Hv). unfold v. rewrite lxor_KEY_involutive.
  pose proof (bytes32_le32 (rotl8 b0 s) b1 b2 b3 Hr H1 H2 H3) as B.
  unfold bytes32 in B. injection B as -> -> -> ->.
  by rewrite rotr8_rotl8.
Qed.

Lemma words_map_dec_enc k ws :
  bytes_ok ws ->
  words_map word_dec k (words_map word_enc k ws) = ws.
Proof.
  remember (length ws) as n eqn:Hn. revert k ws Hn.
  induction n as [n IH] using lt_wf_ind. intros k ws Hn Hok.
  destruct ws as [|b0 [|b1 [|b2 [|b3 rest]]]]; try done.
  four_bytes Hok H0 H1 H2 H3.
  cbn [words_map word_enc app].
  rewrite (IH (length rest)) by (simpl in *; done || lia).
  pose proof (word_dec_enc (shift_at k) b0 b1 b2 b3 (shift_at_range k)
                H0 H1 H2 H3) as E.
  cbv zeta in E. unfold le32 in E. by rewrite E.
Qed.

Lemma words_map_enc_dec k ws :
  bytes_ok ws ->
  words_map word_enc k (words_map word_dec k ws) = ws.
Proof.
  remember (length ws) as n eqn:Hn. revert k ws Hn.
  induction n as [n IH] using lt_wf_ind. intros k ws Hn Hok.
  destruct ws as [|b0 [|b1 [|b2 [|b3 rest]]]]; try done.
  four_bytes Hok H0 H1 H2 H3.
  cbn [words_map word_dec app].
  rewrite (IH (length rest)) by (simpl in *; done || lia).
  pose proof (word_enc_dec (shift_at k) b0 b1 b2 b3 (shift_at_range k)
                H0 H1 H2 H3) as E.
  cbv zeta in E. unfold le32 in E. by rewrite E.
Qed.

(** ** The payload cipher on whole payloads *)

Lemma aligned_length {A} (buf : list A) :
  20 <= len buf -> (len buf - 16) mod 4 = 0 ->
  exists n, (0 < n)%nat /\ length buf = (16 + 4 * n)%nat.
Proof.
  unfold len. intros H20 Hmod.
  apply Z.mod_divide in Hmod as [q Hq]; [|lia].
  exists (Z.to_nat q). lia.
Qed.

Lemma unaligned_length {A} (buf : list A) :
  20 <= len buf -> (len buf - 16) mod 4 <> 0 ->
  exists n r, (0 < n)%nat /\ (0 < r < 4)%nat
              /\ length buf = (16 + 4 * n + r)%nat.
Proof.
  unfold len. intros H20 Hmod.
  pose proof (Z.div_mod (Z.of_nat (length buf) - 16) 4 ltac:(lia)) as E.
  pose proof (Z.mod_pos_bound (Z.of_nat (length buf) - 16) 4 ltac:(lia)) as B.
  exists (Z.to_nat ((Z.of_nat (length buf) - 16) / 4)),
         (Z.to_nat ((Z.of_nat (length buf) - 16) mod 4)).
  assert (0 < (Z.of_nat (length buf) - 16) / 4)
    by (apply Z.div_str_pos; lia).
  lia.
Qed.

Lemma count_positive {A} (data : list A) :
  20 <= len data -> (0 <? (len data - 16) / 4) = true.
Proof.
  intros H. apply Z.ltb_lt. apply Z.div_str_pos. lia.
Qed.

Lemma count_not_positive {A} (data : list A) :
  len data < 20 -> (0 <? (len data - 16) / 4) = false.
Proof.
  intros H. apply Z.ltb_ge.
  assert ((len data - 16) / 4 < 1); [|lia].
  apply Z.div_lt_upper_bound; lia.
Qed.

(** Below 20 bytes the count guard skips the loop. *)
Lemma decrypt_data_short data :
  len data < 20 -> ExPac.decrypt_data data = Ok data.
Proof.
  intros H. unfold ExPac.decrypt_data. by rewrite count_not_positive.
Qed.

Lemma decrypt_data_aligned data :
  bytes_ok data -> 20 <= len data -> (len data - 16) mod 4 = 0 ->
  ExPac.decrypt_data data
  = Ok (take 16 data ++ words_map word_dec 0 (drop 16 data)).
Proof.
  intros Hok H20 Hal. unfold ExPac.decrypt_data.
  rewrite count_positive by done.
  destruct (aligned_length data H20 Hal) as (n & _ & Hn).
  by rewrite (loop_aligned _ _ decrypt_iter_word word_dec_length data n).
Qed.

Lemma decrypt_data_unaligned data :
  bytes_ok data -> 20 <= len data -> (len data - 16) mod 4 <> 0 ->
  ExPac.decrypt_data data = Raise StructError.
Proof.
  intros Hok H20 Hal. unfold ExPac.decrypt_data.
  rewrite count_positive by done.
  destruct (unaligned_length data H20 Hal) as (n & r & _ & Hr & Hn).
  by rewrite (loop_unaligned _ _ decrypt_iter_word word_dec_length
                decrypt_iter_short data n r).
Qed.

Lemma encrypt_data_not_dollar data b :
  data !! 0%nat = Some b -> b <> 0x24 -> PkPac.encrypt_data data = Ok data.
Proof.
  intros H0 Hb. unfold PkPac.encrypt_data, getitem.
  change (ord "$") with 36. rewrite H0. simpl.
  destruct (b =? 36) eqn:E; [lia|]. reflexivity.
Qed.

Lemma encrypt_data_short data :
  data !! 0%nat = Some 0x24 -> len data < 20 ->
  PkPac.encrypt_data data = Ok data.
Proof.
  intros H0 H. unfold PkPac.encrypt_data, getitem.
  change (ord "$") with 36. rewrite H0. simpl.
  by rewrite count_not_positive.
Qed.

Lemma encrypt_data_aligned data :
  bytes_ok data -> data !! 0%nat = Some 0x24 ->
  20 <= len data -> (len data - 16) mod 4 = 0 ->
  PkPac.encrypt_data data
  = Ok (take 16 data ++ words_map word_enc 0 (drop 16 data)).
Proof.
  intros Hok H0 H20 Hal. unfold PkPac.encrypt_data, getitem.
  change (ord "$") with 36. rewrite H0. simpl. rewrite count_positive by done.
  destruct (aligned_length data H20 Hal) as (n & _ & Hn).
  by rewrite (loop_aligned _ _ encrypt_iter_word word_enc_length data n).
Qed.

Lemma encrypt_data_unaligned data :
  bytes_ok data -> data !! 0%nat = Some 0x24 ->
  20 <= len data -> (len data - 16) mod 4 <> 0 ->
  PkPac.encrypt_data data = Raise StructError.
Proof.
  intros Hok H0 H20 Hal. unfold PkPac.encrypt_data, getitem.
  change (ord "$") with 36. rewrite H0. simpl. rewrite count_positive by done.
  destruct (unaligned_length data H20 Hal) as (n & r & _ & Hr & Hn).
  by rewrite (loop_unaligned _ _ encrypt_iter_word word_enc_length
                encrypt_iter_short data n r).
Qed.

(** The shape of a transformed payload: same length, same first 16 bytes,
    bytes again. *)
Lemma transformed_shape f data :
  (forall s b0 b1 b2 b3, length (f s b0 b1 b2 b3) = 4%nat) ->
  (16 <= length data)%nat ->
  let out := take 16 data ++ words_map f 0 (drop 16 data) in
  length out = length data /\ take 16 out = take 16 data
  /\ drop 16 out = words_map f 0 (drop 16 data).
Proof.
  intros Hf Hlen out. unfold out.
  assert (length (take 16 data) = 16%nat) as H16
    by (rewrite length_take; lia).
  split; [|split].
  - rewrite length_app, words_map_length, H16, length_drop by done. lia.
  - by rewrite take_app_length' by done.
  - by rewrite drop_app_length' by done.
Qed.

Lemma transformed_bytes_ok f data :
  (forall s b0 b1 b2 b3,
      0 <= s <= 7 -> is_byte b0 -> is_byte b1 -> is_byte b2 -> is_byte b3 ->
      bytes_ok (f s b0 b1 b2 b3)) ->
  bytes_ok data ->
  bytes_ok (take 16 data ++ words_map f 0 (drop 16 data)).
Proof.
  intros Hf Hok. apply Forall_app. split; [by apply Forall_take|].
  apply words_map_bytes_ok; [done|]. by apply Forall_drop.
Qed.

Lemma transformed_head f (data : list Z) b :
  data !! 0%nat = Some b ->
  (take 16 data ++ words_map f 0 (drop 16 data)) !! 0%nat = Some b.
Proof. intros H. destruct data; [done|]. simpl in *. done. Qed.

(** C2. For every buffer of bytes whose first byte is 0x24, whose length is
    at least 20 and whose length minus 16 is a multiple of 4, encoding with
    [PacPacker.encrypt_data] and then decoding with the transform of
    [PacOpener.open_entry] returns the buffer, and so does decoding and then
    encoding. *)
Theorem payload_cipher_involution (buf : list Z) :
  bytes_ok buf -> buf !! 0%nat = Some 0x24 ->
  20 <= len buf -> (len buf - 16) mod 4 = 0 ->
  (PkPac.encrypt_data buf ≫= ExPac.decrypt_data) = Ok buf
  /\ (ExPac.decrypt_data buf ≫= PkPac.encrypt_data) = Ok buf.
Proof.
  intros Hok H0 H20 Hal.
  assert (16 <= length buf)%nat as H16 by (unfold len in H20; lia).
  split.
  - rewrite encrypt_data_aligned by done. cbn [mbind res_bind].
    destruct (transformed_shape word_enc buf word_enc_length H16)
      as (Hl & Ht & Hd).
    rewrite decrypt_data_aligned.
    + rewrite Ht, Hd, words_map_dec_enc by (by apply Forall_drop).
      by rewrite take_drop.
    + by apply transformed_bytes_ok; [apply word_enc_bytes_ok|].
    + unfold len in *. by rewrite Hl.
    + unfold len in *. by rewrite Hl.
  - rewrite decrypt_data_aligned by done. cbn [mbind res_bind].
    destruct (transformed_shape word_dec buf word_dec_length H16)
      as (Hl & Ht & Hd).
    rewrite encrypt_data_aligned.
    + rewrite Ht, Hd, words_map_enc_dec by (by apply Forall_drop).
      by rewrite take_drop.
    + by apply transformed_bytes_ok; [apply word_dec_bytes_ok|].
    + by apply transformed_head.
    + unfold len in *. by rewrite Hl.
    + unfold len in *. by rewrite Hl.
Qed.

Lemma bytes_ok_check bs :
  forallb is_byteb bs = true -> bytes_ok bs.
Proof.
  intros H. apply Forall_forall. intros b Hb.
  apply list_elem_of_In in Hb.
  rewrite forallb_forall in H. specialize (H b Hb).
  unfold is_byteb, is_byte in *. lia.
Qed.

Lemma payload_cipher_involution_witness :
  (PkPac.encrypt_data (0x24 :: replicate 23 7) ≫= ExPac.decrypt_data)
  = Ok (0x24 :: replicate 23 7)
  /\ (ExPac.decrypt_data (0x24 :: replicate 23 7) ≫= PkPac.encrypt_data)
     = Ok (0x24 :: replicate 23 7).
Proof.
  apply (payload_cipher_involution (0x24 :: replicate 23 7)).
  - apply bytes_ok_check. reflexivity.
  - reflexivity.
  - vm_compute. discriminate.
  - reflexivity.
Defined.

(** ** The kind classifier *)

Ltac each_ascii c :=
  destruct c as [[] [] [] [] [] [] [] []].

(** A lowercased character is never one of the capitals B, P, I, C. *)
Lemma lower_char_not_capital c :
  lower_char c <> "P"%char /\ lower_char c <> "B"%char.
Proof. each_ascii c; vm_compute; split; discriminate. Qed.

Lemma lower_char_dot c : lower_char c = "."%char -> c = "."%char.
Proof. each_ascii c; vm_compute; intros H; try discriminate H; reflexivity. Qed.

Lemma lower_not_PIC s : lower s <> str ".PIC".
Proof.
  destruct s as [|c0 [|c1 s]]; try discriminate.
  intros H. cbn in H. injection H; intros _ H1 _.
  by destruct (lower_char_not_capital c1) as [N _].
Qed.

Lemma lower_not_BPIC s : lower s <> str ".BPIC".
Proof.
  destruct s as [|c0 [|c1 s]]; try discriminate.
  intros H. cbn in H. injection H; intros _ H1 _.
  by destruct (lower_char_not_capital c1) as [_ N].
Qed.

Lemma determine_type_cases os name :
  let ext := lower (snd (splitext os name)) in
  (ext = str ".pgd" /\ ExPac.determine_type os name = ExPac.Image)
  \/ ((ext = str ".wav" \/ ext = str ".ogg")
      /\ ExPac.determine_type os name = ExPac.Audio)
  \/ (ext <> str ".pgd" /\ ext <> str ".wav" /\ ext <> str ".ogg"
      /\ ExPac.determine_type os name = ExPac.Unknown).
Proof.
  intros ext. unfold ExPac.determine_type. fold ext.
  pose proof (lower_not_PIC (snd (splitext os name))) as N1.
  pose proof (lower_not_BPIC (snd (splitext os name))) as N2.
  fold ext in N1, N2.
  destruct (decide (ext = str ".pgd")) as [E|NE].
  { left. split; [done|]. rewrite bool_decide_eq_true_2; [done|].
    rewrite E. apply list_elem_of_further, list_elem_of_here. }
  right.
  assert (¬ ext ∈ [str ".BPIC"; str ".pgd"; str ".PIC"]) as Nimg.
  { rewrite !elem_of_cons, elem_of_nil. tauto. }
  rewrite (bool_decide_eq_false_2 _ Nimg).
  destruct (decide (ext = str ".wav")) as [E|NW].
  { left. split; [by left|]. rewrite bool_decide_eq_true_2; [done|].
    rewrite E. apply list_elem_of_here. }
  destruct (decide (ext = str ".ogg")) as [E|NO].
  { left. split; [by right|]. rewrite bool_decide_eq_true_2; [done|].
    rewrite E. apply list_elem_of_further, list_elem_of_here. }
  right. repeat split; try done.
  rewrite bool_decide_eq_false_2; [done|].
  rewrite !elem_of_cons, elem_of_nil. tauto.
Qed.

Lemma determine_type_image os name :
  ExPac.determine_type os name = ExPac.Image
  <-> lower (snd (splitext os name)) = str ".pgd".
Proof.
  destruct (determine_type_cases os name)
    as [[E ->]|[[E ->]|(N1 & N2 & N3 & ->)]]; split; intros H; try done.
  destruct E as [E|E]; rewrite E in H; discriminate H.
Qed.

Lemma determine_type_audio os name :
  ExPac.determine_type os name = ExPac.Audio
  <-> lower (snd (splitext os name)) = str ".wav"
      \/ lower (snd (splitext os name)) = str ".ogg".
Proof.
  destruct (determine_type_cases os name)
    as [[E ->]|[[E ->]|(N1 & N2 & N3 & ->)]]; split; intros H; try done.
  - destruct H as [H|H]; rewrite E in H; discriminate H.
  - tauto.
Qed.

Lemma determine_type_unknown os name :
  ExPac.determine_type os name = ExPac.Unknown
  <-> lower (snd (splitext os name)) <> str ".pgd"
      /\ lower (snd (splitext os name)) <> str ".wav"
      /\ lower (snd (splitext os name)) <> str ".ogg".
Proof.
  destruct (determine_type_cases os name)
    as [[E ->]|[[E ->]|(N1 & N2 & N3 & ->)]]; split; intros H; try done.
  all: tauto.
Qed.

(** *** The extension of a name that ends in a dotted suffix *)

Lemma rfind_from_notin c s i last :
  c ∉ s -> rfind_from c s i last = last.
Proof.
  revert i last. induction s as [|x s IH]; intros i last Hn; [done|].
  apply not_elem_of_cons in Hn as [Hx Hs]. simpl.
  destruct (decide (x = c)) as [->|_]; [done|]. by apply IH.
Qed.

Lemma rfind_from_last c stem rest i last :
  c ∉ rest -> rfind_from c (stem ++ c :: rest) i last = i + len stem.
Proof.
  intros Hn. revert i last. induction stem as [|x stem IH]; intros i last.
  - simpl. destruct (decide (c = c)); [|done].
    rewrite rfind_from_notin by done. unfold len. simpl. lia.
  - simpl. rewrite IH. unfold len. simpl length. lia.
Qed.

Lemma rfind_last c stem rest :
  c ∉ rest -> rfind c (stem ++ c :: rest) = len stem.
Proof. intros Hn. unfold rfind. by rewrite rfind_from_last. Qed.

Lemma splitext_generic_suffix sep altsep stem rest :
  "."%char ∉ rest ->
  snd (splitext_generic sep altsep (stem ++ "."%char :: rest)) = []
  \/ snd (splitext_generic sep altsep (stem ++ "."%char :: rest))
     = "."%char :: rest.
Proof.
  intros Hn. unfold splitext_generic. rewrite (rfind_last _ _ _ Hn).
  match goal with |- context [if ?b then _ else _] => destruct b end.
  - right. simpl. unfold len. by rewrite Nat2Z.id, drop_app_length.
  - by left.
Qed.

Lemma splitext_suffix os stem rest :
  "."%char ∉ rest ->
  snd (splitext os (stem ++ "."%char :: rest)) = []
  \/ snd (splitext os (stem ++ "."%char :: rest)) = "."%char :: rest.
Proof. intros Hn. destruct os; by apply splitext_generic_suffix. Qed.

Lemma lower_dotted suffix target :
  lower suffix = "."%char :: target -> "."%char ∉ target ->
  exists rest, suffix = "."%char :: rest /\ "."%char ∉ rest.
Proof.
  intros H Hn. destruct suffix as [|c0 rest]; [discriminate|].
  cbn in H. injection H; intros Ht H0.
  apply lower_char_dot in H0 as ->. exists rest. split; [done|].
  intros Hin. apply Hn. rewrite <- Ht.
  apply list_elem_of_fmap. exists "."%char. split; [done|exact Hin].
Qed.

(** A name that ends in ".PIC" or ".BPIC", in any case, is of unknown
    kind. *)
Lemma determine_type_pic os stem suffix :
  lower suffix = str ".pic" \/ lower suffix = str ".bpic" ->
  ExPac.determine_type os (stem ++ suffix) = ExPac.Unknown.
Proof.
  intros Hs. apply determine_type_unknown.
  assert (exists rest, suffix = "."%char :: rest /\ "."%char ∉ rest)
    as (rest & -> & Hn).
  { destruct Hs as [Hs|Hs]; apply (lower_dotted _ _ Hs);
      cbn; rewrite !not_elem_of_cons; repeat split; try discriminate;
      apply not_elem_of_nil. }
  destruct (splitext_suffix os stem rest Hn) as [-> | ->].
  - repeat split; discriminate.
  - destruct Hs as [-> | ->]; repeat split; discriminate.
Qed.

(** ** [open_entry] and the apply-condition *)

Lemma open_entry_media file (entry : ExPac.Entry) :
  ExPac.type entry <> ExPac.Unknown ->
  ExPac.open_entry file entry
  = Ok (read_at file (ExPac.offset entry) (ExPac.size entry)).
Proof.
  intros H. unfold ExPac.open_entry. by destruct (ExPac.type entry).
Qed.

Lemma open_entry_small file (entry : ExPac.Entry) :
  ExPac.size entry <= 16 ->
  ExPac.open_entry file entry
  = Ok (read_at file (ExPac.offset entry) (ExPac.size entry)).
Proof.
  intros H. unfold ExPac.open_entry.
  destruct (ExPac.size entry <=? 16) eqn:E; [|lia].
  by rewrite orb_true_r.
Qed.

Lemma open_entry_not_dollar file (entry : ExPac.Entry) b :
  read_at file (ExPac.offset entry) (ExPac.size entry) !! 0%nat = Some b ->
  b <> 0x24 ->
  ExPac.open_entry file entry
  = Ok (read_at file (ExPac.offset entry) (ExPac.size entry)).
Proof.
  intros H0 Hb. unfold ExPac.open_entry, getitem. rewrite H0.
  change (ord "$") with 36.
  match goal with |- context [if ?c then _ else _] => destruct c end;
    [done|].
  simpl. destruct (b =? 36) eqn:E; [lia|]. reflexivity.
Qed.

Lemma open_entry_apply file (entry : ExPac.Entry) :
  ExPac.type entry = ExPac.Unknown -> 16 < ExPac.size entry ->
  read_at file (ExPac.offset entry) (ExPac.size entry) !! 0%nat = Some 0x24 ->
  ExPac.open_entry file entry
  = ExPac.decrypt_data
      (read_at file (ExPac.offset entry) (ExPac.size entry)).
Proof.
  intros Ht Hs H0. unfold ExPac.open_entry, getitem. rewrite Ht, H0.
  destruct (ExPac.size entry <=? 16) eqn:E; [lia|]. reflexivity.
Qed.

(** C9. The classifier compares the lowercased extension with the literal
    lists, so a name is an image exactly when its lowercased extension is
    ".pgd", audio exactly when it is ".wav" or ".ogg", and unknown otherwise;
    a name that ends in ".PIC" or ".BPIC" in any case is unknown, and an
    entry with such a name, a size above 16 and a payload that starts with
    0x24 is passed to the cipher decode. *)
Theorem kind_classifier (os : platform) (name : list ascii) :
  let ext := lower (snd (splitext os name)) in
  (ExPac.determine_type os name = ExPac.Image <-> ext = str ".pgd")
  /\ (ExPac.determine_type os name = ExPac.Audio
      <-> ext = str ".wav" \/ ext = str ".ogg")
  /\ (ExPac.determine_type os name = ExPac.Unknown
      <-> ext <> str ".pgd" /\ ext <> str ".wav" /\ ext <> str ".ogg")
  /\ (forall stem suffix,
        name = stem ++ suffix ->
        lower suffix = str ".pic" \/ lower suffix = str ".bpic" ->
        ExPac.determine_type os name = ExPac.Unknown
        /\ forall file size offset,
             let entry :=
               ExPac.set_offset
                 (ExPac.set_size (ExPac.new_Entry os name) size) offset in
             16 < size ->
             read_at file offset size !! 0%nat = Some 0x24 ->
             ExPac.open_entry file entry
             = ExPac.decrypt_data (read_at file offset size)).
Proof.
  intros ext. split; [apply determine_type_image|].
  split; [apply determine_type_audio|].
  split; [apply determine_type_unknown|].
  intros stem suffix -> Hs.
  pose proof (determine_type_pic os stem suffix Hs) as Hu.
  split; [done|]. intros file size offset entry Hsz H0.
  by apply open_entry_apply.
Qed.

Lemma kind_classifier_witness :
  ExPac.determine_type Posix (str "x.PGD") = ExPac.Image
  /\ ExPac.determine_type Posix (str "x.PIC") = ExPac.Unknown.
Proof.
  destruct (kind_classifier Posix (str "x.PGD")) as (Hi & _).
  destruct (kind_classifier Posix (str "x.PIC")) as (_ & _ & _ & Hp).
  split.
  - apply Hi. reflexivity.
  - apply (Hp (str "x") (str ".PIC")); [reflexivity|]. left. reflexivity.
Defined.

(** ** Reads *)

Lemma read_at_length file pos n :
  0 <= pos -> 0 <= n -> pos + n <= len file ->
  length (read_at file pos n) = Z.to_nat n.
Proof.
  unfold read_at, len. intros Hp Hn Hl.
  rewrite length_take, length_drop. lia.
Qed.

Lemma read_at_length_le file pos n :
  0 <= pos -> 0 <= n ->
  len (read_at file pos n) = Z.min n (Z.max 0 (len file - pos)).
Proof.
  unfold read_at, len. intros Hp Hn.
  rewrite length_take, length_drop. lia.
Qed.

Lemma read_at_app (a b c : list Z) :
  read_at (a ++ b ++ c) (len a) (len b) = b.
Proof.
  unfold read_at, len. rewrite !Nat2Z.id.
  by rewrite drop_app_length, take_app_length.
Qed.

Lemma unpack_u32_length bs :
  length bs = 4%nat -> exists v, unpack_u32 bs = Ok v.
Proof.
  intros H. destruct bs as [|b0 [|b1 [|b2 [|b3 [|]]]]]; try discriminate.
  by eexists.
Qed.

Lemma unpack_u32_bytes32 v :
  0 <= v < 2 ^ 32 -> unpack_u32 (bytes32 v) = Ok v.
Proof.
  intros Hv. unfold bytes32, unpack_u32.
  by rewrite <- (le32_bytes32 v Hv) at 5.
Qed.

(** ** The index table is read whole or not at all *)

Lemma read_index_iter_length os file nl xs : forall es io es' io',
  for_each (ExPac.read_index_iter os file nl) xs (es, io) = Ok (es', io') ->
  length es' = (length es + length xs)%nat.
Proof.
  induction xs as [|x xs IH]; intros es io es' io' H.
  - simpl in H. injection H as <- <-. simpl. lia.
  - cbn [for_each] in H.
    destruct (ExPac.read_index_iter os file nl (es, io) x)
      as [[es1 io1]|e] eqn:E; [|discriminate].
    cbn [mbind res_bind] in H. apply IH in H.
    unfold ExPac.read_index_iter in E.
    destruct (decode_ascii _) as [nm|]; [|discriminate].
    cbn [mbind res_bind] in E.
    destruct (unpack_u32_u32 _) as [[sz off]|]; [|discriminate].
    cbn [mbind res_bind] in E. injection E as <- <-.
    rewrite length_app in H. simpl in *. lia.
Qed.

(** A successful [read_index] returns exactly [count] entries. *)
Lemma read_index_length os file count index_offset nl es :
  ExPac.read_index os file count index_offset nl = Ok es ->
  length es = Z.to_nat count.
Proof.
  unfold ExPac.read_index. intros H.
  destruct (for_each _ _ _) as [[es' io']|] eqn:E; [|discriminate].
  cbn in H. injection H as <-.
  apply read_index_iter_length in E. rewrite length_seq in E.
  simpl in *. lia.
Qed.

(** ** The probe *)

Lemma is_sane_count_spec count :
  ExPac.is_sane_count count = true <-> 0 < count < 100000.
Proof. unfold ExPac.is_sane_count. lia. Qed.

Lemma try_open_wide os file count :
  accepted file 0 0x3FE 0x20 count ->
  ExPac.PacOpener_try_open os file
  = Some <$> ExPac.read_index os file count 0x3FE 0x20.
Proof.
  intros (Hc & Hs & Hf). unfold ExPac.PacOpener_try_open.
  rewrite Hc. cbn [mbind res_bind]. rewrite Hs. cbn [negb].
  rewrite Hf. cbn [mbind res_bind]. by rewrite Z.eqb_refl.
Qed.

Lemma try_open_narrow os file count :
  rejected file 0 0x3FE 0x20 -> accepted file 0 0x3FE 0x10 count ->
  ExPac.PacOpener_try_open os file
  = Some <$> ExPac.read_index os file count 0x3FE 0x10.
Proof.
  intros (c & Hc' & Hrej) (Hc & Hs & Hf). unfold ExPac.PacOpener_try_open.
  rewrite Hc in Hc'. injection Hc' as <-.
  rewrite Hc. cbn [mbind res_bind]. rewrite Hs. cbn [negb].
  destruct Hrej as [Hrej|(fo & Hfo & Hne)]; [congruence|].
  rewrite Hfo. cbn [mbind res_bind].
  destruct (fo =? 1022 + count * (32 + 8)) eqn:E; [lia|]. cbn [negb].
  rewrite Hf. cbn [mbind res_bind]. by rewrite Z.eqb_refl.
Qed.

Lemma try_open_classic_none os file :
  rejected file 0 0x3FE 0x20 -> rejected file 0 0x3FE 0x10 ->
  ExPac.PacOpener_try_open os file = Ok None.
Proof.
  intros (c & Hc & Hw) (c' & Hc' & Hn). unfold ExPac.PacOpener_try_open.
  rewrite Hc in Hc'. injection Hc' as <-.
  rewrite Hc. cbn [mbind res_bind].
  destruct (ExPac.is_sane_count c) eqn:Hs; [|done]. cbn [negb].
  destruct Hw as [Hw|(fo & Hfo & Hne)]; [congruence|].
  destruct Hn as [Hn|(fo' & Hfo' & Hne')]; [congruence|].
  rewrite Hfo. cbn [mbind res_bind].
  destruct (fo =? 1022 + c * (32 + 8)) eqn:E; [lia|]. cbn [negb].
  rewrite Hfo'. cbn [mbind res_bind].
  destruct (fo' =? 1022 + c * (16 + 8)) eqn:E'; [lia|]. done.
Qed.

Lemma try_open_tagged os file count :
  accepted file 8 0x804 0x20 count ->
  ExPac.Pac2Opener_try_open os file
  = Some <$> ExPac.read_index os file count 0x804 0x20.
Proof.
  intros (Hc & Hs & Hf). unfold ExPac.Pac2Opener_try_open.
  rewrite Hc. cbn [mbind res_bind]. rewrite Hs. cbn [negb].
  rewrite Hf. cbn [mbind res_bind]. by rewrite Z.eqb_refl.
Qed.

Lemma try_open_tagged_none os file :
  rejected file 8 0x804 0x20 ->
  ExPac.Pac2Opener_try_open os file = Ok None.
Proof.
  intros (c & Hc & Hw). unfold ExPac.Pac2Opener_try_open.
  rewrite Hc. cbn [mbind res_bind].
  destruct (ExPac.is_sane_count c) eqn:Hs; [|done]. cbn [negb].
  destruct Hw as [Hw|(fo & Hfo & Hne)]; [congruence|].
  rewrite Hfo. cbn [mbind res_bind].
  destruct (fo =? 2052 + c * (32 + 8)) eqn:E; [lia|]. done.
Qed.

(** The table of an accepted candidate is not empty, so the loop over the
    openers stops there. *)
Lemma read_index_truthy os file count index_offset nl es :
  ExPac.is_sane_count count = true ->
  ExPac.read_index os file count index_offset nl = Ok es ->
  ExPac.truthy (Some es) = true.
Proof.
  intros Hs H. apply read_index_length in H.
  apply is_sane_count_spec in Hs.
  destruct es; [simpl in H; lia|done].
Qed.

Lemma probe_classic os file count nl :
  ExPac.is_sane_count count = true ->
  ExPac.PacOpener_try_open os file
  = Some <$> ExPac.read_index os file count 0x3FE nl ->
  ExPac.probe os [ExPac.PacOpener; ExPac.Pac2Opener] file None
  = Some <$> ExPac.read_index os file count 0x3FE nl.
Proof.
  intros Hs H. cbn [ExPac.probe ExPac.try_open]. rewrite H.
  destruct (ExPac.read_index os file count 1022 nl) as [es|e] eqn:E; [|done].
  cbn [fmap res_fmap mbind res_bind].
  by rewrite (read_index_truthy _ _ _ _ _ _ Hs E).
Qed.

Lemma probe_tagged os file count :
  ExPac.PacOpener_try_open os file = Ok None ->
  ExPac.is_sane_count count = true ->
  ExPac.Pac2Opener_try_open os file
  = Some <$> ExPac.read_index os file count 0x804 0x20 ->
  ExPac.probe os [ExPac.PacOpener; ExPac.Pac2Opener] file None
  = Some <$> ExPac.read_index os file count 0x804 0x20.
Proof.
  intros H1 Hs H. cbn [ExPac.probe ExPac.try_open]. rewrite H1.
  cbn [mbind res_bind ExPac.truthy]. rewrite H.
  destruct (ExPac.read_index os file count 2052 32) as [es|e] eqn:E; [|done].
  cbn [fmap res_fmap mbind res_bind].
  by rewrite (read_index_truthy _ _ _ _ _ _ Hs E).
Qed.

Lemma probe_none os file :
  ExPac.PacOpener_try_open os file = Ok None ->
  ExPac.Pac2Opener_try_open os file = Ok None ->
  ExPac.probe os [ExPac.PacOpener; ExPac.Pac2Opener] file None = Ok None.
Proof.
  intros H1 H2. cbn [ExPac.probe ExPac.try_open]. rewrite H1.
  cbn [mbind res_bind ExPac.truthy]. by rewrite H2.
Qed.

(** C7. When the count at offset 0 is in (0, 100000) and the offset stored
    in the first 40-byte record is 0x3FE + count*40, [PacOpener.try_open]
    and the loop over the openers return the index decoded with 32-byte
    names at 0x3FE, whatever the fields of the narrow and of the tagged
    layout hold; a decoded list has [count] entries. *)
Theorem probe_prefers_classic_wide (os : platform) (file : list Z)
    (count : Z) :
  unpack_u32 (read_at file 0 4) = Ok count ->
  0 < count < 100000 ->
  unpack_u32 (read_at file (0x3FE + 0x20 + 4) 4) = Ok (0x3FE + count * 40) ->
  ExPac.PacOpener_try_open os file
  = Some <$> ExPac.read_index os file count 0x3FE 0x20
  /\ ExPac.probe os [ExPac.PacOpener; ExPac.Pac2Opener] file None
     = Some <$> ExPac.read_index os file count 0x3FE 0x20
  /\ forall entries,
       ExPac.probe os [ExPac.PacOpener; ExPac.Pac2Opener] file None
       = Ok (Some entries) ->
       ExPac.read_index os file count 0x3FE 0x20 = Ok entries
       /\ length entries = Z.to_nat count.
Proof.
  intros Hc Hs Hf. apply is_sane_count_spec in Hs.
  assert (accepted file 0 0x3FE 0x20 count) as Hacc by done.
  pose proof (try_open_wide os file count Hacc) as Ht.
  pose proof (probe_classic os file count 0x20 Hs Ht) as Hp.
  split; [done|]. split; [done|].
  intros entries He. rewrite Hp in He.
  destruct (ExPac.read_index os file count 1022 32) as [es|e] eqn:E;
    [|discriminate].
  cbn in He. injection He as ->. split; [done|].
  by apply read_index_length in E.
Qed.

Lemma probe_prefers_classic_wide_witness :
  ExPac.probe Posix [ExPac.PacOpener; ExPac.Pac2Opener] sample_archive None
  = Some <$> ExPac.read_index Posix sample_archive 2 0x3FE 0x20.
Proof.
  apply (probe_prefers_classic_wide Posix sample_archive 2).
  - reflexivity.
  - lia.
  - reflexivity.
Defined.

Lemma unpack_u32_read file pos :
  0 <= pos -> pos + 4 <= len file ->
  exists v, unpack_u32 (read_at file pos 4) = Ok v.
Proof.
  intros Hp Hl. apply unpack_u32_length.
  by rewrite read_at_length by lia.
Qed.

(** Every candidate whose fields can be read is accepted or rejected. *)
Lemma accepted_or_rejected file count_pos index_offset nl :
  0 <= count_pos -> count_pos + 4 <= len file ->
  0 <= index_offset + nl + 4 -> index_offset + nl + 4 + 4 <= len file ->
  (exists count, accepted file count_pos index_offset nl count)
  \/ rejected file count_pos index_offset nl.
Proof.
  intros H1 H2 H3 H4.
  destruct (unpack_u32_read file count_pos H1 H2) as [c Hc].
  destruct (unpack_u32_read file _ H3 H4) as [fo Hfo].
  destruct (ExPac.is_sane_count c) eqn:Hs.
  - destruct (decide (fo = index_offset + c * (nl + 8))) as [->|Hne].
    + left. by exists c.
    + right. exists c. split; [done|]. right. by exists fo.
  - right. exists c. split; [done|]. by left.
Qed.

Lemma accepted_sane file count_pos index_offset nl count :
  accepted file count_pos index_offset nl count ->
  ExPac.is_sane_count count = true.
Proof. by intros (_ & ? & _). Qed.

Lemma accepted_not_rejected file count_pos index_offset nl count :
  accepted file count_pos index_offset nl count ->
  ~ rejected file count_pos index_offset nl.
Proof.
  intros (Hc & Hs & Hf) (c & Hc' & Hr).
  rewrite Hc in Hc'. injection Hc' as <-.
  destruct Hr as [Hr|(fo & Hfo & Hne)]; [congruence|].
  rewrite Hf in Hfo. injection Hfo as <-. done.
Qed.

Lemma unpack_u32_short bs :
  length bs <> 4%nat -> unpack_u32 bs = Raise StructError.
Proof. by destruct bs as [|b0 [|b1 [|b2 [|b3 [|]]]]]. Qed.

Lemma unpack_u32_raise bs e : unpack_u32 bs = Raise e -> e = StructError.
Proof.
  destruct bs as [|b0 [|b1 [|b2 [|b3 [|]]]]]; simpl; congruence.
Qed.

Lemma read_past_end file pos :
  0 <= pos -> len file < pos + 4 ->
  unpack_u32 (read_at file pos 4) = Raise StructError.
Proof.
  intros Hp Hl. apply unpack_u32_short.
  pose proof (read_at_length_le file pos 4 Hp). unfold len in *. lia.
Qed.

Lemma unpack_u32_read_inv file pos v :
  0 <= pos -> unpack_u32 (read_at file pos 4) = Ok v -> pos + 4 <= len file.
Proof.
  intros Hp H. destruct (decide (pos + 4 <= len file)) as [|Hn]; [done|].
  rewrite read_past_end in H by lia. done.
Qed.

(** Every candidate is accepted, rejected or cannot be read. *)
Lemma candidate_cases file count_pos index_offset nl :
  0 <= count_pos -> 0 <= index_offset + nl + 4 ->
  (exists count, accepted file count_pos index_offset nl count)
  \/ rejected file count_pos index_offset nl
  \/ unreadable file count_pos index_offset nl.
Proof.
  intros H1 H3.
  destruct (decide (count_pos + 4 <= len file)) as [H2|H2];
    [|right; right; left; lia].
  destruct (unpack_u32_read file count_pos H1 H2) as [c Hc].
  destruct (ExPac.is_sane_count c) eqn:Hs;
    [|right; left; exists c; split; [done|by left]].
  destruct (decide (index_offset + nl + 4 + 4 <= len file)) as [H4|H4];
    [|right; right; right; exists c; split; [done|split; [done|lia]]].
  destruct (unpack_u32_read file _ H3 H4) as [fo Hfo].
  destruct (decide (fo = index_offset + c * (nl + 8))) as [->|Hne].
  - left. by exists c.
  - right. left. exists c. split; [done|]. right. by exists fo.
Qed.

Lemma classic_unreadable os file :
  unreadable file 0 0x3FE 0x20 ->
  ExPac.PacOpener_try_open os file = Raise StructError.
Proof.
  unfold ExPac.PacOpener_try_open.
  intros [Hlen|(c & Hc & Hs & Hlen)].
  - by rewrite (read_past_end file 0) by lia.
  - rewrite Hc. cbn [mbind res_bind]. rewrite Hs. cbn [negb].
    by rewrite (read_past_end file (0x3FE + 0x20 + 4)) by lia.
Qed.

Lemma tagged_unreadable os file :
  unreadable file 8 0x804 0x20 ->
  ExPac.Pac2Opener_try_open os file = Raise StructError.
Proof.
  unfold ExPac.Pac2Opener_try_open.
  intros [Hlen|(c & Hc & Hs & Hlen)].
  - by rewrite (read_past_end file 8) by lia.
  - rewrite Hc. cbn [mbind res_bind]. rewrite Hs. cbn [negb].
    by rewrite (read_past_end file (0x804 + 0x20 + 4)) by lia.
Qed.

(** When the classic-wide candidate is rejected, the classic-narrow one can
    be read: its field lies before the one of the wide candidate. *)
Lemma narrow_cases file :
  rejected file 0 0x3FE 0x20 ->
  (exists count, accepted file 0 0x3FE 0x10 count)
  \/ rejected file 0 0x3FE 0x10.
Proof.
  intros (c & Hc & [Hs|(fo & Hfo & Hne)]).
  - right. exists c. split; [done|by left].
  - apply unpack_u32_read_inv in Hfo; [|lia].
    destruct (candidate_cases file 0 0x3FE 0x10) as [H|[H|H]];
      [lia|lia|by left|by right|].
    destruct H as [H|(c' & _ & _ & H)]; lia.
Qed.

(** C3, as the code has it. On every file the loop over the openers does
    one of six things. It accepts the first of classic-wide, classic-narrow
    and tagged whose count is sane and whose first stored offset matches,
    and returns what [read_index] makes of that candidate's table. It
    returns [None] when all three are rejected. And it raises
    [struct.error], which nothing catches, when the file ends before a field
    that it reads: a field of the classic candidate, or, the classic
    candidates being rejected, a field of the tagged one. A list it returns
    is the whole table of the accepted candidate, with as many entries as
    its count. *)
Theorem probe_outcome (os : platform) (file : list Z) :
  let result := ExPac.probe os [ExPac.PacOpener; ExPac.Pac2Opener] file None in
  ((exists count,
       accepted file 0 0x3FE 0x20 count
       /\ result = Some <$> ExPac.read_index os file count 0x3FE 0x20)
   \/ (exists count,
         rejected file 0 0x3FE 0x20 /\ accepted file 0 0x3FE 0x10 count
         /\ result = Some <$> ExPac.read_index os file count 0x3FE 0x10)
   \/ (exists count,
         rejected file 0 0x3FE 0x20 /\ rejected file 0 0x3FE 0x10
         /\ accepted file 8 0x804 0x20 count
         /\ result = Some <$> ExPac.read_index os file count 0x804 0x20)
   \/ (rejected file 0 0x3FE 0x20 /\ rejected file 0 0x3FE 0x10
       /\ rejected file 8 0x804 0x20 /\ result = Ok None)
   \/ (unreadable file 0 0x3FE 0x20 /\ result = Raise StructError)
   \/ (rejected file 0 0x3FE 0x20 /\ rejected file 0 0x3FE 0x10
       /\ unreadable file 8 0x804 0x20 /\ result = Raise StructError))
  /\ (forall entries,
        result = Ok (Some entries) ->
        exists count index_offset nl,
          ExPac.read_index os file count index_offset nl = Ok entries
          /\ 0 < count < 100000
          /\ length entries = Z.to_nat count)
  /\ (len file < 4 -> result = Raise StructError).
Proof.
  intros result.
  assert ((exists count index_offset nl,
              ExPac.is_sane_count count = true
              /\ result = Some <$> ExPac.read_index os file count index_offset nl)
          \/ result = Ok None \/ result = Raise StructError ->
          forall entries,
            result = Ok (Some entries) ->
            exists count index_offset nl,
              ExPac.read_index os file count index_offset nl = Ok entries
              /\ 0 < count < 100000
              /\ length entries = Z.to_nat count) as Hfull.
  { intros [(count & io & nl & Hs & Hr)|[Hr|Hr]] entries He;
      rewrite Hr in He; [|discriminate..].
    destruct (ExPac.read_index os file count io nl) as [es|e] eqn:E;
      [|discriminate].
    cbn in He. injection He as ->. exists count, io, nl.
    split; [done|]. split; [by apply is_sane_count_spec|].
    by apply read_index_length in E. }
  assert (len file < 4 -> result = Raise StructError) as Hshort.
  { intros Hlen. unfold result. cbn [ExPac.probe ExPac.try_open].
    rewrite classic_unreadable; [done|]. left. lia. }
  destruct (candidate_cases file 0 0x3FE 0x20) as [[c Hw]|[Hw|Hw]];
    try lia.
  { pose proof (probe_classic os file c 0x20 (accepted_sane _ _ _ _ _ Hw)
                  (try_open_wide os file c Hw)) as Hp.
    split; [left; by exists c|]. split; [|done].
    apply Hfull. left. exists c, 0x3FE, 0x20.
    split; [by apply (accepted_sane _ _ _ _ _ Hw)|done]. }
  2:{ assert (result = Raise StructError) as Hp.
      { unfold result. cbn [ExPac.probe ExPac.try_open].
        by rewrite classic_unreadable. }
      split; [do 4 right; by left|]. split; [|done].
      apply Hfull. by do 2 right. }
  destruct (narrow_cases file Hw) as [[c Hn]|Hn].
  { pose proof (probe_classic os file c 0x10 (accepted_sane _ _ _ _ _ Hn)
                  (try_open_narrow os file c Hw Hn)) as Hp.
    split; [right; left; by exists c|]. split; [|done].
    apply Hfull. left. exists c, 0x3FE, 0x10.
    split; [by apply (accepted_sane _ _ _ _ _ Hn)|done]. }
  pose proof (try_open_classic_none os file Hw Hn) as Hnone.
  destruct (candidate_cases file 8 0x804 0x20) as [[c Ht]|[Ht|Ht]];
    try lia.
  - pose proof (probe_tagged os file c Hnone (accepted_sane _ _ _ _ _ Ht)
                  (try_open_tagged os file c Ht)) as Hp.
    split; [right; right; left; by exists c|]. split; [|done].
    apply Hfull. left. exists c, 0x804, 0x20.
    split; [by apply (accepted_sane _ _ _ _ _ Ht)|done].
  - pose proof (probe_none os file Hnone (try_open_tagged_none os file Ht))
      as Hp.
    split; [by do 3 right; left|]. split; [|done].
    apply Hfull. right. by left.
  - assert (result = Raise StructError) as Hp.
    { unfold result. cbn [ExPac.probe ExPac.try_open]. rewrite Hnone.
      cbn [mbind res_bind ExPac.truthy]. by rewrite tagged_unreadable. }
    split; [by do 5 right|]. split; [|done].
    apply Hfull. by do 2 right.
Qed.

(** On a file shorter than 4 bytes the first [struct.unpack] of the probe
    raises, and nothing catches it: the probe neither returns entries nor
    [None], and [extract_archive] raises before it asks the file system for
    anything. A file of four zero bytes gets past the classic candidates and
    raises at the count of the tagged one. *)
Lemma probe_short_file_raises :
  ExPac.probe Posix [ExPac.PacOpener; ExPac.Pac2Opener] [0x01; 0x00; 0x00]
    None = Raise StructError
  /\ ExPac.extract_archive Posix record_makedirs record_write
       [0x01; 0x00; 0x00] [] = Raise StructError
  /\ unpack_u32 (read_at [0x00; 0x00; 0x00; 0x00] 0 4) = Ok 0
  /\ ExPac.probe Posix [ExPac.PacOpener; ExPac.Pac2Opener]
       [0x00; 0x00; 0x00; 0x00] None = Raise StructError.
Proof. repeat split; reflexivity. Qed.

(** The sample archive has 1125 bytes, fewer than the fields of the tagged
    candidate need: the classic-wide candidate is accepted before they are
    read. *)
Lemma probe_outcome_witness :
  len sample_archive = 1125
  /\ ExPac.probe Posix [ExPac.PacOpener; ExPac.Pac2Opener] sample_archive None
     = Some <$> ExPac.read_index Posix sample_archive 2 0x3FE 0x20.
Proof.
  split; [reflexivity|].
  destruct (probe_outcome Posix sample_archive)
    as [[(c & (Hc & _) & Hr)
        |[(c & (c' & Hc & [Hs|(fo & Hfo & Hne)]) & _)
         |[(c & (c' & Hc & [Hs|(fo & Hfo & Hne)]) & _)
          |[((c' & Hc & [Hs|(fo & Hfo & Hne)]) & _)
           |[([Hl|(c' & _ & _ & Hl)] & _)
            |((c' & Hc & [Hs|(fo & Hfo & Hne)]) & _)]]]]] _].
  - vm_compute in Hc. injection Hc as <-. exact Hr.
  - vm_compute in Hc. injection Hc as <-. discriminate Hs.
  - vm_compute in Hc, Hfo. injection Hc as <-. injection Hfo as <-.
    exfalso. by apply Hne.
  - vm_compute in Hc. injection Hc as <-. discriminate Hs.
  - vm_compute in Hc, Hfo. injection Hc as <-. injection Hfo as <-.
    exfalso. by apply Hne.
  - vm_compute in Hc. injection Hc as <-. discriminate Hs.
  - vm_compute in Hc, Hfo. injection Hc as <-. injection Hfo as <-.
    exfalso. by apply Hne.
  - vm_compute in Hl. discriminate Hl.
  - vm_compute in Hl. discriminate Hl.
  - vm_compute in Hc. injection Hc as <-. discriminate Hs.
  - vm_compute in Hc, Hfo. injection Hc as <-. injection Hfo as <-.
    exfalso. by apply Hne.
Defined.

(** ** Extraction of one entry *)

(** C10, as the code has it. For a payload that satisfies the
    apply-condition (kind unknown, size above 16, first byte 0x24): when it
    has at least 20 bytes and its length minus 16 is not a multiple of 4,
    the last iteration of the decode loop raises [struct.error]; below 20
    bytes the count guard skips the loop and the payload is returned as it
    is; otherwise every word is decoded. So [open_entry] returns exactly
    when the payload is shorter than 20 bytes or word-aligned. *)
Theorem decode_returns_iff (file : list Z) (entry : ExPac.Entry) :
  let data := read_at file (ExPac.offset entry) (ExPac.size entry) in
  bytes_ok data ->
  ExPac.type entry = ExPac.Unknown -> 16 < ExPac.size entry ->
  data !! 0%nat = Some 0x24 ->
  (20 <= len data -> (len data - 16) mod 4 <> 0 ->
   ExPac.open_entry file entry = Raise StructError)
  /\ (len data < 20 -> ExPac.open_entry file entry = Ok data)
  /\ (20 <= len data -> (len data - 16) mod 4 = 0 ->
      ExPac.open_entry file entry
      = Ok (take 16 data ++ words_map word_dec 0 (drop 16 data)))
  /\ (is_ok (ExPac.open_entry file entry)
      <-> len data < 20 \/ (len data - 16) mod 4 = 0).
Proof.
  intros data Hok Ht Hs H0.
  pose proof (open_entry_apply file entry Ht Hs H0) as Ho. fold data in Ho.
  assert (20 <= len data -> (len data - 16) mod 4 <> 0 ->
          ExPac.open_entry file entry = Raise StructError) as Hbad
    by (intros; rewrite Ho; by apply decrypt_data_unaligned).
  assert (len data < 20 -> ExPac.open_entry file entry = Ok data) as Hshort
    by (intros; rewrite Ho; by apply decrypt_data_short).
  assert (20 <= len data -> (len data - 16) mod 4 = 0 ->
          ExPac.open_entry file entry
          = Ok (take 16 data ++ words_map word_dec 0 (drop 16 data))) as Hgood
    by (intros; rewrite Ho; by apply decrypt_data_aligned).
  repeat split; try done.
  - intros [out Hout].
    destruct (Z_lt_dec (len data) 20) as [?|?]; [by left|right].
    destruct (Z.eq_dec ((len data - 16) mod 4) 0) as [?|Hne]; [done|].
    rewrite Hbad in Hout by lia. discriminate.
  - intros [Hlt|Hal].
    + eexists. by apply Hshort.
    + destruct (Z_lt_dec (len data) 20) as [?|?].
      * eexists. by apply Hshort.
      * eexists. apply Hgood; [lia|done].
Qed.

(** A payload of 21 bytes that satisfies the apply-condition: the second
    iteration of the loop finds one byte and raises. *)
Lemma decode_returns_iff_witness :
  let file := 0x24 :: replicate 20 7 in
  let entry := ExPac.set_size (ExPac.new_Entry Posix (str "a.dat")) 21 in
  ExPac.type entry = ExPac.Unknown /\ 16 < ExPac.size entry
  /\ (len file - 16) mod 4 <> 0
  /\ ExPac.open_entry file entry = Raise StructError.
Proof.
  intros file entry.
  split; [reflexivity|]. split; [reflexivity|].
  split; [vm_compute; discriminate|].
  apply (decode_returns_iff file entry).
  - apply bytes_ok_check. reflexivity.
  - reflexivity.
  - reflexivity.
  - reflexivity.
  - vm_compute. discriminate.
  - vm_compute. discriminate.
Defined.

(** A payload of 17 bytes that satisfies the apply-condition, with one byte
    in the region from 16 on: [open_entry] returns it. *)
Lemma decode_returns_unaligned_short :
  let file := 0x24 :: replicate 16 7 in
  let entry := ExPac.set_size (ExPac.new_Entry Posix (str "a.dat")) 17 in
  ExPac.type entry = ExPac.Unknown /\ 16 < ExPac.size entry
  /\ read_at file (ExPac.offset entry) (ExPac.size entry) = file
  /\ file !! 0%nat = Some 0x24
  /\ (len file - 16) mod 4 <> 0
  /\ ExPac.open_entry file entry = Ok file.
Proof.
  intros file entry. repeat split; try reflexivity.
  vm_compute. discriminate.
Qed.

(** ** The packer *)

Lemma len_app {A} (l k : list A) : len (l ++ k) = len l + len k.
Proof. unfold len. rewrite length_app. lia. Qed.

Lemma len_nonneg {A} (l : list A) : 0 <= len l.
Proof. unfold len. lia. Qed.

Lemma collect_iter_files buffers : forall entries off,
  foldl PkPac.collect_iter (entries, off) (as_directory buffers)
  = (entries ++ layout off buffers, off + total_size buffers).
Proof.
  induction buffers as [|[n d] rest IH]; intros entries off.
  - simpl. rewrite app_nil_r. f_equal. unfold total_size. simpl. lia.
  - cbn [as_directory map foldl PkPac.collect_iter fst snd].
    fold (as_directory rest). rewrite IH. cbn [layout].
    rewrite <- app_assoc. f_equal. unfold total_size. simpl. lia.
Qed.

(** The entries of a directory of regular files are laid out from the end
    of an index table of 40-byte records. *)
Lemma collect_files_layout buffers :
  PkPac.collect_files (as_directory buffers)
  = layout (0x3FE + len buffers * (0x20 + 8)) buffers.
Proof.
  unfold PkPac.collect_files. rewrite collect_iter_files.
  unfold len, as_directory. by rewrite length_map.
Qed.

Lemma layout_length off buffers : length (layout off buffers) = length buffers.
Proof.
  revert off. induction buffers as [|[n d] rest IH]; intros off; [done|].
  simpl. by rewrite IH.
Qed.

Lemma sizes_before_S k n d rest :
  sizes_before (S k) ((n, d) :: rest) = len d + sizes_before k rest.
Proof. reflexivity. Qed.

Lemma layout_lookup buffers : forall off k e,
  layout off buffers !! k = Some e ->
  exists n d, buffers !! k = Some (n, d)
    /\ PkPac.name e = n /\ PkPac.size e = len d
    /\ PkPac.offset e = off + sizes_before k buffers.
Proof.
  induction buffers as [|[n d] rest IH]; intros off k e H; [done|].
  destruct k as [|k].
  - simpl in H. injection H as <-. exists n, d.
    unfold sizes_before. simpl. repeat split; lia.
  - simpl in H. apply IH in H as (n' & d' & Hb & Hn & Hs & Ho).
    exists n', d'. rewrite sizes_before_S. repeat split; try done. lia.
Qed.

Lemma write_index_iter_append f entry :
  PkPac.write_index_iter f entry = (r ← index_record entry; Ok (f ++ r)).
Proof.
  unfold index_record, PkPac.write_index_iter.
  destruct (encode_ascii _) as [bs|]; [|done]. cbn [mbind res_bind].
  destruct (pack_u32_u32 _ _) as [pk|]; [|done]. cbn [mbind res_bind].
  by rewrite app_assoc.
Qed.

Lemma write_data_iter_append input_dir f entry :
  PkPac.write_data_iter input_dir f entry
  = (d ← payload_written input_dir entry; Ok (f ++ d)).
Proof.
  unfold payload_written, PkPac.write_data_iter.
  destruct (PkPac.read_file _ _) as [data|]; [|done]. cbn [mbind res_bind].
  destruct (PkPac.cipher_extension _) as [b|]; [|done]. cbn [mbind res_bind].
  by destruct (if b && _ then _ else _).
Qed.

Lemma for_each_append {X} (iter : list Z -> X -> res (list Z))
    (g : X -> res (list Z)) :
  (forall f x, iter f x = (r ← g x; Ok (f ++ r))) ->
  forall xs f,
    for_each iter xs f = (rs ← map_res g xs; Ok (f ++ concat rs)).
Proof.
  intros Hiter. induction xs as [|x xs IH]; intros f.
  - simpl. by rewrite app_nil_r.
  - cbn [for_each map_res]. rewrite Hiter.
    destruct (g x) as [r|]; [|done]. cbn [mbind res_bind].
    rewrite IH. destruct (map_res g xs) as [rs|]; [|done].
    cbn [mbind res_bind concat]. by rewrite app_assoc.
Qed.

Lemma map_res_length {A B} (f : A -> res B) xs ys :
  map_res f xs = Ok ys -> length ys = length xs.
Proof.
  revert ys. induction xs as [|x xs IH]; intros ys H.
  - by injection H as <-.
  - cbn [map_res] in H. destruct (f x) as [y|]; [|discriminate].
    cbn [mbind res_bind] in H.
    destruct (map_res f xs) as [ys'|]; [|discriminate].
    cbn [mbind res_bind] in H. injection H as <-. simpl. by rewrite (IH ys').
Qed.

Lemma map_res_lookup {A B} (f : A -> res B) xs ys k x :
  map_res f xs = Ok ys -> xs !! k = Some x ->
  exists y, ys !! k = Some y /\ f x = Ok y.
Proof.
  revert ys k. induction xs as [|x' xs IH]; intros ys k H Hk; [done|].
  cbn [map_res] in H. destruct (f x') as [y'|] eqn:E; [|discriminate].
  cbn [mbind res_bind] in H.
  destruct (map_res f xs) as [ys'|]; [|discriminate].
  cbn [mbind res_bind] in H. injection H as <-.
  destruct k as [|k].
  - injection Hk as ->. by exists y'.
  - simpl in Hk. by apply (IH ys' k).
Qed.

(** The output of [write_archive]: the count, the padding, the index
    records and the payloads, in this order. *)
Lemma write_archive_parts entries input_dir :
  PkPac.write_archive entries input_dir
  = (count ← pack_u32 (len entries);
     index ← map_res index_record entries;
     payloads ← map_res (payload_written input_dir) entries;
     Ok (count ++ replicate (Z.to_nat (0x3FE - 4)) 0
           ++ concat index ++ concat payloads)).
Proof.
  unfold PkPac.write_archive.
  destruct (pack_u32 _) as [count|]; [|done]. cbn [mbind res_bind].
  rewrite (for_each_append _ _ write_index_iter_append).
  destruct (map_res index_record entries) as [index|]; [|done].
  cbn [mbind res_bind].
  rewrite (for_each_append _ _ (write_data_iter_append input_dir)).
  destruct (map_res _ entries) as [payloads|]; [|done].
  cbn [mbind res_bind]. by rewrite <- !app_assoc.
Qed.

Lemma index_record_bytes entry r :
  index_record entry = Ok r ->
  r = ljust (map ord (PkPac.name entry)) (Z.to_nat PkPac.name_length)
      ++ bytes32 (PkPac.size entry) ++ bytes32 (PkPac.offset entry).
Proof.
  unfold index_record, PkPac.write_index_iter, encode_ascii, pack_u32_u32.
  destruct (forallb _ _); [|discriminate]. cbn [mbind res_bind].
  unfold pack_u32.
  destruct ((0 <=? PkPac.size entry) && _); [|discriminate].
  cbn [mbind res_bind].
  destruct ((0 <=? PkPac.offset entry) && _); [|discriminate].
  cbn [mbind res_bind]. intros H. by injection H as <-.
Qed.

Lemma map_res_ok {A B} (f : A -> res B) xs :
  Forall (fun x => is_ok (f x)) xs -> is_ok (map_res f xs).
Proof.
  induction 1 as [|x xs [y Hy] _ [ys Hys]]; [by eexists|].
  exists (y :: ys). cbn [map_res]. by rewrite Hy, Hys.
Qed.

Lemma read_file_lookup buffers : forall k n d,
  NoDup (map fst buffers) -> buffers !! k = Some (n, d) ->
  PkPac.read_file (as_directory buffers) n = Ok d.
Proof.
  induction buffers as [|[n0 d0] rest IH]; intros k n d Hnd Hk; [done|].
  cbn [map fst] in Hnd. apply NoDup_cons in Hnd as [Hnot Hnd].
  cbn [as_directory map PkPac.read_file fst snd].
  destruct k as [|k].
  - injection Hk as <- <-. by destruct (decide (n0 = n0)).
  - simpl in Hk. destruct (decide (n0 = n)) as [->|_].
    + exfalso. apply Hnot. apply list_elem_of_fmap. exists (n, d).
      split; [done|]. by apply list_elem_of_lookup_2 in Hk.
    + by apply (IH k).
Qed.

(** *** The stored payload has the length of the buffer *)

Lemma for_each_invariant {S X} (P : S -> Prop) (body : S -> X -> res S) :
  (forall st x st', P st -> body st x = Ok st' -> P st') ->
  forall xs st st', P st -> for_each body xs st = Ok st' -> P st'.
Proof.
  intros Hbody. induction xs as [|x xs IH]; intros st st' HP H.
  - simpl in H. by injection H as <-.
  - cbn [for_each] in H. destruct (body st x) as [st1|] eqn:E; [|done].
    cbn [mbind res_bind] in H. eapply IH; [|exact H]. by eapply Hbody.
Qed.

Lemma setitem_length arr i v arr' :
  setitem arr i v = Ok arr' -> length arr' = length arr.
Proof.
  unfold setitem. destruct (negb _); [done|].
  destruct (decide _); [|done]. intros H. injection H as <-.
  apply length_insert.
Qed.

Lemma pack_into_length arr i v arr' :
  pack_into arr i v = Ok arr' -> length arr' = length arr.
Proof.
  unfold pack_into, pack_u32. destruct (_ && _); [|done].
  cbn [mbind res_bind]. destruct (decide _) as [Hi|]; [|done].
  intros H. injection H as <-.
  rewrite length_app, length_take. cbn [app length].
  rewrite length_drop. lia.
Qed.

Lemma encrypt_iter_length st i st' :
  PkPac.encrypt_iter st i = Ok st' -> length (fst st') = length (fst st).
Proof.
  destruct st as [arr shift]. unfold PkPac.encrypt_iter.
  destruct (unpack_u32 _) as [v|]; [|done]. cbn [mbind res_bind].
  destruct (pack_into _ _ _) as [arr1|] eqn:E1; [|done].
  cbn [mbind res_bind].
  destruct (getitem _ _) as [b|]; [|done]. cbn [mbind res_bind].
  destruct (setitem _ _ _) as [arr2|] eqn:E2; [|done].
  cbn [mbind res_bind]. intros H. injection H as <-. simpl.
  apply setitem_length in E2. apply pack_into_length in E1. congruence.
Qed.

Lemma encrypt_data_length d w :
  PkPac.encrypt_data d = Ok w -> length w = length d.
Proof.
  unfold PkPac.encrypt_data. destruct (getitem d 0) as [b0|]; [|done].
  cbn [mbind res_bind]. destruct (negb _); [by intros H; injection H as <-|].
  destruct (0 <? _); [|by intros H; injection H as <-].
  destruct (for_each _ _ _) as [st|] eqn:E; [|done].
  cbn [mbind res_bind]. intros H. injection H as <-.
  apply (for_each_invariant (fun st => length (fst st) = length d)) in E;
    [done| |done].
  intros st0 x st1 HP Hst. apply encrypt_iter_length in Hst. congruence.
Qed.

Lemma payload_written_length input_dir e d w :
  PkPac.read_file input_dir (PkPac.name e) = Ok d ->
  payload_written input_dir e = Ok w -> length w = length d.
Proof.
  intros Hread. unfold payload_written, PkPac.write_data_iter.
  rewrite Hread. cbn [mbind res_bind].
  destruct (PkPac.cipher_extension _) as [b|]; [|done].
  cbn [mbind res_bind]. destruct (b && _).
  - destruct (PkPac.encrypt_data d) as [w'|] eqn:E; [|done].
    cbn [mbind res_bind]. intros H. injection H as <-.
    by apply encrypt_data_length.
  - cbn [mbind res_bind]. by intros H; injection H as <-.
Qed.

(** The layout of the archive that the packer builds from a directory that
    holds regular files only, given as the sequence of their names and
    contents: the header count is the number of buffers; the first entry's
    offset is 0x3FE + count * (32 + 8); the entry with index [k] has the
    name and the size of the buffer with index [k] and the offset of the
    first entry plus the sizes of the buffers before it; the output is the
    4-byte count, zeros up to 0x3FE, the index records (name slot, size and
    offset) and the payloads, in the order of the entries; when the names
    are distinct, the payload with index [k] has the size of the buffer with
    index [k]. *)
Lemma writer_layout (buffers : list (list ascii * list Z)) (out : list Z) :
  PkPac.pack (as_directory buffers) = Ok out ->
  let input_dir := as_directory buffers in
  let entries := PkPac.collect_files input_dir in
  let count := len entries in
  count = len buffers
  /\ (forall e, entries !! 0%nat = Some e ->
        PkPac.offset e = 0x3FE + count * (PkPac.name_length + 8))
  /\ (forall k e, entries !! k = Some e ->
        exists n d, buffers !! k = Some (n, d)
          /\ PkPac.name e = n /\ PkPac.size e = len d
          /\ PkPac.offset e
             = 0x3FE + count * (PkPac.name_length + 8)
               + sizes_before k buffers)
  /\ exists index payloads,
       map_res index_record entries = Ok index
       /\ map_res (payload_written input_dir) entries = Ok payloads
       /\ out = bytes32 count ++ replicate (Z.to_nat (0x3FE - 4)) 0
                  ++ concat index ++ concat payloads
       /\ (forall k e r, entries !! k = Some e -> index !! k = Some r ->
             r = ljust (map ord (PkPac.name e)) (Z.to_nat PkPac.name_length)
                 ++ bytes32 (PkPac.size e) ++ bytes32 (PkPac.offset e))
       /\ (NoDup (map fst buffers) ->
           forall k n d p, buffers !! k = Some (n, d) ->
             payloads !! k = Some p -> length p = length d).
Proof.
  intros Hpack input_dir entries count.
  assert (entries = layout (0x3FE + len buffers * (0x20 + 8)) buffers)
    as Hent by apply collect_files_layout.
  assert (count = len buffers) as Hcount
    by (unfold count, len; by rewrite Hent, layout_length).
  assert (forall k e, entries !! k = Some e ->
            exists n d, buffers !! k = Some (n, d)
              /\ PkPac.name e = n /\ PkPac.size e = len d
              /\ PkPac.offset e
                 = 0x3FE + count * (PkPac.name_length + 8)
                   + sizes_before k buffers) as Hk.
  { intros k e He. rewrite Hent in He. rewrite Hcount.
    by apply layout_lookup in He. }
  split; [done|]. split; [|split; [done|]].
  - intros e He. destruct (Hk _ _ He) as (n & d & _ & _ & _ & ->).
    unfold sizes_before. simpl. lia.
  - unfold PkPac.pack in Hpack. fold input_dir entries in Hpack.
    rewrite write_archive_parts in Hpack. fold count in Hpack.
    unfold pack_u32 in Hpack.
    destruct ((0 <=? count) && (count <? 2 ^ 32)); [|discriminate].
    cbn [mbind res_bind] in Hpack. fold (bytes32 count) in Hpack.
    destruct (map_res index_record entries) as [index|] eqn:Hi;
      [|discriminate].
    cbn [mbind res_bind] in Hpack.
    destruct (map_res (payload_written input_dir) entries)
      as [payloads|] eqn:Hp; [|discriminate].
    cbn [mbind res_bind] in Hpack. injection Hpack as <-.
    exists index, payloads. repeat split; try done.
    + intros k e r He Hr.
      destruct (map_res_lookup _ _ _ _ _ Hi He) as (r' & Hr' & Hrec).
      rewrite Hr in Hr'. injection Hr' as <-.
      by apply index_record_bytes.
    + intros Hnd k n d p Hb Hpk.
      assert (is_Some (entries !! k)) as [e He].
      { apply lookup_lt_is_Some. rewrite Hent, layout_length.
        by apply lookup_lt_Some in Hb. }
      destruct (Hk _ _ He) as (n' & d' & Hb' & Hn & _).
      rewrite Hb in Hb'. injection Hb' as <- <-.
      destruct (map_res_lookup _ _ _ _ _ Hp He) as (p' & Hp' & Hw).
      rewrite Hpk in Hp'. injection Hp' as <-.
      apply (payload_written_length input_dir e); [|done].
      rewrite Hn. by apply (read_file_lookup buffers k).
Qed.

(** The two buffers of the concrete scenario: the first entry is placed at
    0x3FE + 80 = 0x44E. *)
Example writer_layout_sample :
  (exists out, PkPac.pack (as_directory sample_buffers) = Ok out)
  /\ forall e,
       PkPac.collect_files (as_directory sample_buffers) !! 0%nat = Some e ->
       PkPac.offset e = 0x44E.
Proof.
  destruct (PkPac.pack (as_directory sample_buffers)) as [out|] eqn:E;
    [|vm_compute in E; discriminate E].
  split; [by exists out|].
  destruct (writer_layout sample_buffers out E) as (_ & Hfirst & _).
  exact Hfirst.
Qed.

(** When both openers return [None], [extract_archive] returns without
    asking the file system for anything. *)
Lemma extract_archive_none {fs : Type} os (makedirs : fs -> res fs)
    (write_file : fs -> list ascii -> list Z -> res fs) file (out : fs) :
  ExPac.PacOpener_try_open os file = Ok None ->
  ExPac.Pac2Opener_try_open os file = Ok None ->
  ExPac.extract_archive os makedirs write_file file out = Ok None.
Proof.
  intros H1 H2. unfold ExPac.extract_archive.
  by rewrite (probe_none os file H1 H2).
Qed.

(** C6. The first entry's stored offset is meant to be
    0x3FE + count * (32 + 8) for the count written in the header, and it is
    for a directory of regular files ([writer_layout]). [collect_files]
    computes it from the number of names in the directory, before it skips
    what is not a regular file, while [write_archive] writes the number of
    entries: for a directory that holds the subdirectory "sub" and the file
    "a" the header count is 1 and the stored first offset is 0x3FE + 2 * 40,
    the record is followed at once by the payload, and the extractor does
    not recognise the archive. *)
Theorem writer_first_offset_counts_directories :
  let input_dir := [(str "sub", PkPac.Dir); (str "a", PkPac.File [1])] in
  exists out,
    PkPac.pack input_dir = Ok out
    /\ length (PkPac.collect_files input_dir) = 1%nat
    /\ unpack_u32 (read_at out 0 4) = Ok 1
    /\ unpack_u32 (read_at out (0x3FE + 0x20 + 4) 4) = Ok (0x3FE + 2 * (0x20 + 8))
    /\ 0x3FE + 2 * (0x20 + 8) <> 0x3FE + 1 * (0x20 + 8)
    /\ read_at out (0x3FE + 1 * (0x20 + 8)) 1 = [1]
    /\ (forall (fs : Type) (makedirs : fs -> res fs)
               (write_file : fs -> list ascii -> list Z -> res fs) (fs0 : fs),
          ExPac.extract_archive Posix makedirs write_file out fs0 = Ok None).
Proof.
  intros input_dir.
  destruct (PkPac.pack input_dir) as [out|] eqn:E;
    [|vm_compute in E; discriminate E].
  exists out. split; [reflexivity|].
  vm_compute in E. injection E as <-.
  split; [reflexivity|]. split; [reflexivity|]. split; [reflexivity|].
  split; [discriminate|]. split; [vm_compute; reflexivity|].
  intros fs makedirs write_file fs0.
  apply extract_archive_none; vm_compute; reflexivity.
Qed.

(** *** Index records *)

Lemma index_record_fits (entry : PkPac.Entry) :
  forallb (fun c => ord c <? 128) (PkPac.name entry) = true ->
  0 <= PkPac.size entry < 2 ^ 32 -> 0 <= PkPac.offset entry < 2 ^ 32 ->
  index_record entry
  = Ok (ljust (map ord (PkPac.name entry)) (Z.to_nat PkPac.name_length)
        ++ bytes32 (PkPac.size entry) ++ bytes32 (PkPac.offset entry)).
Proof.
  intros Ha Hs Ho.
  unfold index_record, PkPac.write_index_iter, encode_ascii, pack_u32_u32.
  rewrite Ha. cbn [mbind res_bind].
  rewrite (pack_u32_ok _ Hs), (pack_u32_ok _ Ho). reflexivity.
Qed.

Lemma ljust_length bs width :
  (length bs <= width)%nat -> length (ljust bs width) = width.
Proof.
  intros H. unfold ljust. rewrite length_app, length_replicate. lia.
Qed.

(** C4, as the code has it. Index encode has no [NameTooLong] failure. For
    entries whose names are ASCII and at most 32 bytes long and whose sizes
    and offsets are unsigned 32-bit values it succeeds, and the record of
    every entry is its name, zeros up to 32 bytes, and the size and the
    offset as little-endian 32-bit values: 40 bytes. *)
Theorem index_encode_fits (entries : list PkPac.Entry) (f : list Z) :
  Forall (fun e =>
            forallb (fun c => ord c <? 128) (PkPac.name e) = true
            /\ (length (PkPac.name e) <= 32)%nat
            /\ 0 <= PkPac.size e < 2 ^ 32
            /\ 0 <= PkPac.offset e < 2 ^ 32) entries ->
  exists records,
    for_each PkPac.write_index_iter entries f = Ok (f ++ concat records)
    /\ length records = length entries
    /\ forall k e r,
         entries !! k = Some e -> records !! k = Some r ->
         r = map ord (PkPac.name e)
             ++ replicate (32 - length (PkPac.name e)) 0
             ++ bytes32 (PkPac.size e) ++ bytes32 (PkPac.offset e)
         /\ length r = (32 + 8)%nat.
Proof.
  intros Hall.
  assert (is_ok (map_res index_record entries)) as [records Hrec].
  { apply map_res_ok. eapply Forall_impl; [exact Hall|].
    intros e (Ha & _ & Hs & Ho). eexists. by apply index_record_fits. }
  exists records.
  rewrite (for_each_append _ _ write_index_iter_append), Hrec.
  split; [done|]. split; [by apply map_res_length in Hrec|].
  intros k e r He Hr.
  destruct (map_res_lookup _ _ _ _ _ Hrec He) as (r' & Hr' & Hir).
  rewrite Hr in Hr'. injection Hr' as <-.
  apply index_record_bytes in Hir. subst r.
  rewrite Forall_lookup in Hall. destruct (Hall _ _ He) as (_ & Hl & _ & _).
  unfold ljust. rewrite <- app_assoc, length_map.
  change (Z.to_nat PkPac.name_length) with 32%nat.
  split; [done|].
  rewrite !length_app, length_map, length_replicate. simpl. lia.
Qed.

Lemma index_encode_fits_witness :
  let entries :=
    [{| PkPac.name := str "A.TXT"; PkPac.size := 20; PkPac.offset := 0x44E |};
     {| PkPac.name := str "B.WAV"; PkPac.size := 3; PkPac.offset := 0x462 |}]
  in
  exists records,
    for_each PkPac.write_index_iter entries [] = Ok ([] ++ concat records)
    /\ length records = 2%nat.
Proof.
  intros entries.
  destruct (index_encode_fits entries []) as (records & Hw & Hl & _).
  - repeat constructor; vm_compute; congruence.
  - by exists records.
Defined.

(** A name of 36 bytes is neither refused nor cut: its record is written
    with 44 bytes. *)
Lemma index_encode_long_name_written :
  let entry :=
    {| PkPac.name := str "a_name_that_is_longer_than_32_bytes!";
       PkPac.size := 3; PkPac.offset := 0x426 |} in
  (32 < length (PkPac.name entry))%nat
  /\ exists record,
       PkPac.write_index_iter [] entry = Ok record
       /\ length record = 44%nat
       /\ is_ok (PkPac.pack
                   [(PkPac.name entry, PkPac.File [1; 2; 3])]).
Proof.
  intros entry. split; [vm_compute; lia|].
  eexists. split; [reflexivity|]. split; [reflexivity|].
  eexists. vm_compute. reflexivity.
Qed.

(** ** Round trip: names and index records *)

Lemma chr_ord c : chr (ord c) = c.
Proof. unfold chr, ord. by rewrite N2Z.id, ascii_N_embedding. Qed.

Lemma rstrip_replicate c k : rstrip c (replicate k c) = [].
Proof.
  induction k as [|k IH]; [done|]. simpl. rewrite IH.
  by destruct (decide (c = c)).
Qed.

Lemma rstrip_app_replicate c n k :
  rstrip c (n ++ replicate k c) = rstrip c n.
Proof.
  induction n as [|x n IH]; [apply rstrip_replicate|].
  simpl. by rewrite IH.
Qed.

Lemma decode_ascii_ljust n width :
  forallb (fun c => ord c <? 128) n = true ->
  decode_ascii (ljust (map ord n) width)
  = Ok (n ++ replicate (width - length n) "000"%char).
Proof.
  intros Ha. unfold decode_ascii, ljust.
  assert (forallb (fun b => (0 <=? b) && (b <? 128))
            (map ord n ++ replicate (width - length (map ord n)) 0) = true)
    as ->.
  { rewrite forallb_app. apply andb_true_intro. split.
    - rewrite forallb_forall in Ha. apply forallb_forall.
      intros b Hb. apply in_map_iff in Hb as (c & <- & Hc).
      specialize (Ha c Hc). cbv beta in Ha. rewrite Ha, andb_true_r.
      apply Z.leb_le. unfold ord. apply N2Z.is_nonneg.
    - apply forallb_forall. intros b Hb.
      apply list_elem_of_In, elem_of_replicate in Hb as [-> _]. done. }
  rewrite map_app, map_map, length_map. f_equal. f_equal.
  - rewrite <- (map_id n) at 2. apply map_ext. intros c. apply chr_ord.
  - apply (fmap_replicate chr).
Qed.

Lemma unpack_u32_u32_bytes32 a b :
  0 <= a < 2 ^ 32 -> 0 <= b < 2 ^ 32 ->
  unpack_u32_u32 (bytes32 a ++ bytes32 b) = Ok (a, b).
Proof.
  intros Ha Hb. unfold unpack_u32_u32.
  destruct (decide _) as [_|Hn]; [|done].
  change (take 4 (bytes32 a ++ bytes32 b)) with (bytes32 a).
  change (drop 4 (bytes32 a ++ bytes32 b)) with (bytes32 b).
  by rewrite (unpack_u32_bytes32 _ Ha), (unpack_u32_bytes32 _ Hb).
Qed.

Lemma read_at_middle (a b c : list Z) pos n :
  pos = len a -> n = len b -> read_at (a ++ b ++ c) pos n = b.
Proof. intros -> ->. apply read_at_app. Qed.

Lemma record_bytes_length e :
  (length (PkPac.name e) <= 32)%nat -> len (record_bytes e) = 40.
Proof.
  intros H. unfold record_bytes, len.
  rewrite !length_app, ljust_length by (by rewrite length_map).
  reflexivity.
Qed.

(** One iteration of [read_index] on a record written by the packer. *)
Lemma read_index_iter_record os pre e post acc x :
  entry_ok e ->
  ExPac.read_index_iter os (pre ++ record_bytes e ++ post) 0x20
    (acc, len pre) x
  = Ok (acc ++ [reader_entry os e], len pre + 0x20 + 8).
Proof.
  intros ((Ha & Hl & Hr) & Hs & Ho). unfold ExPac.read_index_iter.
  assert (len (ljust (map ord (PkPac.name e)) 32) = 32) as Hslot
    by (unfold len; by rewrite ljust_length by (by rewrite length_map)).
  unfold record_bytes. change (Z.to_nat PkPac.name_length) with 32%nat.
  rewrite <- !app_assoc.
  rewrite (read_at_middle pre _ _ (len pre) 32) by done.
  rewrite (decode_ascii_ljust _ _ Ha). cbn [mbind res_bind].
  rewrite rstrip_app_replicate, Hr.
  replace (pre ++ ljust (map ord (PkPac.name e)) 32
             ++ bytes32 (PkPac.size e) ++ bytes32 (PkPac.offset e) ++ post)
    with ((pre ++ ljust (map ord (PkPac.name e)) 32)
            ++ (bytes32 (PkPac.size e) ++ bytes32 (PkPac.offset e)) ++ post)
    by (by rewrite <- !app_assoc).
  rewrite (read_at_middle (pre ++ _) (bytes32 _ ++ bytes32 _) post)
    by (rewrite ?len_app, ?Hslot; done).
  rewrite unpack_u32_u32_bytes32 by done.
  reflexivity.
Qed.

(** [read_index] on a table written by the packer gives the entries back. *)
Lemma read_index_loop_records os entries : forall pre post acc xs,
  Forall entry_ok entries -> length xs = length entries ->
  for_each
    (ExPac.read_index_iter os
       (pre ++ concat (map record_bytes entries) ++ post) 0x20)
    xs (acc, len pre)
  = Ok (acc ++ map (reader_entry os) entries, len pre + 40 * len entries).
Proof.
  induction entries as [|e entries IH]; intros pre post acc xs Hok Hlen.
  - destruct xs; [|done]. simpl. rewrite app_nil_r. do 2 f_equal.
    unfold len. simpl. lia.
  - destruct xs as [|x xs]; [done|].
    apply Forall_cons in Hok as [He Hok].
    cbn [map concat for_each]. rewrite <- !app_assoc.
    rewrite (read_index_iter_record os pre e _ acc x He).
    cbn [mbind res_bind].
    assert (len (pre ++ record_bytes e) = len pre + 32 + 8) as Hpre.
    { rewrite len_app, record_bytes_length; [lia|]. by destruct He as ((_ & ? & _) & _). }
    rewrite <- Hpre.
    rewrite (app_assoc pre (record_bytes e)).
    rewrite (IH (pre ++ record_bytes e) post (acc ++ [reader_entry os e]) xs)
      by (done || (simpl in Hlen; lia)).
    rewrite <- app_assoc. do 2 f_equal. rewrite Hpre.
    unfold len. simpl length. lia.
Qed.

(** ** Round trip: payloads *)

Lemma split_not_nil c s : split c s <> [].
Proof.
  destruct s as [|x s]; [done|]. simpl.
  destruct (decide (x = c)); [done|]. by destruct (split c s).
Qed.

(** The extension test of the packer never raises. *)
Lemma cipher_extension_ok n : exists b, PkPac.cipher_extension n = Ok b.
Proof.
  unfold PkPac.cipher_extension.
  destruct (last (split "." n)) as [ext|] eqn:E; [by eexists|].
  apply last_None in E. by apply split_not_nil in E.
Qed.


Lemma dollar_head d : dollar d = true <-> d !! 0%nat = Some 0x24.
Proof.
  destruct d as [|b d]; simpl; [split; discriminate|].
  split; [intros H; f_equal; lia | intros H; injection H as ->; done].
Qed.

Lemma dollar_false_head d :
  dollar d = false -> 16 < len d -> exists b, d !! 0%nat = Some b /\ b <> 0x24.
Proof.
  destruct d as [|b d]; [unfold len; simpl; lia|].
  simpl. intros H _. exists b. split; [done|lia].
Qed.

(** Decoding what the encode loop made of a word-aligned payload. *)
Lemma decrypt_encrypted d :
  bytes_ok d -> 20 <= len d -> (len d - 16) mod 4 = 0 ->
  ExPac.decrypt_data (take 16 d ++ words_map word_enc 0 (drop 16 d)) = Ok d.
Proof.
  intros Hok H20 Hal.
  assert (16 <= length d)%nat as H16 by (unfold len in H20; lia).
  destruct (transformed_shape word_enc d word_enc_length H16)
    as (Hl & Ht & Hd).
  rewrite decrypt_data_aligned.
  - rewrite Ht, Hd, words_map_dec_enc by (by apply Forall_drop).
    by rewrite take_drop.
  - by apply transformed_bytes_ok; [apply word_enc_bytes_ok|].
  - unfold len in *. by rewrite Hl.
  - unfold len in *. by rewrite Hl.
Qed.

(** What the packer stores for a buffer is decoded to the buffer, when the
    two sides agree about the cipher. *)
Lemma payload_roundtrip os input_dir n d off :
  PkPac.read_file input_dir n = Ok d -> bytes_ok d -> cipher_agrees os n d ->
  exists w,
    payload_written input_dir
      {| PkPac.name := n; PkPac.size := len d; PkPac.offset := off |} = Ok w
    /\ length w = length d /\ decodes_to os n d w.
Proof.
  intros Hread Hok Hagree.
  unfold payload_written, PkPac.write_data_iter. cbn [PkPac.name].
  rewrite Hread. cbn [mbind res_bind].
  destruct (cipher_extension_ok n) as [b Hb]. rewrite Hb.
  cbn [mbind res_bind].
  destruct (Z_le_dec (len d) 16) as [Hsmall|Hbig].
  { destruct (16 <? len d) eqn:E; [lia|]. rewrite andb_false_r.
    exists d. split; [done|]. split; [done|].
    intros file off' Hrd. rewrite open_entry_small by done.
    cbn [reader_entry ExPac.set_offset ExPac.set_size ExPac.new_Entry
         ExPac.offset ExPac.size PkPac.name PkPac.size PkPac.offset].
    by rewrite Hrd. }
  destruct (16 <? len d) eqn:E; [|lia]. rewrite andb_true_r.
  destruct (dollar d) eqn:Hdollar.
  2:{ destruct (dollar_false_head d Hdollar ltac:(lia)) as (b0 & H0 & Hne).
      exists d. split; [|split; [done|]].
      - destruct b; [|done]. by rewrite (encrypt_data_not_dollar d b0).
      - intros file off' Hrd.
        rewrite (open_entry_not_dollar _ _ b0); cbn; rewrite ?Hrd; done. }
  apply dollar_head in Hdollar.
  destruct (Z_lt_dec (len d) 20) as [Hlt|Hge].
  { exists d. split; [|split; [done|]].
    - destruct b; [|done]. by rewrite encrypt_data_short.
    - intros file off' Hrd.
      destruct (ExPac.determine_type os n) eqn:Hty.
      1,2: rewrite open_entry_media;
        cbn [reader_entry ExPac.set_offset ExPac.set_size ExPac.new_Entry
             ExPac.type ExPac.offset ExPac.size PkPac.name PkPac.size
             PkPac.offset]; rewrite ?Hrd, ?Hty; done.
      rewrite open_entry_apply;
        cbn [reader_entry ExPac.set_offset ExPac.set_size ExPac.new_Entry
             ExPac.type ExPac.offset ExPac.size PkPac.name PkPac.size
             PkPac.offset]; rewrite ?Hrd; try done; try lia.
      by apply decrypt_data_short. }
  destruct Hagree as [?|[Hd|[[Hext Hty]|(Hext & Hty & Hal)]]]; [lia| |..].
  { apply dollar_head in Hdollar. congruence. }
  { rewrite Hb in Hext. injection Hext as ->.
    exists d. split; [done|]. split; [done|].
    intros file off' Hrd. rewrite open_entry_media by done.
    cbn. by rewrite Hrd. }
  rewrite Hb in Hext. injection Hext as ->.
  exists (take 16 d ++ words_map word_enc 0 (drop 16 d)).
  split; [by rewrite encrypt_data_aligned by (done || lia)|].
  assert (16 <= length d)%nat as H16 by (unfold len in Hbig; lia).
  split; [by apply (transformed_shape word_enc d word_enc_length H16)|].
  intros file off' Hrd. rewrite open_entry_apply; cbn; rewrite ?Hrd;
    try done; try lia.
  - apply decrypt_encrypted; done || lia.
  - by apply transformed_head.
Qed.

Lemma map_res_map {A B} (f : A -> res B) (g : A -> B) xs :
  Forall (fun x => f x = Ok (g x)) xs -> map_res f xs = Ok (map g xs).
Proof.
  induction 1 as [|x xs Hx _ IH]; [done|].
  cbn [map_res map]. by rewrite Hx, IH.
Qed.

Lemma index_records_written entries :
  Forall entry_ok entries ->
  map_res index_record entries = Ok (map record_bytes entries).
Proof.
  intros H. apply map_res_map. eapply Forall_impl; [exact H|].
  intros e ((Ha & _ & _) & Hs & Ho). by apply index_record_fits.
Qed.

Lemma index_table_length entries :
  Forall entry_ok entries ->
  len (concat (map record_bytes entries)) = 40 * len entries.
Proof.
  induction 1 as [|e entries He _ IH]; [done|].
  cbn [map concat]. rewrite len_app, IH, record_bytes_length.
  - unfold len. simpl length. lia.
  - by destruct He as ((_ & ? & _) & _).
Qed.

Lemma total_size_nonneg buffers : 0 <= total_size buffers.
Proof.
  unfold total_size. induction buffers as [|[n d] rest IH]; simpl; [lia|].
  pose proof (len_nonneg d). lia.
Qed.

Lemma total_size_cons n d rest :
  total_size ((n, d) :: rest) = len d + total_size rest.
Proof. reflexivity. Qed.

(** The entries of a layout fit the index when the names do and the
    payloads end below 2^32. *)
Lemma layout_entry_ok buffers : forall off,
  Forall (fun nb => name_ok (fst nb)) buffers ->
  0 <= off -> off + total_size buffers < 2 ^ 32 ->
  Forall entry_ok (layout off buffers).
Proof.
  induction buffers as [|[n d] rest IH]; intros off Hn H0 Hmax;
    [constructor|].
  apply Forall_cons in Hn as [Hn Hrest].
  rewrite total_size_cons in Hmax.
  pose proof (len_nonneg d). pose proof (total_size_nonneg rest).
  cbn [layout]. constructor.
  - split; [exact Hn|]. simpl. lia.
  - apply IH; [done|lia|lia].
Qed.

(** What the packer stores for the buffers of a layout. *)
Lemma payloads_written os buffers :
  NoDup (map fst buffers) ->
  Forall (fun nb => bytes_ok (snd nb) /\ cipher_agrees os (fst nb) (snd nb))
    buffers ->
  forall part off,
    Forall (fun nb => nb ∈ buffers) part ->
    exists ws,
      map_res (payload_written (as_directory buffers)) (layout off part)
      = Ok ws
      /\ Forall2 (fun nb w => length w = length (snd nb)
                              /\ decodes_to os (fst nb) (snd nb) w) part ws.
Proof.
  intros Hnd Hall part. induction part as [|[n d] part IH]; intros off Hin.
  - exists []. split; [done|constructor].
  - apply Forall_cons in Hin as [Hnb Hin].
    destruct (IH (off + len d) Hin) as (ws & Hws & Hrel).
    rewrite Forall_forall in Hall. destruct (Hall _ Hnb) as [Hok Hagree].
    apply list_elem_of_lookup_1 in Hnb as [k Hk].
    pose proof (read_file_lookup buffers k n d Hnd Hk) as Hread.
    destruct (payload_roundtrip os _ n d off Hread Hok Hagree)
      as (w & Hw & Hlen & Hdec).
    exists (w :: ws). cbn [layout map_res]. rewrite Hw, Hws.
    split; [done|]. by constructor.
Qed.

(** ** Round trip: the whole archive *)

Lemma read_at_head (b c : list Z) n :
  n = len b -> read_at (b ++ c) 0 n = b.
Proof. intros ->. apply (read_at_app [] b c). Qed.

Lemma header_length count :
  len (bytes32 count ++ replicate (Z.to_nat (0x3FE - 4)) 0) = 0x3FE.
Proof. reflexivity. Qed.

(** The probe accepts the classic-wide layout of an archive whose first
    record stores the end of the index table. *)
Lemma written_archive_accepted count e entries post :
  0 < count < 100000 -> entry_ok e ->
  PkPac.offset e = 0x3FE + count * (0x20 + 8) ->
  accepted
    (bytes32 count ++ replicate (Z.to_nat (0x3FE - 4)) 0
       ++ concat (map record_bytes (e :: entries)) ++ post)
    0 0x3FE 0x20 count.
Proof.
  intros Hc ((Ha & Hl & Hr) & Hs & Ho) Hoff.
  split; [|split].
  - rewrite read_at_head by done.
    apply unpack_u32_bytes32. lia.
  - by apply is_sane_count_spec.
  - cbn [map concat]. unfold record_bytes at 1.
    change (Z.to_nat PkPac.name_length) with 32%nat.
    set (slot := ljust (map ord (PkPac.name e)) 32).
    assert (len slot = 32) as Hslot
      by (unfold len, slot; by rewrite ljust_length by (by rewrite length_map)).
    set (rest := concat (map record_bytes entries)).
    set (pad := replicate (Z.to_nat (0x3FE - 4)) 0).
    replace (bytes32 count ++ pad
               ++ ((slot ++ bytes32 (PkPac.size e) ++ bytes32 (PkPac.offset e))
                     ++ rest) ++ post)
      with ((bytes32 count ++ pad ++ slot ++ bytes32 (PkPac.size e))
              ++ bytes32 (PkPac.offset e) ++ rest ++ post)
      by (by rewrite <- !app_assoc).
    rewrite read_at_middle.
    + rewrite unpack_u32_bytes32 by done. by rewrite Hoff.
    + rewrite !len_app, Hslot. reflexivity.
    + reflexivity.
Qed.

Lemma layout_head off buffers :
  buffers <> [] ->
  exists e es, layout off buffers = e :: es /\ PkPac.offset e = off.
Proof.
  destruct buffers as [|[n d] rest]; [done|]. intros _.
  by eexists _, _.
Qed.

(** * Further properties *)

(** ** The cipher leaves the length and the first 16 bytes alone *)

Lemma for_each_invariant_in {S X} (P : S -> Prop) (body : S -> X -> res S)
    (xs : list X) :
  (forall st x st', x ∈ xs -> P st -> body st x = Ok st' -> P st') ->
  forall st st', P st -> for_each body xs st = Ok st' -> P st'.
Proof.
  induction xs as [|x xs IH]; intros Hbody st st' HP H.
  - simpl in H. by injection H as <-.
  - cbn [for_each] in H. destruct (body st x) as [st1|] eqn:E; [|done].
    cbn [mbind res_bind] in H. eapply IH; [| |exact H].
    + intros st0 y st0' Hy. apply Hbody. by right.
    + eapply Hbody; [by left|exact HP|exact E].
Qed.

Lemma range_from_ge start step n i :
  i ∈ range_from start step n -> (start <= i)%nat.
Proof.
  revert start. induction n as [|n IH]; intros start Hi; [by inversion Hi|].
  cbn [range_from] in Hi. apply elem_of_cons in Hi as [->|Hi]; [lia|].
  apply IH in Hi. lia.
Qed.

Lemma range_ge start stop step i :
  i ∈ range start stop step -> (start <= i)%nat.
Proof. apply range_from_ge. Qed.

Lemma setitem_take arr i v arr' :
  setitem arr i v = Ok arr' -> take i arr' = take i arr.
Proof.
  unfold setitem. destruct (negb _); [done|].
  destruct (decide _); [|done]. intros H. injection H as <-.
  by rewrite take_insert_ge.
Qed.

Lemma pack_into_take arr i v arr' :
  pack_into arr i v = Ok arr' -> take i arr' = take i arr.
Proof.
  unfold pack_into, pack_u32. destruct (_ && _); [|done].
  cbn [mbind res_bind]. destruct (decide _) as [Hi|]; [|done].
  intros H. injection H as <-.
  rewrite take_app_le by (rewrite length_take; lia).
  rewrite take_take. f_equal. lia.
Qed.

Lemma take_le_agree {A} (x y : list A) i j :
  (j <= i)%nat -> take i x = take i y -> take j x = take j y.
Proof.
  intros Hji H.
  replace j with (j `min` i)%nat by lia.
  by rewrite <- !take_take, H.
Qed.

Lemma decrypt_iter_length st i st' :
  ExPac.decrypt_iter st i = Ok st' -> length (fst st') = length (fst st).
Proof.
  destruct st as [arr shift]. unfold ExPac.decrypt_iter.
  destruct (getitem _ _) as [b|]; [|done]. cbn [mbind res_bind].
  destruct (setitem _ _ _) as [arr1|] eqn:E1; [|done].
  cbn [mbind res_bind].
  destruct (unpack_u32 _) as [v|]; [|done]. cbn [mbind res_bind].
  destruct (pack_into _ _ _) as [arr2|] eqn:E2; [|done].
  cbn [mbind res_bind]. intros H. injection H as <-. simpl.
  apply setitem_length in E1. apply pack_into_length in E2. congruence.
Qed.

Lemma decrypt_iter_take st i st' :
  ExPac.decrypt_iter st i = Ok st' -> take i (fst st') = take i (fst st).
Proof.
  destruct st as [arr shift]. unfold ExPac.decrypt_iter.
  destruct (getitem _ _) as [b|]; [|done]. cbn [mbind res_bind].
  destruct (setitem _ _ _) as [arr1|] eqn:E1; [|done].
  cbn [mbind res_bind].
  destruct (unpack_u32 _) as [v|]; [|done]. cbn [mbind res_bind].
  destruct (pack_into _ _ _) as [arr2|] eqn:E2; [|done].
  cbn [mbind res_bind]. intros H. injection H as <-. simpl.
  apply setitem_take in E1. apply pack_into_take in E2. congruence.
Qed.

Lemma encrypt_iter_take st i st' :
  PkPac.encrypt_iter st i = Ok st' -> take i (fst st') = take i (fst st).
Proof.
  destruct st as [arr shift]. unfold PkPac.encrypt_iter.
  destruct (unpack_u32 _) as [v|]; [|done]. cbn [mbind res_bind].
  destruct (pack_into _ _ _) as [arr1|] eqn:E1; [|done].
  cbn [mbind res_bind].
  destruct (getitem _ _) as [b|]; [|done]. cbn [mbind res_bind].
  destruct (setitem _ _ _) as [arr2|] eqn:E2; [|done].
  cbn [mbind res_bind]. intros H. injection H as <-. simpl.
  apply setitem_take in E2. apply pack_into_take in E1. congruence.
Qed.

(** A loop over [range(16, ...)] whose body keeps the length and the bytes
    before its position keeps the length and the first 16 bytes. *)
Lemma loop_keeps_head (iter : list Z * Z -> nat -> res (list Z * Z))
    data stop st' :
  (forall st i st1, iter st i = Ok st1 ->
     length (fst st1) = length (fst st) /\ take i (fst st1) = take i (fst st)) ->
  for_each iter (range 16 stop 4) (data, 4) = Ok st' ->
  length (fst st') = length data /\ take 16 (fst st') = take 16 data.
Proof.
  intros Hiter H.
  apply (for_each_invariant_in
           (fun st => length (fst st) = length data
                      /\ take 16 (fst st) = take 16 data)) in H; [done| |done].
  intros st i st1 Hi [Hl Ht] Hst. apply range_ge in Hi.
  destruct (Hiter _ _ _ Hst) as [Hl1 Ht1]. split; [congruence|].
  rewrite <- Ht. by apply (take_le_agree _ _ i).
Qed.

Lemma decrypt_data_keeps_head data out :
  ExPac.decrypt_data data = Ok out ->
  length out = length data /\ take 16 out = take 16 data.
Proof.
  unfold ExPac.decrypt_data. destruct (0 <? _);
    [|by intros H; injection H as <-].
  destruct (for_each _ _ _) as [st|] eqn:E; [|done].
  cbn [mbind res_bind]. intros H. injection H as <-.
  apply (loop_keeps_head ExPac.decrypt_iter data (length data) st); [|done].
  intros st0 i st1 Hst. split;
    [by apply (decrypt_iter_length _ i) | by apply decrypt_iter_take].
Qed.

Lemma encrypt_data_keeps_head data out :
  PkPac.encrypt_data data = Ok out ->
  length out = length data /\ take 16 out = take 16 data.
Proof.
  unfold PkPac.encrypt_data. destruct (getitem data 0) as [b0|]; [|done].
  cbn [mbind res_bind]. destruct (negb _); [by intros H; injection H as <-|].
  destruct (0 <? _); [|by intros H; injection H as <-].
  destruct (for_each _ _ _) as [st|] eqn:E; [|done].
  cbn [mbind res_bind]. intros H. injection H as <-.
  apply (loop_keeps_head PkPac.encrypt_iter data (length data) st); [|done].
  intros st0 i st1 Hst. split;
    [by apply (encrypt_iter_length _ i) | by apply encrypt_iter_take].
Qed.

(** X1. Whatever [open_entry] returns has the length of the data read from
    the file, which is at most [entry.size], and the same first 16 bytes:
    the decode touches nothing before position 16 and never changes the
    length. *)
Theorem open_entry_keeps_length_and_head (file : list Z)
    (entry : ExPac.Entry) (out : list Z) :
  0 <= ExPac.offset entry -> 0 <= ExPac.size entry ->
  ExPac.open_entry file entry = Ok out ->
  let data := read_at file (ExPac.offset entry) (ExPac.size entry) in
  length out = length data
  /\ len out <= ExPac.size entry
  /\ take 16 out = take 16 data.
Proof.
  intros Ho Hs H data.
  assert (length out = length data /\ take 16 out = take 16 data) as [Hl Ht].
  { unfold ExPac.open_entry in H. fold data in H.
    destruct (_ || _); [by injection H as <-|].
    destruct (getitem data 0) as [b0|]; [|done]. cbn [mbind res_bind] in H.
    destruct (negb _); [by injection H as <-|].
    by apply decrypt_data_keeps_head. }
  split; [done|]. split; [|done].
  pose proof (read_at_length_le file _ _ Ho Hs) as Hle. fold data in Hle.
  unfold len in *. rewrite Hl. lia.
Qed.

Lemma open_entry_keeps_length_and_head_witness :
  let entry := ExPac.set_size (ExPac.new_Entry Posix (str "a.dat")) 24 in
  exists out,
    ExPac.open_entry (0x24 :: replicate 23 7) entry = Ok out
    /\ length out = 24%nat
    /\ take 16 out = 0x24 :: replicate 15 7.
Proof.
  intros entry.
  destruct (ExPac.open_entry (0x24 :: replicate 23 7) entry) as [out|] eqn:E;
    [|vm_compute in E; discriminate E].
  exists out. split; [reflexivity|].
  destruct (open_entry_keeps_length_and_head (0x24 :: replicate 23 7) entry out)
    as (Hl & _ & Ht); [vm_compute; discriminate | vm_compute; discriminate
                      | exact E |].
  split; [exact Hl | exact Ht].
Defined.

(** ** The cipher, byte by byte *)

Lemma lxor_mod_pow2 a b n :
  0 <= n -> (Z.lxor a b) mod 2 ^ n = Z.lxor (a mod 2 ^ n) (b mod 2 ^ n).
Proof.
  intros Hn. rewrite <- !Z.land_ones by done.
  apply Z.bits_inj'. intros k Hk.
  rewrite !Z.lxor_spec, !Z.land_spec, !Z.lxor_spec.
  by destruct (Z.testbit a k), (Z.testbit b k), (Z.testbit (Z.ones n) k).
Qed.

Lemma lxor_div_pow2 a b n :
  0 <= n -> (Z.lxor a b) / 2 ^ n = Z.lxor (a / 2 ^ n) (b / 2 ^ n).
Proof.
  intros Hn. rewrite <- !Z.shiftr_div_pow2 by done. apply Z.shiftr_lxor.
Qed.

Lemma key_bytes :
  map key_byte [0; 1; 2; 3] = [0x9D; 0x85; 0xD5; 0xF7].
Proof. reflexivity. Qed.

(** The bytes of a word XORed with the key are the bytes of the word, each
    XORed with its byte of the key. *)
Lemma bytes32_lxor_KEY b0 b1 b2 b3 :
  is_byte b0 -> is_byte b1 -> is_byte b2 -> is_byte b3 ->
  bytes32 (Z.lxor (le32 b0 b1 b2 b3) KEY)
  = [Z.lxor b0 (key_byte 0); Z.lxor b1 (key_byte 1);
     Z.lxor b2 (key_byte 2); Z.lxor b3 (key_byte 3)].
Proof.
  intros H0 H1 H2 H3.
  pose proof (bytes32_le32 b0 b1 b2 b3 H0 H1 H2 H3) as B.
  assert (forall v k, 0 <= k ->
            (Z.lxor v KEY / 2 ^ k) mod 256
            = Z.lxor ((v / 2 ^ k) mod 256) ((KEY / 2 ^ k) mod 256)) as Hk.
  { intros v k Hk. rewrite lxor_div_pow2 by done.
    apply (lxor_mod_pow2 _ _ 8). lia. }
  unfold bytes32 in *. injection B as B0 B1 B2 B3.
  rewrite !Hk by lia. rewrite (lxor_mod_pow2 _ _ 8) by lia.
  change (2 ^ 8) with 256 at 1 2.
  rewrite B0, B1, B2, B3. reflexivity.
Qed.

Lemma word_dec_bytes s b0 b1 b2 b3 :
  0 <= s <= 7 -> is_byte b0 -> is_byte b1 -> is_byte b2 -> is_byte b3 ->
  word_dec s b0 b1 b2 b3
  = [dec_byte s 0 b0; dec_byte s 1 b1; dec_byte s 2 b2; dec_byte s 3 b3].
Proof.
  intros Hs H0 H1 H2 H3.
  pose proof (bytes32_lxor_KEY (rotl8 b0 s) b1 b2 b3
                (rotl8_byte _ _ H0 Hs) H1 H2 H3) as B.
  exact B.
Qed.

Lemma word_enc_bytes s b0 b1 b2 b3 :
  0 <= s <= 7 -> is_byte b0 -> is_byte b1 -> is_byte b2 -> is_byte b3 ->
  word_enc s b0 b1 b2 b3
  = [enc_byte s 0 b0; enc_byte s 1 b1; enc_byte s 2 b2; enc_byte s 3 b3].
Proof.
  intros Hs H0 H1 H2 H3.
  pose proof (bytes32_lxor_KEY b0 b1 b2 b3 H0 H1 H2 H3) as B.
  unfold bytes32, le32 in B. injection B as B0 B1 B2 B3.
  unfold word_enc. cbv zeta. rewrite B0, B1, B2, B3. reflexivity.
Qed.

(** The byte with index [r] of the word with index [q] of a transformed
    region. *)
Lemma words_map_lookup f g n : forall ws k q r b,
  (forall s b0 b1 b2 b3,
     0 <= s <= 7 -> is_byte b0 -> is_byte b1 -> is_byte b2 -> is_byte b3 ->
     f s b0 b1 b2 b3 = [g s 0%nat b0; g s 1%nat b1; g s 2%nat b2; g s 3%nat b3]) ->
  length ws = (4 * n)%nat -> bytes_ok ws -> (r < 4)%nat ->
  ws !! (4 * q + r)%nat = Some b ->
  words_map f k ws !! (4 * q + r)%nat = Some (g (shift_at (k + q)) r b).
Proof.
  induction n as [|n IH]; intros ws k q r b Hf Hlen Hok Hr Hb.
  - destruct ws; [done|simpl in Hlen; lia].
  - destruct ws as [|b0 [|b1 [|b2 [|b3 ws]]]]; try (simpl in Hlen; lia).
    four_bytes Hok H0 H1 H2 H3.
    cbn [words_map]. rewrite (Hf _ _ _ _ _ (shift_at_range k) H0 H1 H2 H3).
    destruct q as [|q].
    + rewrite Nat.add_0_r. simpl in Hb |- *.
      destruct r as [|[|[|[|r]]]]; try lia; simpl in Hb |- *;
        by injection Hb as ->.
    + change (b0 :: b1 :: b2 :: b3 :: ws) with ([b0; b1; b2; b3] ++ ws) in Hb.
      rewrite lookup_app_r in Hb by (simpl; lia).
      rewrite lookup_app_r by (simpl; lia).
      cbn [length] in Hb |- *.
      replace (4 * S q + r - 4)%nat with (4 * q + r)%nat in Hb |- * by lia.
      rewrite (IH ws (S k) q r b Hf) by (done || (simpl in Hlen; lia)).
      do 3 f_equal. lia.
Qed.

(** X2. The decode of a payload of bytes with 16 + 4n bytes, n > 0: the
    first 16 bytes stay; in the word with index [q] the first byte is rotated
    left by [shift_at q] and XORed with 0x9D, and the next three bytes are
    XORed with 0x85, 0xD5 and 0xF7. *)
Theorem decrypt_data_bytewise (data : list Z) :
  bytes_ok data -> 20 <= len data -> (len data - 16) mod 4 = 0 ->
  exists out,
    ExPac.decrypt_data data = Ok out
    /\ length out = length data
    /\ (forall i b, (i < 16)%nat -> data !! i = Some b -> out !! i = Some b)
    /\ (forall q r b, (r < 4)%nat ->
          data !! (16 + (4 * q + r))%nat = Some b ->
          out !! (16 + (4 * q + r))%nat = Some (dec_byte (shift_at q) r b))
    /\ map key_byte [0; 1; 2; 3] = [0x9D; 0x85; 0xD5; 0xF7].
Proof.
  intros Hok H20 Hal.
  destruct (aligned_length data H20 Hal) as (n & Hn & Hlen).
  assert (16 <= length data)%nat as H16 by lia.
  destruct (transformed_shape word_dec data word_dec_length H16)
    as (Hl & Ht & Hd).
  exists (take 16 data ++ words_map word_dec 0 (drop 16 data)).
  split; [by apply decrypt_data_aligned|]. split; [done|].
  assert (length (take 16 data) = 16%nat) as Hlt
    by (rewrite length_take; lia).
  split; [|split; [|reflexivity]].
  - intros i b Hi Hb. rewrite lookup_app_l by lia.
    by rewrite lookup_take_lt.
  - intros q r b Hr Hb.
    rewrite lookup_app_r by lia. rewrite Hlt.
    replace (16 + (4 * q + r) - 16)%nat with (4 * q + r)%nat by lia.
    rewrite (words_map_lookup word_dec dec_byte n _ 0 q r b word_dec_bytes);
      try done.
    + rewrite length_drop. lia.
    + by apply Forall_drop.
    + by rewrite lookup_drop.
Qed.

Lemma decrypt_data_bytewise_witness :
  ExPac.decrypt_data (0x24 :: replicate 23 7)
  = Ok (0x24 :: replicate 15 7
          ++ [Z.lxor (rotl8 7 4) 0x9D; Z.lxor 7 0x85; Z.lxor 7 0xD5;
              Z.lxor 7 0xF7;
              Z.lxor (rotl8 7 5) 0x9D; Z.lxor 7 0x85; Z.lxor 7 0xD5;
              Z.lxor 7 0xF7]).
Proof.
  destruct (decrypt_data_bytewise (0x24 :: replicate 23 7))
    as (out & Hout & _).
  - apply bytes_ok_check. reflexivity.
  - vm_compute. discriminate.
  - reflexivity.
  - rewrite Hout. vm_compute in Hout. injection Hout as <-. reflexivity.
Defined.

(** X3. The encode of a payload of bytes that starts with 0x24 and has
    16 + 4n bytes, n > 0: the first 16 bytes stay; in the word with index
    [q] the first byte is XORed with 0x9D and then rotated right by
    [shift_at q], and the next three bytes are XORed with 0x85, 0xD5 and
    0xF7. *)
Theorem encrypt_data_bytewise (data : list Z) :
  bytes_ok data -> data !! 0%nat = Some 0x24 ->
  20 <= len data -> (len data - 16) mod 4 = 0 ->
  exists out,
    PkPac.encrypt_data data = Ok out
    /\ length out = length data
    /\ (forall i b, (i < 16)%nat -> data !! i = Some b -> out !! i = Some b)
    /\ (forall q r b, (r < 4)%nat ->
          data !! (16 + (4 * q + r))%nat = Some b ->
          out !! (16 + (4 * q + r))%nat = Some (enc_byte (shift_at q) r b)).
Proof.
  intros Hok H0 H20 Hal.
  destruct (aligned_length data H20 Hal) as (n & Hn & Hlen).
  assert (16 <= length data)%nat as H16 by lia.
  destruct (transformed_shape word_enc data word_enc_length H16)
    as (Hl & Ht & Hd).
  exists (take 16 data ++ words_map word_enc 0 (drop 16 data)).
  split; [by apply encrypt_data_aligned|]. split; [done|].
  assert (length (take 16 data) = 16%nat) as Hlt
    by (rewrite length_take; lia).
  split.
  - intros i b Hi Hb. rewrite lookup_app_l by lia.
    by rewrite lookup_take_lt.
  - intros q r b Hr Hb.
    rewrite lookup_app_r by lia. rewrite Hlt.
    replace (16 + (4 * q + r) - 16)%nat with (4 * q + r)%nat by lia.
    rewrite (words_map_lookup word_enc enc_byte n _ 0 q r b word_enc_bytes);
      try done.
    + rewrite length_drop. lia.
    + by apply Forall_drop.
    + by rewrite lookup_drop.
Qed.

Lemma encrypt_data_bytewise_witness :
  PkPac.encrypt_data (0x24 :: replicate 23 7)
  = Ok (0x24 :: replicate 15 7
          ++ [rotr8 (Z.lxor 7 0x9D) 4; Z.lxor 7 0x85; Z.lxor 7 0xD5;
              Z.lxor 7 0xF7;
              rotr8 (Z.lxor 7 0x9D) 5; Z.lxor 7 0x85; Z.lxor 7 0xD5;
              Z.lxor 7 0xF7]).
Proof.
  destruct (encrypt_data_bytewise (0x24 :: replicate 23 7))
    as (out & Hout & _).
  - apply bytes_ok_check. reflexivity.
  - reflexivity.
  - vm_compute. discriminate.
  - reflexivity.
  - rewrite Hout. vm_compute in Hout. injection Hout as <-. reflexivity.
Defined.

(** ** The shift of a word *)

(** C8. In both directions the word with index [q], at byte position
    16 + 4q, is transformed with the shift (4 + q) mod 8: decoding a payload
    of 16 bytes and whole words rotates the first byte of that word left by
    it before the XOR with 0x9D, and encoding rotates it right by it after
    the XOR. So the shift starts at 4 at position 16, goes up by one from
    word to word and wraps to 0 after 7; the words 0..9 use
    4,5,6,7,0,1,2,3,4,5; the schedule has period 8, stays within 0..7 and
    depends on the position of the word alone. *)
Theorem shift_schedule (data : list Z) (q : nat) (b : Z) :
  bytes_ok data -> 20 <= len data -> (len data - 16) mod 4 = 0 ->
  data !! (16 + 4 * q)%nat = Some b ->
  let s := (4 + Z.of_nat q) mod 8 in
  (exists out,
     ExPac.decrypt_data data = Ok out
     /\ out !! (16 + 4 * q)%nat = Some (Z.lxor (rotl8 b s) 0x9D))
  /\ (data !! 0%nat = Some 0x24 ->
      exists out,
        PkPac.encrypt_data data = Ok out
        /\ out !! (16 + 4 * q)%nat = Some (rotr8 (Z.lxor b 0x9D) s))
  /\ 0 <= s <= 7
  /\ (4 + Z.of_nat (S q)) mod 8 = (if 7 <? s + 1 then 0 else s + 1)
  /\ (4 + Z.of_nat (q + 8)) mod 8 = s
  /\ map (fun k => (4 + Z.of_nat k) mod 8) (seq 0 10)
     = [4; 5; 6; 7; 0; 1; 2; 3; 4; 5].
Proof.
  intros Hok H20 Hal Hb s.
  destruct (aligned_length data H20 Hal) as (n & Hn & Hlen).
  assert (length (take 16 data) = 16%nat) as Hlt
    by (rewrite length_take; lia).
  assert (s = shift_at (0 + q)) as Hs
    by (unfold s; rewrite shift_at_mod; f_equal; lia).
  assert (forall f g,
            (forall s b0 b1 b2 b3,
               0 <= s <= 7 ->
               is_byte b0 -> is_byte b1 -> is_byte b2 -> is_byte b3 ->
               f s b0 b1 b2 b3
               = [g s 0%nat b0; g s 1%nat b1; g s 2%nat b2; g s 3%nat b3]) ->
            (take 16 data ++ words_map f 0 (drop 16 data)) !! (16 + 4 * q)%nat
            = Some (g s 0%nat b)) as Hword.
  { intros f g Hfg. rewrite lookup_app_r by lia. rewrite Hlt, Hs.
    replace (16 + 4 * q - 16)%nat with (4 * q + 0)%nat by lia.
    apply (words_map_lookup f g n); [done| |by apply Forall_drop|lia|].
    - rewrite length_drop. lia.
    - rewrite lookup_drop. by replace (16 + (4 * q + 0))%nat
        with (16 + 4 * q)%nat by lia. }
  assert (0 <= s <= 7) as Hrange
    by (unfold s; pose proof (Z.mod_pos_bound (4 + Z.of_nat q) 8); lia).
  split; [|split; [|split; [done|split; [|split; [|reflexivity]]]]].
  - eexists. split; [by apply decrypt_data_aligned|].
    by rewrite (Hword word_dec dec_byte word_dec_bytes).
  - intros H0. eexists. split; [by apply encrypt_data_aligned|].
    by rewrite (Hword word_enc enc_byte word_enc_bytes).
  - replace (4 + Z.of_nat (S q)) with (Z.of_nat (S q) + 4) by lia.
    rewrite <- shift_at_mod. cbn [shift_at]. unfold next_shift.
    rewrite shift_at_mod. unfold s. by rewrite (Z.add_comm 4).
  - unfold s. replace (4 + Z.of_nat (q + 8)) with (4 + Z.of_nat q + 1 * 8)
      by lia. by rewrite Z.mod_add.
Qed.

Lemma shift_schedule_witness :
  exists out,
    ExPac.decrypt_data (0x24 :: replicate 15 7 ++ replicate 40 1) = Ok out
    /\ map (fun q => out !! (16 + 4 * q)%nat) (seq 0 10)
       = map (fun s => Some (Z.lxor (rotl8 1 s) 0x9D))
           [4; 5; 6; 7; 0; 1; 2; 3; 4; 5]
    /\ out !! (16 + 4 * 4)%nat = Some (Z.lxor (rotl8 1 0) 0x9D).
Proof.
  destruct (shift_schedule (0x24 :: replicate 15 7 ++ replicate 40 1) 4 1)
    as ((out & Hout & Hq) & _);
    [apply bytes_ok_check; reflexivity | vm_compute; discriminate
    | reflexivity | reflexivity |].
  exists out. split; [exact Hout|]. split; [|exact Hq].
  vm_compute in Hout. injection Hout as <-. reflexivity.
Defined.

(** ** What the extractor does with one entry *)

Lemma lookup_0_None {A} (l : list A) : l !! 0%nat = None -> l = [].
Proof. by destruct l. Qed.

Lemma kind_unknown_dec (k : ExPac.kind) :
  {k = ExPac.Unknown} + {k <> ExPac.Unknown}.
Proof. destruct k; (by left) || (by right). Qed.

(** X4. For an entry whose offset and size are not negative, [open_entry]
    returns the bytes read from the file as they are when the entry is an
    image or audio, when its size is at most 16, when the first byte read is
    not 0x24, or when fewer than 20 bytes were read. *)
Theorem open_entry_pass_through (file : list Z) (entry : ExPac.Entry) :
  0 <= ExPac.offset entry -> 0 <= ExPac.size entry ->
  let data := read_at file (ExPac.offset entry) (ExPac.size entry) in
  ExPac.type entry <> ExPac.Unknown
  \/ ExPac.size entry <= 16
  \/ (exists b, data !! 0%nat = Some b /\ b <> 0x24)
  \/ (data <> [] /\ len data < 20) ->
  ExPac.open_entry file entry = Ok data.
Proof.
  intros _ _ data [Hm|[Hs|[(b & Hb & Hne)|[Hne Hlt]]]].
  - by apply open_entry_media.
  - by apply open_entry_small.
  - by apply (open_entry_not_dollar _ _ b).
  - destruct (kind_unknown_dec (ExPac.type entry)) as [Ht|Ht];
      [|by apply open_entry_media].
    destruct (Z_le_dec (ExPac.size entry) 16) as [Hs|Hs];
      [by apply open_entry_small|].
    destruct (data !! 0%nat) as [b0|] eqn:H0;
      [|by apply lookup_0_None in H0].
    destruct (Z.eq_dec b0 0x24) as [->|Hb].
    + rewrite open_entry_apply by (done || lia).
      by apply decrypt_data_short.
    + by apply (open_entry_not_dollar _ _ b0).
Qed.

Lemma open_entry_pass_through_witness :
  let file := [0x24; 1; 2; 3; 4; 5; 6; 7; 8; 9; 10; 11; 12; 13; 14; 15; 16;
               17; 18; 19; 20; 21; 22; 23] in
  ExPac.open_entry file
    (ExPac.set_size (ExPac.new_Entry Posix (str "voice.ogg")) 24) = Ok file
  /\ ExPac.open_entry file
       (ExPac.set_size (ExPac.new_Entry Posix (str "a.dat")) 18)
     = Ok (take 18 file).
Proof.
  intros file. split.
  - apply (open_entry_pass_through file
             (ExPac.set_size (ExPac.new_Entry Posix (str "voice.ogg")) 24));
      [simpl; lia | simpl; lia |].
    left. discriminate.
  - apply (open_entry_pass_through file
             (ExPac.set_size (ExPac.new_Entry Posix (str "a.dat")) 18));
      [simpl; lia | simpl; lia |].
    do 3 right. split; [discriminate|vm_compute; reflexivity].
Defined.

(** The three outcomes of [open_entry] on a file of bytes. *)
Lemma open_entry_cases (file : list Z) (entry : ExPac.Entry) :
  bytes_ok file ->
  let data := read_at file (ExPac.offset entry) (ExPac.size entry) in
  let applies := ExPac.type entry = ExPac.Unknown /\ 16 < ExPac.size entry in
  let empty := applies /\ data = [] in
  let unaligned :=
    applies /\ data !! 0%nat = Some 0x24 /\ 20 <= len data
    /\ (len data - 16) mod 4 <> 0 in
  (ExPac.open_entry file entry = Raise IndexError /\ empty /\ ~ unaligned)
  \/ (ExPac.open_entry file entry = Raise StructError /\ unaligned
      /\ ~ empty)
  \/ (is_ok (ExPac.open_entry file entry) /\ ~ empty /\ ~ unaligned).
Proof.
  intros Hfile data applies empty unaligned.
  assert (bytes_ok data) as Hok by (by apply Forall_take, Forall_drop).
  unfold empty, unaligned, applies.
  destruct (kind_unknown_dec (ExPac.type entry)) as [Ht|Ht].
  2:{ right; right. rewrite open_entry_media by done.
      split; [by eexists|]. split; intros [[? _] _]; done. }
  destruct (Z_le_dec (ExPac.size entry) 16) as [Hs|Hs].
  { right; right. rewrite open_entry_small by done.
    split; [by eexists|]. split; intros [[_ ?] _]; lia. }
  destruct (data !! 0%nat) as [b0|] eqn:H0.
  2:{ left. split.
      - unfold ExPac.open_entry, getitem.
        change (read_at file (ExPac.offset entry) (ExPac.size entry))
          with data.
        rewrite H0, Ht.
        destruct (ExPac.size entry <=? 16) eqn:E; [lia|]. reflexivity.
      - pose proof (lookup_0_None _ H0) as Hnil.
        split; [split; [split; [done|lia]|done]|].
        intros (_ & H1 & _). discriminate H1. }
  assert (data <> []) as Hne by (intros E; by rewrite E in H0).
  destruct (Z.eq_dec b0 0x24) as [->|Hb].
  2:{ right; right. rewrite (open_entry_not_dollar _ _ b0) by done.
      split; [by eexists|]. split; [by intros [_ ?]|].
      intros (_ & H1 & _). congruence. }
  rewrite open_entry_apply by (done || lia).
  change (read_at file (ExPac.offset entry) (ExPac.size entry)) with data.
  destruct (Z_lt_dec (len data) 20) as [Hlt|Hge].
  { right; right. rewrite decrypt_data_short by done.
    split; [by eexists|]. split; [by intros [_ ?]|].
    intros (_ & _ & ? & _). lia. }
  destruct (Z.eq_dec ((len data - 16) mod 4) 0) as [Hal|Hal].
  { right; right. rewrite decrypt_data_aligned by (done || lia).
    split; [by eexists|]. split; [by intros [_ ?]|].
    by intros (_ & _ & _ & ?). }
  right; left. rewrite decrypt_data_unaligned by (done || lia).
  split; [done|]. split.
  - split; [split; [done|lia]|]. split; [done|]. split; [lia|done].
  - by intros [_ ?].
Qed.

(** X5. The outcomes of [open_entry] on a file of bytes, for an entry whose
    offset and size are not negative. It raises
    [IndexError] exactly when the entry is of unknown kind with a size above
    16 and nothing could be read (the offset is at or behind the end of the
    file); it raises [struct.error] exactly when the entry is of unknown
    kind with a size above 16 and the data read starts with 0x24, has at
    least 20 bytes and a length minus 16 that is not a multiple of 4; in
    every other case it returns. *)
Theorem open_entry_outcomes (file : list Z) (entry : ExPac.Entry) :
  bytes_ok file -> 0 <= ExPac.offset entry -> 0 <= ExPac.size entry ->
  let data := read_at file (ExPac.offset entry) (ExPac.size entry) in
  let applies := ExPac.type entry = ExPac.Unknown /\ 16 < ExPac.size entry in
  let empty := applies /\ data = [] in
  let unaligned :=
    applies /\ data !! 0%nat = Some 0x24 /\ 20 <= len data
    /\ (len data - 16) mod 4 <> 0 in
  (ExPac.open_entry file entry = Raise IndexError <-> empty)
  /\ (ExPac.open_entry file entry = Raise StructError <-> unaligned)
  /\ (is_ok (ExPac.open_entry file entry) <-> ~ empty /\ ~ unaligned).
Proof.
  intros Hfile _ _ data applies empty unaligned.
  pose proof (open_entry_cases file entry Hfile) as Hcases.
  cbv zeta in Hcases. fold data applies empty unaligned in Hcases.
  destruct Hcases as [(H & He & Hu)|[(H & Hu & He)|((out & H) & He & Hu)]];
    rewrite H.
  - split; [done|]. split; [split; [discriminate|done]|].
    split; [intros [? ?]; discriminate|tauto].
  - split; [split; [discriminate|done]|]. split; [done|].
    split; [intros [? ?]; discriminate|tauto].
  - split; [split; [discriminate|done]|].
    split; [split; [discriminate|done]|].
    split; [done|]. intros _. by exists out.
Qed.

Lemma open_entry_outcomes_witness :
  ExPac.open_entry [1; 2; 3]
    (ExPac.set_offset
       (ExPac.set_size (ExPac.new_Entry Posix (str "a.dat")) 17) 3)
  = Raise IndexError.
Proof.
  apply (open_entry_outcomes [1; 2; 3]
           (ExPac.set_offset
              (ExPac.set_size (ExPac.new_Entry Posix (str "a.dat")) 17) 3)).
  - apply bytes_ok_check. reflexivity.
  - simpl. lia.
  - simpl. lia.
  - split; [split; [reflexivity|reflexivity]|reflexivity].
Defined.

(** ** Truncated entries *)

(** C5, as the code has it. For an entry of a file of bytes whose offset
    and size are not negative, what [open_entry] returns has as many bytes
    as the file holds from [entry.offset] on, at most [entry.size]:
    exactly [entry.size] when the file holds that many, and the
    [length - offset] that are there when it holds fewer. They are the
    bytes of the file from [entry.offset] on, before position 16 and, when
    the cipher is not applied by kind or size, everywhere. Nothing checks
    for a short read and there is no [TruncatedRead]: [open_entry] returns
    unless the cipher applies (unknown kind, size above 16) and nothing at
    all could be read, or what was read starts with 0x24, has 20 bytes or
    more and does not end at a word - the same rule for a truncated entry
    as for a whole one. *)
Theorem extraction_reads_available (file : list Z) (entry : ExPac.Entry) :
  bytes_ok file -> 0 <= ExPac.offset entry -> 0 <= ExPac.size entry ->
  let available := Z.max 0 (len file - ExPac.offset entry) in
  let read := Z.min (ExPac.size entry) available in
  let applies := ExPac.type entry = ExPac.Unknown /\ 16 < ExPac.size entry in
  (forall out,
     ExPac.open_entry file entry = Ok out ->
     len out = read
     /\ (ExPac.size entry <= available -> len out = ExPac.size entry)
     /\ (available < ExPac.size entry ->
         len out = available /\ len out < ExPac.size entry)
     /\ (forall k, (k < length out)%nat -> (k < 16)%nat \/ ~ applies ->
           out !! k = file !! (Z.to_nat (ExPac.offset entry) + k)%nat))
  /\ (is_ok (ExPac.open_entry file entry)
      <-> ~ (applies
             /\ (read = 0
                 \/ (file !! Z.to_nat (ExPac.offset entry) = Some 0x24
                     /\ 20 <= read /\ (read - 16) mod 4 <> 0)))).
Proof.
  intros Hfile Ho Hs available read applies.
  set (data := read_at file (ExPac.offset entry) (ExPac.size entry)).
  assert (len data = read) as Hl by apply (read_at_length_le file _ _ Ho Hs).
  assert (forall k, (k < length data)%nat ->
            data !! k = file !! (Z.to_nat (ExPac.offset entry) + k)%nat)
    as Hdata.
  { intros k Hk. unfold data, read_at in *.
    rewrite lookup_take_lt by (rewrite length_take in Hk; lia).
    by rewrite lookup_drop. }
  split.
  - intros out H.
    assert (length out = length data /\ take 16 out = take 16 data
            /\ (~ applies -> out = data)) as (Hlo & Ht & Hskip).
    { unfold ExPac.open_entry in H. fold data in H.
      destruct (_ || _) eqn:Hgate.
      - injection H as <-. done.
      - assert (applies) as Happ.
        { apply orb_false_iff in Hgate as [Hk Hsz]. split; [|lia].
          by destruct (ExPac.type entry). }
        destruct (getitem data 0) as [b0|]; [|done].
        cbn [mbind res_bind] in H.
        destruct (negb _); [by injection H as <-|].
        apply decrypt_data_keeps_head in H as [? ?]. done. }
    assert (len out = read) as Hlen by (unfold len in *; lia).
    split; [done|]. split; [lia|]. split; [lia|].
    intros k Hk [Hk16|Hna].
    + rewrite <- Hdata by lia.
      rewrite <- (lookup_take_lt out 16 k), <- (lookup_take_lt data 16 k)
        by done.
      by rewrite Ht.
    + rewrite (Hskip Hna). apply Hdata. by rewrite <- (Hskip Hna).
  - pose proof (open_entry_cases file entry Hfile) as Hcases.
    cbv zeta in Hcases. fold data applies in Hcases. rewrite Hl in Hcases.
    assert (applies -> data !! 0%nat = file !! Z.to_nat (ExPac.offset entry))
      as H0.
    { intros [_ Hsz]. unfold data, read_at.
      rewrite lookup_take_lt by lia. rewrite lookup_drop. f_equal. lia. }
    assert (data = [] <-> read = 0) as Hnil.
    { rewrite <- Hl. unfold len. destruct data; simpl; split; (done || lia). }
    destruct Hcases as [(H & He & Hu)|[(H & Hu & He)|((out & H) & He & Hu)]];
      rewrite H.
    + split; [intros [? ?]; discriminate|]. intros Hn. exfalso. apply Hn.
      destruct He as [Happ He]. split; [done|]. left. by apply Hnil.
    + split; [intros [? ?]; discriminate|]. intros Hn. exfalso. apply Hn.
      destruct Hu as (Happ & Hd & H20 & Hal). split; [done|]. right.
      by rewrite <- (H0 Happ).
    + split; [|intros _; by exists out]. intros _ [Happ [Hz|(Hd & H20 & Hal)]].
      * apply He. split; [done|]. by apply Hnil.
      * apply Hu. split; [done|]. by rewrite (H0 Happ).
Qed.

Lemma extraction_reads_available_witness :
  let file := [1; 2; 3; 4; 5; 6; 7; 8; 9; 10] in
  let entry :=
    ExPac.set_offset (ExPac.set_size (ExPac.new_Entry Posix (str "b.wav")) 20)
      5 in
  exists out,
    ExPac.open_entry file entry = Ok out /\ len out = 5
    /\ out !! 0%nat = Some 6.
Proof.
  intros file entry.
  destruct (extraction_reads_available file entry) as [Hout Hok];
    [apply bytes_ok_check; reflexivity | simpl; lia | simpl; lia |].
  destruct (proj2 Hok) as [out H].
  { intros [[Hty _] _]. discriminate Hty. }
  exists out. destruct (Hout out H) as (_ & _ & Hshort & Hbytes).
  assert (len out = 5) as Hl by (apply Hshort; vm_compute; reflexivity).
  split; [exact H|]. split; [exact Hl|].
  rewrite (Hbytes 0%nat); [reflexivity| |left; lia].
  unfold len in Hl. lia.
Defined.

(** A file of 10 bytes and an entry that declares 20 bytes at offset 5:
    extraction returns the 5 bytes that are there. *)
Lemma extraction_truncated_returns_short :
  let file := [1; 2; 3; 4; 5; 6; 7; 8; 9; 10] in
  let entry :=
    ExPac.set_offset (ExPac.set_size (ExPac.new_Entry Posix (str "b.wav")) 20)
      5 in
  len file - ExPac.offset entry < ExPac.size entry
  /\ ExPac.open_entry file entry = Ok [6; 7; 8; 9; 10]
  /\ len [6; 7; 8; 9; 10] < ExPac.size entry.
Proof. repeat split. Qed.

(** ** What the packer stores for one file *)

(** X6. The payload that [write_archive] appends for an entry has the length
    of the file and the same first 16 bytes, whatever the extension. *)
Theorem write_data_keeps_length_and_head (input_dir : PkPac.directory)
    (f : list Z) (entry : PkPac.Entry) (d f' : list Z) :
  PkPac.read_file input_dir (PkPac.name entry) = Ok d ->
  PkPac.write_data_iter input_dir f entry = Ok f' ->
  exists w, f' = f ++ w /\ length w = length d /\ take 16 w = take 16 d.
Proof.
  intros Hread H. unfold PkPac.write_data_iter in H.
  rewrite Hread in H. cbn [mbind res_bind] in H.
  destruct (PkPac.cipher_extension _) as [b|]; [|done].
  cbn [mbind res_bind] in H. destruct (b && _).
  - destruct (PkPac.encrypt_data d) as [w|] eqn:E; [|done].
    cbn [mbind res_bind] in H. injection H as <-. exists w.
    split; [done|]. by apply encrypt_data_keeps_head.
  - cbn [mbind res_bind] in H. injection H as <-. by exists d.
Qed.

Lemma write_data_keeps_length_and_head_witness :
  exists w,
    PkPac.write_data_iter (as_directory sample_buffers) [0; 0]
      {| PkPac.name := str "A.TXT"; PkPac.size := 20; PkPac.offset := 0 |}
    = Ok ([0; 0] ++ w)
    /\ length w = 20%nat /\ take 16 w = 0x24 :: replicate 15 7.
Proof.
  destruct (PkPac.write_data_iter (as_directory sample_buffers) [0; 0]
              {| PkPac.name := str "A.TXT"; PkPac.size := 20;
                 PkPac.offset := 0 |}) as [f'|] eqn:E;
    [|vm_compute in E; discriminate E].
  destruct (write_data_keeps_length_and_head (as_directory sample_buffers)
              [0; 0]
              {| PkPac.name := str "A.TXT"; PkPac.size := 20;
                 PkPac.offset := 0 |}
              (0x24 :: replicate 19 7) f') as (w & -> & Hl & Ht);
    [reflexivity | exact E |].
  by exists w.
Defined.

(** X7. [write_archive] stores a file as it is when the text after the last
    dot of its name is in the list jpg, png, bmp, wav, mp3 (in any case),
    when it has at most 16 bytes, when it does not start with 0x24, or when
    it has fewer than 20 bytes. *)
Theorem write_data_pass_through (input_dir : PkPac.directory) (f : list Z)
    (entry : PkPac.Entry) (d : list Z) :
  PkPac.read_file input_dir (PkPac.name entry) = Ok d ->
  PkPac.cipher_extension (PkPac.name entry) = Ok false
  \/ len d <= 16 \/ dollar d = false \/ len d < 20 ->
  PkPac.write_data_iter input_dir f entry = Ok (f ++ d).
Proof.
  intros Hread Hcase. unfold PkPac.write_data_iter.
  rewrite Hread. cbn [mbind res_bind].
  destruct (cipher_extension_ok (PkPac.name entry)) as [b Hb]. rewrite Hb.
  cbn [mbind res_bind].
  destruct (16 <? len d) eqn:E16;
    [|by rewrite andb_false_r].
  rewrite andb_true_r. destruct b; [|done].
  destruct Hcase as [Hc|[Hs|[Hd|Hlt]]]; [congruence|lia| |].
  - destruct (dollar_false_head d Hd ltac:(lia)) as (b0 & H0 & Hne).
    by rewrite (encrypt_data_not_dollar d b0).
  - destruct (dollar d) eqn:Hd.
    + apply dollar_head in Hd. by rewrite encrypt_data_short.
    + destruct (dollar_false_head d Hd ltac:(lia)) as (b0 & H0 & Hne).
      by rewrite (encrypt_data_not_dollar d b0).
Qed.

Lemma write_data_pass_through_witness :
  PkPac.write_data_iter
    [(str "COVER.JPG", PkPac.File (0x24 :: replicate 23 7))] []
    {| PkPac.name := str "COVER.JPG"; PkPac.size := 24; PkPac.offset := 0 |}
  = Ok ([] ++ 0x24 :: replicate 23 7).
Proof.
  apply (write_data_pass_through
           [(str "COVER.JPG", PkPac.File (0x24 :: replicate 23 7))] []
           {| PkPac.name := str "COVER.JPG"; PkPac.size := 24;
              PkPac.offset := 0 |}).
  - reflexivity.
  - left. reflexivity.
Defined.

(** ** The two extension tests *)

Lemma split_notin c s : c ∉ s -> split c s = [s].
Proof.
  induction s as [|x s IH]; intros Hn; [done|].
  apply not_elem_of_cons in Hn as [Hx Hs]. simpl.
  destruct (decide (x = c)) as [->|_]; [done|]. by rewrite IH.
Qed.

Lemma split_length_sep c l ext :
  (2 <= length (split c (l ++ c :: ext)))%nat.
Proof.
  induction l as [|x l IH].
  - simpl. destruct (decide (c = c)); [|done].
    pose proof (split_not_nil c ext). destruct (split c ext); [done|].
    simpl. lia.
  - simpl. destruct (decide (x = c)); [simpl; lia|].
    destruct (split c (l ++ c :: ext)) as [|w ws]; simpl in *; lia.
Qed.

(** The last piece of a name split at [c] is what follows the last [c]. *)
Lemma last_split c l ext :
  c ∉ ext -> last (split c (l ++ c :: ext)) = Some ext.
Proof.
  intros Hn. induction l as [|x l IH].
  - simpl. destruct (decide (c = c)); [|done].
    rewrite (split_notin c ext Hn). reflexivity.
  - simpl. pose proof (split_length_sep c l ext) as Hl.
    destruct (decide (x = c)).
    + destruct (split c (l ++ c :: ext)) as [|w ws]; [simpl in Hl; lia|].
      exact IH.
    + destruct (split c (l ++ c :: ext)) as [|w [|w' ws]];
        try (simpl in Hl; lia). exact IH.
Qed.

(** X8. The packer's extension test looks at the text after the last dot of
    the name, lowercased, and at the whole name when it has no dot: a file
    named "png" is stored as it is, like "a.tar.PNG". *)
Theorem cipher_extension_last_dot (name : list ascii) :
  (forall stem ext,
     name = stem ++ "."%char :: ext -> "."%char ∉ ext ->
     PkPac.cipher_extension name
     = Ok (negb (bool_decide
                   (lower ext ∈ [str "jpg"; str "png"; str "bmp"; str "wav";
                                 str "mp3"]))))
  /\ ("."%char ∉ name ->
      PkPac.cipher_extension name
      = Ok (negb (bool_decide
                    (lower name ∈ [str "jpg"; str "png"; str "bmp";
                                   str "wav"; str "mp3"])))).
Proof.
  split.
  - intros stem ext -> Hn. unfold PkPac.cipher_extension.
    by rewrite (last_split _ _ _ Hn).
  - intros Hn. unfold PkPac.cipher_extension.
    by rewrite (split_notin _ _ Hn).
Qed.

Lemma cipher_extension_last_dot_witness :
  PkPac.cipher_extension (str "a.tar.PNG") = Ok false
  /\ PkPac.cipher_extension (str "png") = Ok false
  /\ PkPac.cipher_extension (str "png.dat") = Ok true.
Proof.
  destruct (cipher_extension_last_dot (str "a.tar.PNG")) as [H1 _].
  destruct (cipher_extension_last_dot (str "png")) as [_ H2].
  destruct (cipher_extension_last_dot (str "png.dat")) as [H3 _].
  split; [|split].
  - rewrite (H1 (str "a.tar") (str "PNG")); [reflexivity|reflexivity|].
    apply (bool_decide_unpack _). vm_compute. exact I.
  - rewrite H2; [reflexivity|].
    apply (bool_decide_unpack _). vm_compute. exact I.
  - rewrite (H3 (str "png") (str "dat")); [reflexivity|reflexivity|].
    apply (bool_decide_unpack _). vm_compute. exact I.
Defined.

Lemma rfind_notin c s : c ∉ s -> rfind c s = -1.
Proof. intros Hn. unfold rfind. by apply rfind_from_notin. Qed.

Lemma rfind_from_ge c s i last :
  -1 <= last -> 0 <= i -> -1 <= rfind_from c s i last.
Proof.
  revert i last. induction s as [|x s IH]; intros i last Hl Hi; [done|].
  simpl. destruct (decide (x = c)); apply IH; lia.
Qed.

Lemma rfind_ge c s : -1 <= rfind c s.
Proof. unfold rfind. apply rfind_from_ge; lia. Qed.

(** A name without a dot has no extension. *)
Lemma splitext_no_dot os name :
  "."%char ∉ name -> splitext os name = (name, []).
Proof.
  intros Hn.
  assert (forall sep altsep, splitext_generic sep altsep name = (name, []))
    as Hg.
  { intros sep altsep. unfold splitext_generic.
    rewrite (rfind_notin _ _ Hn).
    pose proof (rfind_ge sep name) as Hs.
    destruct altsep as [a|].
    - pose proof (rfind_ge a name) as Ha.
      destruct (Z.max (rfind sep name) (rfind a name) <? -1) eqn:E; [lia|].
      reflexivity.
    - destruct (rfind sep name <? -1) eqn:E; [lia|]. reflexivity. }
  destruct os; apply Hg.
Qed.

(** A name without a separator: the extension starts at the last dot when
    a character that is not a dot stands before it, and is empty when only
    dots do. *)
Lemma splitext_no_sep os stem ext :
  "."%char ∉ ext ->
  "/"%char ∉ stem ++ "."%char :: ext -> "\"%char ∉ stem ++ "."%char :: ext ->
  splitext os (stem ++ "."%char :: ext)
  = if existsb (fun c => negb (bool_decide (c = "."%char))) stem
    then (stem, "."%char :: ext)
    else (stem ++ "."%char :: ext, []).
Proof.
  intros Hn Hs Hb.
  assert (forall sep altsep,
            rfind sep (stem ++ "."%char :: ext) = -1 ->
            match altsep with
            | Some a => rfind a (stem ++ "."%char :: ext) = -1
            | None => True
            end ->
            splitext_generic sep altsep (stem ++ "."%char :: ext)
            = if existsb (fun c => negb (bool_decide (c = "."%char))) stem
              then (stem, "."%char :: ext)
              else (stem ++ "."%char :: ext, [])) as Hg.
  { intros sep altsep Hsep Halt. unfold splitext_generic.
    rewrite Hsep, (rfind_last _ _ _ Hn).
    assert (match altsep with
            | Some a => Z.max (-1) (rfind a (stem ++ "."%char :: ext))
            | None => -1
            end = -1) as ->
      by (destruct altsep; [rewrite Halt|]; reflexivity).
    pose proof (len_nonneg stem) as Hl.
    destruct (-1 <? len stem) eqn:E; [|lia]. cbn [andb].
    change (-1 + 1) with 0. rewrite Z.sub_0_r. unfold len at 1 2 3.
    rewrite Nat2Z.id. unfold slice. change (Z.to_nat 0) with 0%nat.
    rewrite drop_0, !take_app_length, drop_app_length. reflexivity. }
  destruct os; apply Hg; try done; by apply rfind_notin.
Qed.

Lemma existsb_not_dot_replicate k :
  existsb (fun c => negb (bool_decide (c = "."%char))) (replicate k "."%char)
  = false.
Proof.
  induction k as [|k IH]; [done|]. cbn [replicate existsb].
  rewrite IH. by rewrite bool_decide_eq_true_2.
Qed.

(** X9. [Entry.determine_type] on names that have no extension for
    [os.path.splitext]: a name without a dot, and a name without a separator
    whose only dots are leading ones (".pgd", "..wav"), is of unknown
    kind. *)
Theorem determine_type_no_extension (os : platform) (name : list ascii) :
  ("."%char ∉ name -> ExPac.determine_type os name = ExPac.Unknown)
  /\ (forall k rest,
        name = replicate k "."%char ++ rest ->
        "."%char ∉ rest -> "/"%char ∉ rest -> "\"%char ∉ rest ->
        ExPac.determine_type os name = ExPac.Unknown).
Proof.
  assert ("."%char ∉ name -> ExPac.determine_type os name = ExPac.Unknown)
    as Hnodot.
  { intros Hn. apply determine_type_unknown.
    rewrite (splitext_no_dot os name Hn). by repeat split. }
  split; [done|].
  intros k rest -> Hn Hs Hb. destruct k as [|k]; [apply Hnodot; exact Hn|].
  replace (replicate (S k) "."%char ++ rest)
    with (replicate k "."%char ++ "."%char :: rest)
    by (clear; induction k as [|k IH]; simpl; [done|by rewrite IH]).
  apply determine_type_unknown.
  rewrite splitext_no_sep; [|done| |].
  - rewrite existsb_not_dot_replicate. by repeat split.
  - rewrite elem_of_app, elem_of_cons. intros [H|[H|H]]; [|done|done].
    by apply elem_of_replicate in H as [? _].
  - rewrite elem_of_app, elem_of_cons. intros [H|[H|H]]; [|done|done].
    by apply elem_of_replicate in H as [? _].
Qed.

Lemma determine_type_no_extension_witness :
  ExPac.determine_type Posix (str "pgd") = ExPac.Unknown
  /\ ExPac.determine_type Nt (str "..wav") = ExPac.Unknown.
Proof.
  split.
  - apply (determine_type_no_extension Posix (str "pgd")).
    apply (bool_decide_unpack _). vm_compute. exact I.
  - apply (proj2 (determine_type_no_extension Nt (str "..wav"))
             2%nat (str "wav"));
      [reflexivity|..]; apply (bool_decide_unpack _); vm_compute; exact I.
Defined.

(** Closed goals about literal names are decided by evaluation. *)
Ltac decide_literal := apply (bool_decide_unpack _); vm_compute; exact I.

Lemma res_bool_cases (r : res bool) b :
  r = Ok (negb b) -> (r = Ok false <-> b = true) /\ (r = Ok true <-> b = false).
Proof.
  intros ->. destruct b; simpl; split; split; intros H; try done;
    by injection H.
Qed.

(** X10. The two extension tables on a name [stem.ext] without separators
    whose first character is not a dot. The packer skips the cipher for
    jpg, png, bmp, wav, mp3 and the extractor for pgd, wav, ogg (in any
    case), so both skip by the name only for wav; for pgd and ogg the packer
    applies the cipher and the extractor does not, and for jpg, png, bmp,
    mp3 the extractor applies it and the packer does not. *)
Theorem extension_tables_compared (os : platform) (c : ascii)
    (stem ext : list ascii) :
  let name := (c :: stem) ++ "."%char :: ext in
  let e := lower ext in
  c <> "."%char -> "."%char ∉ ext -> "/"%char ∉ name -> "\"%char ∉ name ->
  (PkPac.cipher_extension name = Ok false
   <-> e ∈ [str "jpg"; str "png"; str "bmp"; str "wav"; str "mp3"])
  /\ (ExPac.determine_type os name <> ExPac.Unknown
      <-> e ∈ [str "pgd"; str "wav"; str "ogg"])
  /\ (PkPac.cipher_extension name = Ok false
      /\ ExPac.determine_type os name <> ExPac.Unknown
      <-> e = str "wav")
  /\ (PkPac.cipher_extension name = Ok true
      /\ ExPac.determine_type os name <> ExPac.Unknown
      <-> e ∈ [str "pgd"; str "ogg"])
  /\ (PkPac.cipher_extension name = Ok false
      /\ ExPac.determine_type os name = ExPac.Unknown
      <-> e ∈ [str "jpg"; str "png"; str "bmp"; str "mp3"]).
Proof.
  intros name e Hc Hn Hs Hb.
  (* the packer *)
  assert (PkPac.cipher_extension name
          = Ok (negb (bool_decide
                        (e ∈ [str "jpg"; str "png"; str "bmp"; str "wav";
                              str "mp3"])))) as HW.
  { unfold PkPac.cipher_extension, name. by rewrite (last_split _ _ _ Hn). }
  apply res_bool_cases in HW as [HWf HWt].
  rewrite bool_decide_eq_true in HWf. rewrite bool_decide_eq_false in HWt.
  (* the extractor *)
  assert (lower (snd (splitext os name)) = "."%char :: e) as Hext.
  { unfold name. rewrite (splitext_no_sep os (c :: stem) ext Hn Hs Hb).
    cbn [existsb]. rewrite bool_decide_eq_false_2 by done. reflexivity. }
  assert (ExPac.determine_type os name <> ExPac.Unknown
          <-> e ∈ [str "pgd"; str "wav"; str "ogg"]) as HR.
  { rewrite determine_type_unknown, Hext, !elem_of_cons, elem_of_nil.
    split.
    - intros H. destruct (decide (e = str "pgd")) as [?|N1]; [tauto|].
      destruct (decide (e = str "wav")) as [?|N2]; [tauto|].
      destruct (decide (e = str "ogg")) as [?|N3]; [tauto|].
      exfalso. apply H. repeat split; intros E; injection E; done.
    - intros [->|[->|[->|[]]]] (N1 & N2 & N3); by (apply N1 || apply N2 || apply N3). }
  assert (ExPac.determine_type os name = ExPac.Unknown
          <-> e ∉ [str "pgd"; str "wav"; str "ogg"]) as HRu.
  { rewrite <- HR. split; [intros -> N; by apply N|].
    intros H. destruct (ExPac.determine_type os name); try done;
      exfalso; apply H; discriminate. }
  split; [exact HWf|]. split; [exact HR|].
  assert (str "pgd" <> str "jpg" /\ str "pgd" <> str "png"
          /\ str "pgd" <> str "bmp" /\ str "pgd" <> str "wav"
          /\ str "pgd" <> str "mp3" /\ str "ogg" <> str "jpg"
          /\ str "ogg" <> str "png" /\ str "ogg" <> str "bmp"
          /\ str "ogg" <> str "wav" /\ str "ogg" <> str "mp3"
          /\ str "wav" <> str "jpg" /\ str "wav" <> str "png"
          /\ str "wav" <> str "bmp" /\ str "wav" <> str "mp3")
    as (? & ? & ? & ? & ? & ? & ? & ? & ? & ? & ? & ? & ? & ?)
    by (repeat split; discriminate).
  split; [|split].
  - rewrite HWf, HR, !elem_of_cons, !elem_of_nil.
    clear HWf HWt HR HRu Hext. clearbody e.
    intuition (subst; try done; try tauto).
  - rewrite HWt, HR, !elem_of_cons, !elem_of_nil.
    clear HWf HWt HR HRu Hext. clearbody e.
    intuition (subst; try done; try tauto).
  - rewrite HWf, HRu, !elem_of_cons, !elem_of_nil.
    clear HWf HWt HR HRu Hext. clearbody e.
    intuition (subst; try done; try tauto).
Qed.

Lemma extension_tables_compared_witness :
  PkPac.cipher_extension (str "bgm01.OGG") = Ok true
  /\ ExPac.determine_type Posix (str "bgm01.OGG") <> ExPac.Unknown.
Proof.
  apply (extension_tables_compared Posix "b" (str "gm01") (str "OGG")).
  - discriminate.
  - decide_literal.
  - decide_literal.
  - decide_literal.
  - decide_literal.
Defined.

(** ** The index table, record by record *)

Lemma unpack_u32_u32_ok bs :
  length bs = 8%nat -> exists a b, unpack_u32_u32 bs = Ok (a, b).
Proof.
  intros H. unfold unpack_u32_u32. destruct (decide _) as [_|]; [|done].
  destruct (unpack_u32_length (take 4 bs)) as [a Ha];
    [rewrite length_take; lia|].
  destruct (unpack_u32_length (drop 4 bs)) as [b Hb];
    [rewrite length_drop; lia|].
  exists a, b. by rewrite Ha, Hb.
Qed.

Lemma unpack_u32_u32_length bs r :
  unpack_u32_u32 bs = Ok r -> length bs = 8%nat.
Proof. unfold unpack_u32_u32. by destruct (decide _). Qed.

(** One pass through the loop of [read_index]: it succeeds exactly on a
    readable record, appends its entry and moves to the next record. *)
Lemma read_index_iter_spec os file nl acc pos x :
  (record_readable file nl pos ->
   exists e, ExPac.read_index_iter os file nl (acc, pos) x
             = Ok (acc ++ [e], pos + nl + 8)
             /\ record_at os file nl pos e)
  /\ (forall st, ExPac.read_index_iter os file nl (acc, pos) x = Ok st ->
        record_readable file nl pos).
Proof.
  unfold ExPac.read_index_iter, record_readable, decode_ascii. split.
  - intros [Ha Hl]. rewrite Ha. cbn [mbind res_bind].
    destruct (unpack_u32_u32_ok _ Hl) as (a & b & Hab). rewrite Hab.
    cbn [mbind res_bind]. eexists. split; [reflexivity|].
    exists (map chr (read_at file pos nl)). unfold decode_ascii.
    by rewrite Ha.
  - intros st H. destruct (forallb _ _); [|done]. cbn [mbind res_bind] in H.
    destruct (unpack_u32_u32 _) as [[a b]|] eqn:E; [|done].
    split; [done|]. by apply unpack_u32_u32_length in E.
Qed.

Lemma read_index_loop_spec os file nl xs : forall acc pos,
  (Forall (fun j => record_readable file nl (pos + Z.of_nat j * (nl + 8)))
     (seq 0 (length xs)) ->
   exists new,
     for_each (ExPac.read_index_iter os file nl) xs (acc, pos)
     = Ok (acc ++ new, pos + len xs * (nl + 8))
     /\ length new = length xs
     /\ forall k e, new !! k = Some e ->
          record_at os file nl (pos + Z.of_nat k * (nl + 8)) e)
  /\ (forall st,
        for_each (ExPac.read_index_iter os file nl) xs (acc, pos) = Ok st ->
        Forall (fun j => record_readable file nl (pos + Z.of_nat j * (nl + 8)))
          (seq 0 (length xs))).
Proof.
  induction xs as [|x xs IH]; intros acc pos.
  - split.
    + intros _. exists []. rewrite app_nil_r. unfold len. simpl.
      split; [do 2 f_equal; lia|]. split; [done|]. by intros k e.
    + intros st _. constructor.
  - assert (forall (P : Z -> Prop),
              Forall (fun j => P (pos + Z.of_nat j * (nl + 8)))
                (seq 0 (length (x :: xs)))
              <-> P pos
                  /\ Forall (fun j => P (pos + nl + 8 + Z.of_nat j * (nl + 8)))
                       (seq 0 (length xs))) as Hseq.
    { intros P. cbn [length seq]. rewrite Forall_cons, <- seq_shift.
      rewrite Forall_fmap.
      replace (pos + Z.of_nat 0 * (nl + 8)) with pos by lia.
      split; intros [H0 Hr]; (split; [done|]);
        (eapply Forall_impl; [exact Hr|]); intros j Hj; simpl in *;
        [replace (pos + nl + 8 + Z.of_nat j * (nl + 8))
           with (pos + Z.of_nat (S j) * (nl + 8)) by lia
        |replace (pos + Z.of_nat (S j) * (nl + 8))
           with (pos + nl + 8 + Z.of_nat j * (nl + 8)) by lia]; done. }
    split.
    + intros Hall. apply Hseq in Hall as [H0 Hrest].
      destruct (read_index_iter_spec os file nl acc pos x) as [Hok _].
      destruct (Hok H0) as (e & He & Hrec).
      destruct (IH (acc ++ [e]) (pos + nl + 8)) as [IHok _].
      destruct (IHok Hrest) as (new & Hloop & Hlen & Hnew).
      exists (e :: new). cbn [for_each]. rewrite He. cbn [mbind res_bind].
      rewrite Hloop. split; [|split].
      * rewrite <- app_assoc. do 2 f_equal. unfold len. simpl length. lia.
      * simpl. by rewrite Hlen.
      * intros [|k] e' Hk.
        -- injection Hk as <-.
           by replace (pos + Z.of_nat 0 * (nl + 8)) with pos by lia.
        -- replace (pos + Z.of_nat (S k) * (nl + 8))
             with (pos + nl + 8 + Z.of_nat k * (nl + 8)) by lia.
           by apply Hnew.
    + intros st H. cbn [for_each] in H.
      destruct (ExPac.read_index_iter os file nl (acc, pos) x)
        as [[acc1 pos1]|] eqn:E; [|done].
      cbn [mbind res_bind] in H.
      destruct (read_index_iter_spec os file nl acc pos x) as [Hok Hnec].
      pose proof (Hnec _ E) as H0.
      destruct (Hok H0) as (e & He & _). rewrite He in E.
      injection E as <- <-.
      apply Hseq. split; [done|].
      destruct (IH (acc ++ [e]) (pos + nl + 8)) as [_ IHnec].
      by apply (IHnec st).
Qed.

(** X11. [read_index] reads records at a fixed stride, for an index offset
    and a name length that are not negative: when it returns, the list has
    [count] entries and the entry with index [k] is made of the record at
    [index_offset + k * (name_length + 8)] alone - name slot, size, offset -
    whatever the other records hold. *)
Theorem read_index_fixed_stride (os : platform) (file : list Z)
    (count index_offset name_length : Z) (entries : list ExPac.Entry) :
  0 <= index_offset -> 0 <= name_length ->
  ExPac.read_index os file count index_offset name_length = Ok entries ->
  length entries = Z.to_nat count
  /\ forall k e, entries !! k = Some e ->
       record_at os file name_length
         (index_offset + Z.of_nat k * (name_length + 8)) e.
Proof.
  intros _ _ H. split; [by apply read_index_length in H|].
  unfold ExPac.read_index in H.
  destruct (for_each _ _ _) as [st|] eqn:E; [|done].
  cbn [mbind res_bind] in H. injection H as <-.
  destruct (read_index_loop_spec os file name_length
              (seq 0 (Z.to_nat count)) [] index_offset) as [Hok Hnec].
  destruct (Hok (Hnec _ E)) as (new & Hloop & _ & Hnew).
  rewrite Hloop in E. injection E as <-. exact Hnew.
Qed.

Lemma read_index_fixed_stride_witness :
  exists e,
    record_at Posix sample_archive 0x20 (0x3FE + 1 * 40) e
    /\ ExPac.name e = str "B.WAV" /\ ExPac.size e = 3
    /\ ExPac.offset e = 0x462.
Proof.
  destruct (ExPac.read_index Posix sample_archive 2 0x3FE 0x20)
    as [entries|] eqn:E; [|vm_compute in E; discriminate E].
  destruct (read_index_fixed_stride Posix sample_archive 2 0x3FE 0x20
              entries ltac:(lia) ltac:(lia) E) as [_ Hrec].
  vm_compute in E. injection E as <-.
  eexists. split; [apply (Hrec 1%nat); reflexivity|].
  repeat split.
Defined.

Lemma read_at_full file pos n :
  0 <= pos -> 0 < n ->
  length (read_at file pos n) = Z.to_nat n <-> pos + n <= len file.
Proof.
  intros Hp Hn. pose proof (read_at_length_le file pos n Hp) as H.
  unfold len in *. split; intros; lia.
Qed.

Lemma read_index_is_ok os file count index_offset nl :
  is_ok (ExPac.read_index os file count index_offset nl)
  <-> Forall (fun j => record_readable file nl
                         (index_offset + Z.of_nat j * (nl + 8)))
        (seq 0 (Z.to_nat count)).
Proof.
  destruct (read_index_loop_spec os file nl (seq 0 (Z.to_nat count)) []
              index_offset) as [Hok Hnec].
  rewrite length_seq in Hok, Hnec. unfold ExPac.read_index. split.
  - intros [es H].
    destruct (for_each _ _ _) as [st|] eqn:E; [|done]. by apply (Hnec st).
  - intros Hall. destruct (Hok Hall) as (new & -> & _). by eexists.
Qed.

(** X12. [read_index] returns exactly when the whole table lies in the file
    and every name slot holds ASCII bytes only; otherwise it raises, and no
    shorter list is returned. *)
Theorem read_index_returns_iff (os : platform) (file : list Z)
    (count index_offset name_length : Z) :
  0 <= index_offset -> 0 <= name_length ->
  is_ok (ExPac.read_index os file count index_offset name_length)
  <-> (0 < count ->
       index_offset + count * (name_length + 8) <= len file)
      /\ (forall k : nat, Z.of_nat k < count ->
            forallb (fun b => (0 <=? b) && (b <? 128))
              (read_at file (index_offset + Z.of_nat k * (name_length + 8))
                 name_length) = true).
Proof.
  intros Hio Hnl. rewrite read_index_is_ok, Forall_forall.
  unfold record_readable.
  assert (forall j : nat,
            length (read_at file
                      (index_offset + Z.of_nat j * (name_length + 8)
                       + name_length) 8) = 8%nat
            <-> index_offset + (Z.of_nat j + 1) * (name_length + 8)
                <= len file) as Hlen.
  { intros j. change 8%nat with (Z.to_nat 8).
    rewrite read_at_full by nia. split; intros; nia. }
  split.
  - intros Hall. split.
    + intros Hc. destruct (Hall (Z.to_nat count - 1)%nat) as [_ Hl].
      { apply elem_of_seq. lia. }
      apply Hlen in Hl.
      replace (Z.of_nat (Z.to_nat count - 1) + 1) with count in Hl by lia.
      exact Hl.
    + intros k Hk. apply (Hall k). apply elem_of_seq. lia.
  - intros [Htab Hascii] j Hj. apply elem_of_seq in Hj.
    split; [apply Hascii; lia|]. apply Hlen.
    assert (0 < count) as Hc by lia. specialize (Htab Hc). nia.
Qed.

Lemma read_index_returns_iff_witness :
  is_ok (ExPac.read_index Posix sample_archive 2 0x3FE 0x20)
  /\ ~ is_ok (ExPac.read_index Posix sample_archive 3 0x3FE 0x20).
Proof.
  split.
  - apply (read_index_returns_iff Posix sample_archive 2 0x3FE 0x20);
      [lia|lia|].
    split; [intros _; vm_compute; discriminate|].
    intros [|[|k]] Hk; [reflexivity|reflexivity|lia].
  - intros H.
    apply (read_index_returns_iff Posix sample_archive 3 0x3FE 0x20) in H
      as [Htab _]; [|lia|lia].
    specialize (Htab ltac:(lia)). vm_compute in Htab. by apply Htab.
Defined.

(** *** The entries that [read_index] returns *)

Lemma rstrip_prefix c s : exists k, s = rstrip c s ++ replicate k c.
Proof.
  induction s as [|x s [k IH]]; [by exists 0%nat|].
  simpl. destruct (rstrip c s) as [|y r] eqn:E.
  - destruct (decide (x = c)) as [->|_].
    + exists (S k). simpl in *. by rewrite IH at 1.
    + exists k. simpl in *. by rewrite IH at 1.
  - exists k. simpl in *. by rewrite IH at 1.
Qed.

Lemma rstrip_last c s : last (rstrip c s) <> Some c.
Proof.
  induction s as [|x s IH]; [done|]. simpl.
  destruct (rstrip c s) as [|y r] eqn:E.
  - destruct (decide (x = c)); [done|]. simpl. congruence.
  - exact IH.
Qed.

Lemma rstrip_idemp c s : rstrip c (rstrip c s) = rstrip c s.
Proof.
  induction s as [|x s IH]; [done|]. cbn [rstrip].
  destruct (rstrip c s) as [|y r] eqn:E.
  - destruct (decide (x = c)) as [|Hx]; [done|].
    cbn [rstrip]. by destruct (decide (x = c)).
  - change (rstrip c (x :: y :: r)) with
      (match rstrip c (y :: r) with
       | [] => if decide (x = c) then [] else [x]
       | r' => x :: r'
       end).
    rewrite IH. reflexivity.
Qed.

Lemma ord_chr b : 0 <= b < 256 -> ord (chr b) = b.
Proof.
  intros Hb. unfold ord, chr. rewrite N_ascii_embedding by lia. lia.
Qed.

Lemma decode_ascii_ok bs decoded :
  decode_ascii bs = Ok decoded ->
  length decoded = length bs /\ Forall (fun c => ord c < 128) decoded.
Proof.
  unfold decode_ascii. destruct (forallb _ _) eqn:E; [|done].
  intros H. injection H as <-. split; [apply length_map|].
  rewrite forallb_forall in E. apply Forall_forall. intros c Hc.
  apply list_elem_of_In, in_map_iff in Hc as (b & <- & Hb).
  specialize (E b Hb). rewrite ord_chr; lia.
Qed.

Lemma unpack_u32_range bs v :
  bytes_ok bs -> unpack_u32 bs = Ok v -> 0 <= v < 2 ^ 32.
Proof.
  intros Hok H. destruct bs as [|b0 [|b1 [|b2 [|b3 [|]]]]]; try done.
  four_bytes Hok H0 H1 H2 H3. injection H as <-. by apply le32_range.
Qed.

Lemma read_at_bytes_ok file pos n : bytes_ok file -> bytes_ok (read_at file pos n).
Proof. intros H. by apply Forall_take, Forall_drop. Qed.

(** What [read_index] makes of a record of a file of bytes. *)
Lemma record_at_wellformed os file nl pos (e : ExPac.Entry) :
  bytes_ok file -> record_at os file nl pos e ->
  (length (ExPac.name e) <= Z.to_nat nl)%nat
  /\ Forall (fun c => ord c < 128) (ExPac.name e)
  /\ rstrip "000" (ExPac.name e) = ExPac.name e
  /\ 0 <= ExPac.size e < 2 ^ 32
  /\ 0 <= ExPac.offset e < 2 ^ 32.
Proof.
  intros Hfile (decoded & Hdec & Hname & Hun & Hty).
  apply decode_ascii_ok in Hdec as [Hlen Hascii].
  destruct (rstrip_prefix "000" decoded) as [j Hj].
  rewrite <- Hname in Hj.
  assert (0 <= ExPac.size e < 2 ^ 32 /\ 0 <= ExPac.offset e < 2 ^ 32) as Hf.
  { unfold unpack_u32_u32 in Hun. destruct (decide _); [|done].
    destruct (unpack_u32 (take 4 _)) as [a|] eqn:Ea; [|done].
    cbn [mbind res_bind] in Hun.
    destruct (unpack_u32 (drop 4 _)) as [b|] eqn:Eb; [|done].
    cbn [mbind res_bind] in Hun. injection Hun as Hs Ho.
    rewrite <- Hs, <- Ho. split.
    - apply (unpack_u32_range _ _ (Forall_take _ _ _
               (read_at_bytes_ok file _ 8 Hfile)) Ea).
    - apply (unpack_u32_range _ _ (Forall_drop _ _ _
               (read_at_bytes_ok file _ 8 Hfile)) Eb). }
  split; [|split; [|split; [|exact Hf]]].
  - assert (length decoded <= Z.to_nat nl)%nat
      by (rewrite Hlen; unfold read_at; rewrite length_take; lia).
    rewrite Hj, length_app in H. lia.
  - rewrite Hj in Hascii. by apply Forall_app in Hascii as [? _].
  - rewrite Hname. apply rstrip_idemp.
Qed.

Lemma read_index_records os file count index_offset nl entries :
  ExPac.read_index os file count index_offset nl = Ok entries ->
  forall k e, entries !! k = Some e ->
    record_at os file nl (index_offset + Z.of_nat k * (nl + 8)) e.
Proof.
  intros H. unfold ExPac.read_index in H.
  destruct (for_each _ _ _) as [st|] eqn:E; [|done].
  cbn [mbind res_bind] in H. injection H as <-.
  destruct (read_index_loop_spec os file nl
              (seq 0 (Z.to_nat count)) [] index_offset) as [Hok Hnec].
  destruct (Hok (Hnec _ E)) as (new & Hloop & _ & Hnew).
  rewrite Hloop in E. injection E as <-. exact Hnew.
Qed.

(** X13. Every entry that [read_index] returns from a file of bytes, for an
    index offset and a name length that are not negative, has an ASCII name
    of at most [name_length] characters that does not end in NUL, a size and
    an offset that are unsigned 32-bit values, and the kind of its name. *)
Theorem read_index_entries_wellformed (os : platform) (file : list Z)
    (count index_offset name_length : Z) (entries : list ExPac.Entry) :
  bytes_ok file -> 0 <= index_offset -> 0 <= name_length ->
  ExPac.read_index os file count index_offset name_length = Ok entries ->
  Forall (fun e =>
            (length (ExPac.name e) <= Z.to_nat name_length)%nat
            /\ Forall (fun c => ord c < 128) (ExPac.name e)
            /\ last (ExPac.name e) <> Some "000"%char
            /\ 0 <= ExPac.size e < 2 ^ 32
            /\ 0 <= ExPac.offset e < 2 ^ 32
            /\ ExPac.type e = ExPac.determine_type os (ExPac.name e))
    entries.
Proof.
  intros Hfile _ _ H. apply Forall_lookup. intros k e Hk.
  pose proof (read_index_records _ _ _ _ _ _ H k e Hk) as Hrec.
  destruct (record_at_wellformed _ _ _ _ _ Hfile Hrec)
    as (Hlen & Hascii & Hstrip & Hs & Ho).
  destruct Hrec as (decoded & _ & Hname & _ & Hty).
  split; [done|]. split; [done|]. split; [|done].
  rewrite Hname. apply rstrip_last.
Qed.

Lemma read_index_entries_wellformed_witness :
  exists entries,
    ExPac.read_index Posix sample_archive 2 0x3FE 0x20 = Ok entries
    /\ Forall (fun e => (length (ExPac.name e) <= 32)%nat
                        /\ last (ExPac.name e) <> Some "000"%char) entries.
Proof.
  destruct (ExPac.read_index Posix sample_archive 2 0x3FE 0x20)
    as [entries|] eqn:E; [|vm_compute in E; discriminate E].
  exists entries. split; [reflexivity|].
  eapply Forall_impl;
    [apply (read_index_entries_wellformed Posix sample_archive 2 0x3FE 0x20
              entries);
       [apply bytes_ok_check; reflexivity | lia | lia | exact E]|].
  intros e (Hl & _ & Hn & _). by split.
Defined.

(** X14. The index table round trip: what [write_archive] writes for
    entries that fit (ASCII names of at most 32 bytes that do not end in
    NUL, 32-bit sizes and offsets) is read back by [read_index] with
    32-byte names, entry for entry, whatever precedes and follows the
    table. *)
Theorem index_roundtrip (os : platform) (entries : list PkPac.Entry)
    (pre post f : list Z) :
  Forall entry_ok entries ->
  for_each PkPac.write_index_iter entries pre = Ok f ->
  ExPac.read_index os (f ++ post) (len entries) (len pre) 0x20
  = Ok (map (reader_entry os) entries).
Proof.
  intros Hok Hw.
  rewrite (for_each_append _ _ write_index_iter_append) in Hw.
  rewrite (index_records_written _ Hok) in Hw.
  cbn [mbind res_bind] in Hw. injection Hw as <-.
  unfold ExPac.read_index. rewrite <- app_assoc.
  rewrite (read_index_loop_records os entries pre post []) by
    (done || (rewrite length_seq; unfold len; lia)).
  reflexivity.
Qed.

Lemma index_roundtrip_witness :
  let entries :=
    [{| PkPac.name := str "A.TXT"; PkPac.size := 20; PkPac.offset := 0x44E |};
     {| PkPac.name := str "B.WAV"; PkPac.size := 3; PkPac.offset := 0x462 |}]
  in
  exists f,
    for_each PkPac.write_index_iter entries [9; 9; 9] = Ok f
    /\ ExPac.read_index Nt (f ++ [1; 2]) 2 3 0x20
       = Ok (map (reader_entry Nt) entries).
Proof.
  intros entries.
  destruct (for_each PkPac.write_index_iter entries [9; 9; 9]) as [f|] eqn:E;
    [|vm_compute in E; discriminate E].
  exists f. split; [reflexivity|].
  apply (index_roundtrip Nt entries [9; 9; 9] [1; 2] f); [|exact E].
  repeat constructor; vm_compute; congruence.
Defined.

(** ** Directories that hold more than regular files *)

Lemma collect_iter_files_of input_dir : forall entries off,
  foldl PkPac.collect_iter (entries, off) input_dir
  = (entries ++ layout off (files_of input_dir),
     off + total_size (files_of input_dir)).
Proof.
  induction input_dir as [|[n [d|]] rest IH]; intros entries off.
  - simpl. rewrite app_nil_r. f_equal. unfold total_size. simpl. lia.
  - cbn [foldl PkPac.collect_iter files_of]. rewrite IH. cbn [layout].
    rewrite <- app_assoc, total_size_cons. f_equal. lia.
  - cbn [foldl PkPac.collect_iter files_of]. apply IH.
Qed.

Lemma collect_files_files_of input_dir :
  PkPac.collect_files input_dir
  = layout (0x3FE + len input_dir * (0x20 + 8)) (files_of input_dir).
Proof. unfold PkPac.collect_files. by rewrite collect_iter_files_of. Qed.

Lemma files_of_as_directory buffers : files_of (as_directory buffers) = buffers.
Proof.
  induction buffers as [|[n d] rest IH]; [done|]. simpl. by rewrite IH.
Qed.

Lemma files_of_length input_dir :
  (length (files_of input_dir) <= length input_dir)%nat.
Proof. induction input_dir as [|[n [d|]] rest IH]; simpl; lia. Qed.

(** X15. [collect_files] on any directory: the entries are the names that
    refer to regular files, in listing order, each with the size of its
    file; the first offset is 0x3FE plus 40 for every name of the
    directory, regular file or not, and each next offset is the previous one
    plus the previous size. *)
Theorem collect_files_regular_files (input_dir : PkPac.directory) :
  let entries := PkPac.collect_files input_dir in
  let files := files_of input_dir in
  length entries = length files
  /\ forall k n d, files !! k = Some (n, d) ->
       entries !! k
       = Some {| PkPac.name := n; PkPac.size := len d;
                 PkPac.offset := 0x3FE + len input_dir * 40
                                 + sizes_before k files |}.
Proof.
  intros entries files. unfold entries. rewrite collect_files_files_of.
  fold files. split; [apply layout_length|].
  intros k n d Hk.
  destruct (layout (0x3FE + len input_dir * (0x20 + 8)) files !! k)
    as [e|] eqn:E.
  - destruct (layout_lookup _ _ _ _ E) as (n' & d' & Hk' & Hn & Hs & Ho).
    rewrite Hk in Hk'. injection Hk' as <- <-.
    destruct e as [en es eo]. simpl in *. by subst.
  - apply lookup_ge_None in E. rewrite layout_length in E.
    apply lookup_lt_Some in Hk. lia.
Qed.

Lemma collect_files_regular_files_witness :
  PkPac.collect_files
    [(str "sub", PkPac.Dir); (str "a", PkPac.File [1; 2]);
     (str "t", PkPac.Dir); (str "b", PkPac.File [3])] !! 1%nat
  = Some {| PkPac.name := str "b"; PkPac.size := 1;
            PkPac.offset := 0x3FE + 4 * 40 + 2 |}.
Proof.
  exact (proj2 (collect_files_regular_files
                  [(str "sub", PkPac.Dir); (str "a", PkPac.File [1; 2]);
                   (str "t", PkPac.Dir); (str "b", PkPac.File [3])])
           1%nat (str "b") [3] eq_refl).
Defined.

(** *** The shape of what [pack] writes *)

Lemma pack_u32_inv v bs :
  pack_u32 v = Ok bs -> 0 <= v < 2 ^ 32 /\ bs = bytes32 v.
Proof.
  unfold pack_u32. destruct ((0 <=? v) && (v <? 2 ^ 32)) eqn:E; [|done].
  intros H. injection H as <-. split; [lia|done].
Qed.

Lemma index_record_inv e r :
  index_record e = Ok r ->
  forallb (fun c => ord c <? 128) (PkPac.name e) = true
  /\ 0 <= PkPac.size e < 2 ^ 32 /\ 0 <= PkPac.offset e < 2 ^ 32.
Proof.
  unfold index_record, PkPac.write_index_iter, encode_ascii, pack_u32_u32.
  destruct (forallb _ _); [|discriminate]. cbn [mbind res_bind].
  destruct (pack_u32 (PkPac.size e)) as [x|] eqn:Ex; [|discriminate].
  cbn [mbind res_bind].
  destruct (pack_u32 (PkPac.offset e)) as [y|] eqn:Ey; [|discriminate].
  intros _. apply pack_u32_inv in Ex as [? _]. apply pack_u32_inv in Ey as [? _].
  done.
Qed.

Lemma pack_shape input_dir out :
  PkPac.pack input_dir = Ok out ->
  exists index payloads,
    0 <= len (files_of input_dir) < 2 ^ 32
    /\ map_res index_record (PkPac.collect_files input_dir) = Ok index
    /\ map_res (payload_written input_dir) (PkPac.collect_files input_dir)
       = Ok payloads
    /\ out = bytes32 (len (files_of input_dir))
             ++ replicate (Z.to_nat (0x3FE - 4)) 0
             ++ concat index ++ concat payloads.
Proof.
  unfold PkPac.pack. rewrite write_archive_parts.
  assert (len (PkPac.collect_files input_dir) = len (files_of input_dir))
    as -> by (rewrite collect_files_files_of; unfold len;
              by rewrite layout_length).
  destruct (pack_u32 _) as [count|] eqn:Ec; [|done]. cbn [mbind res_bind].
  apply pack_u32_inv in Ec as [Hc ->].
  destruct (map_res index_record _) as [index|]; [|done].
  cbn [mbind res_bind].
  destruct (map_res (payload_written input_dir) _) as [payloads|]; [|done].
  cbn [mbind res_bind]. intros H. injection H as <-.
  by exists index, payloads.
Qed.

Lemma written_count count rest :
  0 <= count < 2 ^ 32 ->
  unpack_u32 (read_at (bytes32 count ++ rest) 0 4) = Ok count.
Proof. intros H. rewrite read_at_head by done. by apply unpack_u32_bytes32. Qed.

(** The count field of the tagged layout lies in the padding that [pack]
    writes behind its count. *)
Lemma written_tagged_none os count post :
  ExPac.Pac2Opener_try_open os
    (bytes32 count ++ replicate (Z.to_nat (0x3FE - 4)) 0 ++ post)
  = Ok None.
Proof.
  unfold ExPac.Pac2Opener_try_open.
  change (replicate (Z.to_nat (0x3FE - 4)) 0)
    with (replicate 4 0 ++ replicate 4 0 ++ replicate 1010 0).
  replace (bytes32 count
           ++ (replicate 4 0 ++ replicate 4 0 ++ replicate 1010 0) ++ post)
    with ((bytes32 count ++ replicate 4 0)
          ++ replicate 4 0 ++ (replicate 1010 0 ++ post))
    by (by rewrite <- !app_assoc).
  by rewrite (read_at_middle (bytes32 count ++ replicate 4 0)
               (replicate 4 0) (replicate 1010 0 ++ post) 8 4).
Qed.

Lemma written_classic_unsane os count post :
  0 <= count < 2 ^ 32 -> ExPac.is_sane_count count = false ->
  ExPac.PacOpener_try_open os (bytes32 count ++ post) = Ok None.
Proof.
  intros Hc Hs. unfold ExPac.PacOpener_try_open.
  rewrite written_count by done. cbn [mbind res_bind]. by rewrite Hs.
Qed.

(** Both classic candidates fail on an archive whose first record has a
    name of at most 20 bytes and stores another offset than the end of the
    index table. *)
Lemma written_classic_rejected count n size off post :
  0 <= count < 2 ^ 32 -> (length n <= 20)%nat ->
  0 <= off < 2 ^ 32 -> off <> 0x3FE + count * (0x20 + 8) ->
  let file := bytes32 count ++ replicate (Z.to_nat (0x3FE - 4)) 0
              ++ (ljust (map ord n) 32 ++ bytes32 size ++ bytes32 off)
              ++ post in
  rejected file 0 0x3FE 0x20 /\ rejected file 0 0x3FE 0x10.
Proof.
  intros Hc Hn Ho Hne file.
  set (hdr := bytes32 count ++ replicate (Z.to_nat (0x3FE - 4)) 0).
  assert (len hdr = 0x3FE) as Hhdr by reflexivity.
  assert (length (map ord n) = length n) as Hmap by apply length_map.
  assert (file = (hdr ++ ljust (map ord n) 32 ++ bytes32 size)
                 ++ bytes32 off ++ post) as Hwide
    by (unfold file, hdr; by rewrite <- !app_assoc).
  assert (file = (hdr ++ map ord n ++ replicate (20 - length n) 0)
                 ++ replicate 4 0
                 ++ (replicate 8 0 ++ bytes32 size ++ bytes32 off ++ post))
    as Hnarrow.
  { unfold file, hdr, ljust. rewrite Hmap.
    replace (32 - length n)%nat with ((20 - length n) + (4 + 8))%nat by lia.
    rewrite !replicate_add. by rewrite <- !app_assoc. }
  split; exists count; (split; [by apply written_count|]); right.
  - exists off. split; [|done]. rewrite Hwide.
    rewrite read_at_middle; [by apply unpack_u32_bytes32| |done].
    rewrite !len_app, Hhdr. unfold len.
    rewrite ljust_length by lia. simpl. lia.
  - exists 0. split; [|lia]. rewrite Hnarrow.
    rewrite read_at_middle; [done| |done].
    rewrite !len_app, Hhdr. unfold len.
    rewrite Hmap, length_replicate. lia.
Qed.

(** X16. A directory that holds anything besides regular files gives an
    archive that the extractor does not recognise, when the first regular
    file has a name of at most 20 bytes: the header counts the regular
    files, the first stored offset counts every name, so the classic-wide
    check fails; the classic-narrow check reads the padding of the name
    slot, and the tagged check the padding of the header. The extractor
    returns without asking the file system for anything. *)
Theorem pack_with_other_names_unrecognised {fs : Type} (os : platform)
    (makedirs : fs -> res fs)
    (write_file : fs -> list ascii -> list Z -> res fs)
    (input_dir : PkPac.directory) (out : list Z)
    (n : list ascii) (d : list Z) (rest : list (list ascii * list Z))
    (fs0 : fs) :
  PkPac.pack input_dir = Ok out ->
  files_of input_dir = (n, d) :: rest ->
  (length (files_of input_dir) < length input_dir)%nat ->
  (length n <= 20)%nat ->
  ExPac.extract_archive os makedirs write_file out fs0 = Ok None.
Proof.
  intros Hpack Hfiles Hmore Hn.
  destruct (pack_shape _ _ Hpack) as (index & payloads & Hc & Hi & _ & ->).
  rewrite collect_files_files_of, Hfiles in Hi. cbn [layout map_res] in Hi.
  destruct (index_record _) as [r0|] eqn:Er; [|done].
  cbn [mbind res_bind] in Hi.
  destruct (map_res index_record _) as [irest|]; [|done].
  cbn [mbind res_bind] in Hi. injection Hi as <-.
  pose proof (index_record_inv _ _ Er) as (_ & _ & Ho).
  apply index_record_bytes in Er as ->. cbn [PkPac.name PkPac.size PkPac.offset] in *.
  cbn [concat]. rewrite <- (app_assoc _ (concat irest)).
  change (Z.to_nat PkPac.name_length) with 32%nat.
  set (count := len (files_of input_dir)) in *.
  set (off := 0x3FE + len input_dir * (0x20 + 8)) in *.
  assert (off <> 0x3FE + count * (0x20 + 8)) as Hne
    by (unfold off, count, len; lia).
  apply extract_archive_none; [|apply written_tagged_none].
  destruct (written_classic_rejected count n (len d) off
              (concat irest ++ concat payloads) Hc Hn Ho Hne) as [Hw Hnr].
  by apply try_open_classic_none.
Qed.

Lemma pack_with_other_names_unrecognised_witness :
  exists out,
    PkPac.pack [(str "a.txt", PkPac.File [1; 2; 3]); (str "sub", PkPac.Dir)]
    = Ok out
    /\ ExPac.extract_archive Nt record_makedirs record_write out [] = Ok None.
Proof.
  destruct (PkPac.pack
              [(str "a.txt", PkPac.File [1; 2; 3]); (str "sub", PkPac.Dir)])
    as [out|] eqn:E; [|vm_compute in E; discriminate E].
  exists out. split; [reflexivity|].
  apply (pack_with_other_names_unrecognised Nt record_makedirs record_write
           [(str "a.txt", PkPac.File [1; 2; 3]); (str "sub", PkPac.Dir)]
           out (str "a.txt") [1; 2; 3] [] []);
    [exact E | reflexivity | simpl; lia | simpl; lia].
Defined.

(** X17. The extractor does not recognise what [pack] writes for a
    directory without regular files, or with 100000 of them or more: the
    count in the header fails the sanity check of the classic layout, and
    the count field of the tagged layout lies in the padding. The
    extractor returns without asking the file system for anything. *)
Theorem pack_count_unrecognised {fs : Type} (os : platform)
    (makedirs : fs -> res fs)
    (write_file : fs -> list ascii -> list Z -> res fs)
    (input_dir : PkPac.directory) (out : list Z) (fs0 : fs) :
  PkPac.pack input_dir = Ok out ->
  files_of input_dir = [] \/ 100000 <= len (files_of input_dir) ->
  ExPac.extract_archive os makedirs write_file out fs0 = Ok None.
Proof.
  intros Hpack Hcount.
  destruct (pack_shape _ _ Hpack) as (index & payloads & Hc & _ & _ & ->).
  apply extract_archive_none; [|apply written_tagged_none].
  apply written_classic_unsane; [done|].
  destruct (ExPac.is_sane_count _) eqn:E; [|done].
  apply is_sane_count_spec in E.
  destruct Hcount as [Hnil|Hbig]; [rewrite Hnil in E; unfold len in E; simpl in E|];
    lia.
Qed.

Lemma pack_count_unrecognised_witness :
  exists out,
    PkPac.pack [(str "sub", PkPac.Dir)] = Ok out
    /\ ExPac.extract_archive Posix record_makedirs record_write out []
       = Ok None.
Proof.
  destruct (PkPac.pack [(str "sub", PkPac.Dir)]) as [out|] eqn:E;
    [|vm_compute in E; discriminate E].
  exists out. split; [reflexivity|].
  apply (pack_count_unrecognised Posix record_makedirs record_write
           [(str "sub", PkPac.Dir)] out []);
    [exact E | left; reflexivity].
Defined.

(** ** The signature of the tagged layout *)

Lemma read_at_skip (pre rest : list Z) pos n :
  len pre <= pos ->
  read_at (pre ++ rest) pos n = read_at rest (pos - len pre) n.
Proof.
  unfold read_at, len. intros H. rewrite drop_app_ge by lia.
  do 2 f_equal. lia.
Qed.

Lemma read_index_iter_skip os (pre pre' rest : list Z) nl acc pos x :
  length pre = length pre' -> 0 <= nl -> len pre <= pos ->
  ExPac.read_index_iter os (pre ++ rest) nl (acc, pos) x
  = ExPac.read_index_iter os (pre' ++ rest) nl (acc, pos) x.
Proof.
  intros Hlen Hnl Hpos.
  assert (len pre' = len pre) as Hl by (unfold len; lia).
  unfold ExPac.read_index_iter. cbv zeta.
  rewrite !(read_at_skip pre), !(read_at_skip pre') by lia.
  by rewrite Hl.
Qed.

Lemma read_index_iter_pos os file nl acc pos x acc' pos' :
  ExPac.read_index_iter os file nl (acc, pos) x = Ok (acc', pos') ->
  pos' = pos + nl + 8.
Proof.
  unfold ExPac.read_index_iter.
  destruct (decode_ascii _) as [decoded|]; [|done]. cbn [mbind res_bind].
  destruct (unpack_u32_u32 _) as [[sz off]|]; [|done]. cbn [mbind res_bind].
  intros H. by injection H as _ <-.
Qed.

Lemma read_index_loop_skip os (pre pre' rest : list Z) nl xs :
  length pre = length pre' -> 0 <= nl ->
  forall acc pos, len pre <= pos ->
    for_each (ExPac.read_index_iter os (pre ++ rest) nl) xs (acc, pos)
    = for_each (ExPac.read_index_iter os (pre' ++ rest) nl) xs (acc, pos).
Proof.
  intros Hlen Hnl. induction xs as [|x xs IH]; intros acc pos Hpos; [done|].
  cbn [for_each].
  rewrite (read_index_iter_skip os pre pre' rest) by done.
  destruct (ExPac.read_index_iter os (pre' ++ rest) nl (acc, pos) x)
    as [[acc' pos']|] eqn:E; [|done].
  cbn [mbind res_bind]. apply IH.
  apply read_index_iter_pos in E. lia.
Qed.

(** X18. [Pac2Opener] declares the signature 0x20434150 and never compares
    it: what its [try_open] returns or raises does not depend on the first 8
    bytes of the file. *)
Theorem tagged_ignores_first_8_bytes (os : platform)
    (pre pre' rest : list Z) :
  length pre = 8%nat -> length pre' = 8%nat ->
  ExPac.Pac2Opener_try_open os (pre ++ rest)
  = ExPac.Pac2Opener_try_open os (pre' ++ rest).
Proof.
  intros Hp Hp'. unfold ExPac.Pac2Opener_try_open.
  assert (len pre = 8) as Hl by (unfold len; lia).
  assert (len pre' = 8) as Hl' by (unfold len; lia).
  cbv zeta. rewrite !(read_at_skip pre), !(read_at_skip pre') by lia.
  rewrite Hl, Hl'.
  destruct (unpack_u32 (read_at rest (8 - 8) 4)) as [count|]; [|done].
  cbn [mbind res_bind].
  destruct (negb (ExPac.is_sane_count count)); [done|].
  destruct (unpack_u32 _) as [first_offset|]; [|done]. cbn [mbind res_bind].
  destruct (negb (first_offset =? _)); [done|].
  unfold ExPac.read_index.
  by rewrite (read_index_loop_skip os pre pre' rest) by lia.
Qed.

Lemma tagged_ignores_first_8_bytes_witness :
  ExPac.Pac2Opener_try_open Posix
    ([0x50; 0x41; 0x43; 0x20; 0; 0; 0; 0] ++ [1; 0; 0; 0])
  = ExPac.Pac2Opener_try_open Posix (replicate 8 0 ++ [1; 0; 0; 0]).
Proof.
  apply (tagged_ignores_first_8_bytes Posix
           [0x50; 0x41; 0x43; 0x20; 0; 0; 0; 0] (replicate 8 0) [1; 0; 0; 0]);
    reflexivity.
Defined.

(** ** What [extract_archive] writes *)

Lemma fmap_some_inv {A} (m : res A) (x : option A) :
  Some <$> m = Ok x -> exists a, x = Some a /\ m = Ok a.
Proof.
  destruct m as [a|]; [|done]. cbn. intros H. injection H as <-. by exists a.
Qed.

Lemma classic_try_open_some os file es :
  ExPac.PacOpener_try_open os file = Ok (Some es) ->
  exists count nl,
    unpack_u32 (read_at file 0 4) = Ok count
    /\ ExPac.is_sane_count count = true
    /\ (nl = 0x20 \/ nl = 0x10)
    /\ ExPac.read_index os file count 0x3FE nl = Ok es.
Proof.
  unfold ExPac.PacOpener_try_open.
  destruct (unpack_u32 (read_at file 0 4)) as [count|]; [|done].
  cbn [mbind res_bind].
  destruct (ExPac.is_sane_count count) eqn:Hs; [|done]. cbn [negb].
  destruct (unpack_u32 (read_at file (1022 + 32 + 4) 4)) as [fo|]; [|done].
  cbn [mbind res_bind]. destruct (negb (fo =? _)).
  - destruct (unpack_u32 (read_at file (1022 + 16 + 4) 4)) as [fo'|]; [|done].
    cbn [mbind res_bind]. destruct (negb (fo' =? _)); [done|].
    intros H. apply fmap_some_inv in H as (a & [= <-] & H).
    exists count, 0x10. auto.
  - intros H. apply fmap_some_inv in H as (a & [= <-] & H).
    exists count, 0x20. auto.
Qed.

Lemma tagged_try_open_some os file es :
  ExPac.Pac2Opener_try_open os file = Ok (Some es) ->
  exists count,
    unpack_u32 (read_at file 8 4) = Ok count
    /\ ExPac.is_sane_count count = true
    /\ ExPac.read_index os file count 0x804 0x20 = Ok es.
Proof.
  unfold ExPac.Pac2Opener_try_open.
  destruct (unpack_u32 (read_at file 8 4)) as [count|]; [|done].
  cbn [mbind res_bind].
  destruct (ExPac.is_sane_count count) eqn:Hs; [|done]. cbn [negb].
  destruct (unpack_u32 (read_at file (2052 + 32 + 4) 4)) as [fo|]; [|done].
  cbn [mbind res_bind]. destruct (negb (fo =? _)); [done|].
  intros H. apply fmap_some_inv in H as (a & [= <-] & H).
  exists count. auto.
Qed.

Lemma extract_loop_writes {fs : Type}
    (write_file : fs -> list ascii -> list Z -> res fs) file entries :
  forall out out' : fs,
    for_each (ExPac.extract_iter write_file file) entries out = Ok out' ->
    exists datas,
      Forall2 (fun e data => ExPac.open_entry file e = Ok data) entries datas
      /\ for_each (fun out ed => write_file out (ExPac.name (fst ed)) (snd ed))
           (zip entries datas) out = Ok out'.
Proof.
  induction entries as [|e entries IH]; intros out out' H.
  - exists []. split; [constructor|done].
  - cbn [for_each] in H.
    destruct (ExPac.extract_iter write_file file out e) as [st|] eqn:E;
      [|done].
    cbn [mbind res_bind] in H. unfold ExPac.extract_iter in E.
    destruct (ExPac.open_entry file e) as [data|] eqn:Eo; [|done].
    cbn [mbind res_bind] in E.
    destruct (IH _ _ H) as (datas & Hdatas & Hloop).
    exists (data :: datas). split; [by constructor|].
    cbn [zip zip_with for_each fst snd]. rewrite E. by cbn [mbind res_bind].
Qed.

(** X19. When [extract_archive] gets through, it has asked the file system
    for the output directory and then for one write per entry of the index
    of the layout it accepted, in index order, each under the name of the
    entry and with what [open_entry] returns for it. The number of writes
    is the count field of that layout, between 1 and 99999: it never gets
    through without a write. The entries have offsets and sizes below 2^32. What the writes leave in the directory (a name
    written twice, a name the file system refuses) is the file system's
    answer, not the script's. *)
Theorem extract_archive_files {fs : Type} (os : platform)
    (makedirs : fs -> res fs)
    (write_file : fs -> list ascii -> list Z -> res fs)
    (file : list Z) (fs0 fs' : fs) :
  bytes_ok file ->
  ExPac.extract_archive os makedirs write_file file fs0 = Ok (Some fs') ->
  exists count index_offset name_length entries datas,
    0 < count < 100000
    /\ ((unpack_u32 (read_at file 0 4) = Ok count /\ index_offset = 0x3FE
         /\ (name_length = 0x20 \/ name_length = 0x10))
        \/ (unpack_u32 (read_at file 8 4) = Ok count /\ index_offset = 0x804
            /\ name_length = 0x20))
    /\ ExPac.read_index os file count index_offset name_length = Ok entries
    /\ length entries = Z.to_nat count
    /\ Forall (fun e => 0 <= ExPac.offset e < 2 ^ 32
                        /\ 0 <= ExPac.size e < 2 ^ 32) entries
    /\ Forall2 (fun e data => ExPac.open_entry file e = Ok data) entries datas
    /\ (fs1 ← makedirs fs0;
        for_each (fun out ed => write_file out (ExPac.name (fst ed)) (snd ed))
          (zip entries datas) fs1) = Ok fs'.
Proof.
  intros Hfile. unfold ExPac.extract_archive.
  cbn [ExPac.probe ExPac.try_open].
  intros H.
  assert (forall count io nl entries,
            ExPac.read_index os file count io nl = Ok entries ->
            Forall (fun e => 0 <= ExPac.offset e < 2 ^ 32
                             /\ 0 <= ExPac.size e < 2 ^ 32) entries)
    as Hfields.
  { intros count io nl entries Hr. apply Forall_lookup. intros k e Hk.
    pose proof (read_index_records _ _ _ _ _ _ Hr k e Hk) as Hrec.
    by destruct (record_at_wellformed _ _ _ _ _ Hfile Hrec)
      as (_ & _ & _ & ? & ?). }
  assert (forall count io nl entries,
            ExPac.is_sane_count count = true ->
            ExPac.read_index os file count io nl = Ok entries ->
            (fs1 ← makedirs fs0;
             out ← for_each (ExPac.extract_iter write_file file) entries fs1;
             Ok (Some out)) = Ok (Some fs') ->
            exists datas,
              0 < count < 100000
              /\ length entries = Z.to_nat count
              /\ Forall2 (fun e data => ExPac.open_entry file e = Ok data)
                   entries datas
              /\ (fs1 ← makedirs fs0;
                  for_each
                    (fun out ed => write_file out (ExPac.name (fst ed)) (snd ed))
                    (zip entries datas) fs1) = Ok fs') as Hout.
  { intros count io nl entries Hs Hr Hw.
    destruct (makedirs fs0) as [fs1|]; [|done]. cbn [mbind res_bind] in *.
    destruct (for_each _ entries fs1) as [w|] eqn:E; [|done].
    cbn [mbind res_bind] in Hw. injection Hw as ->.
    destruct (extract_loop_writes _ _ _ _ _ E) as (datas & Hdatas & Hloop).
    exists datas. split; [by apply is_sane_count_spec|].
    split; [by apply read_index_length in Hr|done]. }
  destruct (ExPac.PacOpener_try_open os file) as [[es|]|] eqn:E1; [| |done];
    cbn [mbind res_bind] in H.
  - destruct (classic_try_open_some _ _ _ E1) as (count & nl & Hc & Hs & Hnl & Hr).
    rewrite (read_index_truthy _ _ _ _ _ _ Hs Hr) in H.
    destruct (Hout _ _ _ _ Hs Hr H) as (datas & ? & ? & ? & ?).
    pose proof (Hfields _ _ _ _ Hr).
    exists count, 0x3FE, nl, es, datas. auto 10.
  - cbn [ExPac.truthy] in H.
    destruct (ExPac.Pac2Opener_try_open os file) as [[es|]|] eqn:E2;
      [| |done]; cbn [mbind res_bind] in H.
    + destruct (tagged_try_open_some _ _ _ E2) as (count & Hc & Hs & Hr).
      rewrite (read_index_truthy _ _ _ _ _ _ Hs Hr) in H.
      destruct (Hout _ _ _ _ Hs Hr H) as (datas & ? & ? & ? & ?).
      pose proof (Hfields _ _ _ _ Hr).
      exists count, 0x804, 0x20, es, datas. auto 10.
    + cbn [ExPac.truthy] in H. done.
Qed.

Lemma extract_archive_files_witness :
  exists count index_offset name_length entries,
    0 < count < 100000
    /\ ExPac.read_index Posix sample_archive count index_offset name_length
       = Ok entries
    /\ length entries = Z.to_nat count.
Proof.
  destruct (extract_archive_files Posix record_makedirs record_write
              sample_archive [] sample_buffers)
    as (count & io & nl & entries & datas & Hc & _ & Hr & Hl & _ & _);
    [apply bytes_ok_check; reflexivity | vm_compute; reflexivity|].
  exists count, io, nl, entries. split; [exact Hc|]. split; [exact Hr|exact Hl].
Defined.

(** ** When [pack] returns *)

Lemma map_res_is_ok {A B} (f : A -> res B) xs :
  is_ok (map_res f xs) <-> Forall (fun x => is_ok (f x)) xs.
Proof.
  split; [|apply map_res_ok].
  induction xs as [|x xs IH]; [constructor|].
  intros [ys H]. cbn [map_res] in H.
  destruct (f x) as [y|] eqn:Ey; [|done]. cbn [mbind res_bind] in H.
  destruct (map_res f xs) as [ys'|]; [|done].
  constructor; [by exists y|]. apply IH. by eexists.
Qed.

Lemma files_of_names input_dir n d :
  (n, d) ∈ files_of input_dir -> n ∈ map fst input_dir.
Proof.
  induction input_dir as [|[n0 [d0|]] rest IH]; cbn [files_of map fst].
  - by intros ?%elem_of_nil.
  - intros [[= -> ->]|H]%elem_of_cons; [left|right; by apply IH].
  - intros H. right. by apply IH.
Qed.

Lemma read_file_files_of input_dir n d :
  NoDup (map fst input_dir) -> (n, d) ∈ files_of input_dir ->
  PkPac.read_file input_dir n = Ok d.
Proof.
  induction input_dir as [|[n0 [d0|]] rest IH]; cbn [files_of map fst];
    intros Hnd Hin.
  - by apply elem_of_nil in Hin.
  - apply NoDup_cons in Hnd as [Hnot Hnd]. cbn [PkPac.read_file].
    apply elem_of_cons in Hin as [[= -> ->]|Hin].
    + by destruct (decide (n0 = n0)).
    + destruct (decide (n0 = n)) as [->|_]; [|by apply IH].
      exfalso. apply Hnot. by apply (files_of_names _ _ d).
  - apply NoDup_cons in Hnd as [Hnot Hnd]. cbn [PkPac.read_file].
    destruct (decide (n0 = n)) as [->|_]; [|by apply IH].
    exfalso. apply Hnot. by apply (files_of_names _ _ d).
Qed.

Lemma index_record_is_ok e :
  is_ok (index_record e)
  <-> forallb (fun c => ord c <? 128) (PkPac.name e) = true
      /\ 0 <= PkPac.size e < 2 ^ 32 /\ 0 <= PkPac.offset e < 2 ^ 32.
Proof.
  split.
  - intros [r H]. by apply index_record_inv in H.
  - intros (Ha & Hs & Ho). rewrite index_record_fits by done. by eexists.
Qed.

(** The payload of a file is written unless the cipher applies to it and
    it has 20 bytes or more that do not end at a word. *)
Lemma payload_written_is_ok input_dir e d :
  PkPac.read_file input_dir (PkPac.name e) = Ok d -> bytes_ok d ->
  is_ok (payload_written input_dir e)
  <-> (PkPac.cipher_extension (PkPac.name e) = Ok true ->
       dollar d = true -> 20 <= len d -> (len d - 16) mod 4 = 0).
Proof.
  intros Hread Hok. unfold payload_written, PkPac.write_data_iter.
  rewrite Hread. cbn [mbind res_bind].
  destruct (cipher_extension_ok (PkPac.name e)) as [b Hb]. rewrite Hb.
  cbn [mbind res_bind].
  destruct b; cbn [andb]; [|split; [done|by eexists]].
  destruct (16 <? len d) eqn:E16;
    [|split; [intros _ _ _ ?; lia|by eexists]].
  destruct (dollar d) eqn:Hd.
  - apply dollar_head in Hd.
    destruct (decide (len d < 20)) as [Hs|Hs].
    { rewrite (encrypt_data_short _ Hd Hs).
      split; [intros _ _ _ ?; lia|by eexists]. }
    destruct (decide ((len d - 16) mod 4 = 0)) as [Ha|Ha].
    + rewrite (encrypt_data_aligned _ Hok Hd) by (done || lia).
      split; [done|by eexists].
    + rewrite (encrypt_data_unaligned _ Hok Hd) by (done || lia).
      split; [by intros [? ?]|]. intros H. exfalso. apply Ha, H; (done || lia).
  - destruct d as [|b0 d']; [vm_compute in E16; discriminate E16|].
    rewrite (encrypt_data_not_dollar _ b0) by (done || (simpl in Hd; lia)).
    split; [done|by eexists].
Qed.

Lemma layout_payloads_is_ok input_dir part :
  NoDup (map fst input_dir) ->
  Forall (fun nb => nb ∈ files_of input_dir /\ bytes_ok (snd nb)) part ->
  forall off,
    Forall (fun e => is_ok (payload_written input_dir e)) (layout off part)
    <-> Forall (fun nb =>
                  PkPac.cipher_extension (fst nb) = Ok true ->
                  dollar (snd nb) = true -> 20 <= len (snd nb) ->
                  (len (snd nb) - 16) mod 4 = 0) part.
Proof.
  intros Hnd. induction 1 as [|[n d] part [Hin Hok] _ IH]; intros off.
  - cbn [layout]. split; constructor.
  - cbn [layout]. rewrite !Forall_cons, IH.
    rewrite (payload_written_is_ok input_dir _ d);
      [done|by apply read_file_files_of|done].
Qed.

Lemma layout_index_is_ok part : forall off,
  0 <= off ->
  Forall (fun e => is_ok (index_record e)) (layout off part)
  <-> Forall (fun e =>
                forallb (fun c => ord c <? 128) (PkPac.name e) = true
                /\ PkPac.size e < 2 ^ 32 /\ PkPac.offset e < 2 ^ 32)
        (layout off part).
Proof.
  induction part as [|[n d] part IH]; intros off Hoff.
  - cbn [layout]. split; constructor.
  - cbn [layout]. pose proof (len_nonneg d).
    rewrite !Forall_cons, IH, index_record_is_ok by lia.
    cbn [PkPac.name PkPac.size PkPac.offset]. intuition lia.
Qed.

(** X20. [pack] returns for a directory of distinct names exactly when every
    regular file has an ASCII name, a size below 2^32 and an offset below
    2^32, and every file the cipher applies to (extension outside the list,
    first byte 0x24, 20 bytes or more) ends at a word; else it raises.
    Names longer than 32 bytes and names that end in NUL do not stop it. *)
Theorem pack_returns_iff (input_dir : PkPac.directory) :
  NoDup (map fst input_dir) ->
  Forall (fun nb => bytes_ok (snd nb)) (files_of input_dir) ->
  is_ok (PkPac.pack input_dir)
  <-> Forall (fun e =>
                forallb (fun c => ord c <? 128) (PkPac.name e) = true
                /\ PkPac.size e < 2 ^ 32 /\ PkPac.offset e < 2 ^ 32)
        (PkPac.collect_files input_dir)
      /\ Forall (fun nb =>
                   PkPac.cipher_extension (fst nb) = Ok true ->
                   dollar (snd nb) = true -> 20 <= len (snd nb) ->
                   (len (snd nb) - 16) mod 4 = 0)
           (files_of input_dir).
Proof.
  intros Hnd Hbytes.
  assert (Forall (fun nb => nb ∈ files_of input_dir /\ bytes_ok (snd nb))
            (files_of input_dir)) as Hpart.
  { apply Forall_forall. intros nb Hin. split; [done|].
    rewrite Forall_forall in Hbytes. by apply Hbytes. }
  pose proof (len_nonneg input_dir) as Hdir.
  rewrite <- (layout_payloads_is_ok input_dir _ Hnd Hpart
                (0x3FE + len input_dir * (0x20 + 8))).
  rewrite <- collect_files_files_of.
  assert (Forall (fun e => is_ok (index_record e))
            (PkPac.collect_files input_dir)
          <-> Forall (fun e =>
                forallb (fun c => ord c <? 128) (PkPac.name e) = true
                /\ PkPac.size e < 2 ^ 32 /\ PkPac.offset e < 2 ^ 32)
                (PkPac.collect_files input_dir)) as <-
    by (rewrite collect_files_files_of; apply layout_index_is_ok; lia).
  rewrite <- !map_res_is_ok.
  unfold PkPac.pack. rewrite write_archive_parts.
  split.
  - intros [out H].
    destruct (pack_u32 _) as [count|]; [|done]. cbn [mbind res_bind] in H.
    destruct (map_res index_record _) as [index|]; [|done].
    cbn [mbind res_bind] in H.
    destruct (map_res (payload_written input_dir) _) as [payloads|]; [|done].
    split; by eexists.
  - intros [[index Hi] [payloads Hp]].
    assert (0 <= len (PkPac.collect_files input_dir) < 2 ^ 32) as Hc.
    { split; [apply len_nonneg|].
      assert (is_ok (map_res index_record (PkPac.collect_files input_dir)))
        as Hi' by by eexists.
      apply map_res_is_ok in Hi'.
      rewrite collect_files_files_of in Hi' |- *.
      pose proof (files_of_length input_dir) as Hle.
      destruct (files_of input_dir) as [|[n d] rest] eqn:Ef; [done|].
      cbn [layout] in Hi'. apply Forall_cons in Hi' as [He _].
      apply index_record_is_ok in He as (_ & _ & Ho).
      cbn [PkPac.offset] in Ho. unfold len in *.
      rewrite layout_length. lia. }
    rewrite (pack_u32_ok _ Hc), Hi, Hp. by eexists.
Qed.

Lemma pack_returns_iff_witness :
  is_ok (PkPac.pack [(str "sub", PkPac.Dir);
                     (str "a.dat", PkPac.File (0x24 :: replicate 19 7))])
  /\ ~ is_ok (PkPac.pack [(str "a.dat", PkPac.File (0x24 :: replicate 20 7))]).
Proof.
  split.
  - apply (pack_returns_iff
             [(str "sub", PkPac.Dir);
              (str "a.dat", PkPac.File (0x24 :: replicate 19 7))]).
    + decide_literal.
    + constructor; [apply bytes_ok_check; reflexivity|constructor].
    + split.
      * constructor; [|constructor]. vm_compute. by repeat split.
      * constructor; [|constructor]. intros _ _ _. reflexivity.
  - intros H.
    apply (pack_returns_iff
             [(str "a.dat", PkPac.File (0x24 :: replicate 20 7))]) in H
      as [_ H].
    + apply Forall_cons in H as [H _].
      specialize (H eq_refl eq_refl ltac:(vm_compute; discriminate)).
      vm_compute in H. discriminate H.
    + decide_literal.
    + constructor; [apply bytes_ok_check; reflexivity|constructor].
Defined.

(** ** Where [pack] puts the payloads *)

Lemma layout_payload_lengths input_dir part :
  NoDup (map fst input_dir) ->
  Forall (fun nb => nb ∈ files_of input_dir) part ->
  forall off ws,
    map_res (payload_written input_dir) (layout off part) = Ok ws ->
    Forall2 (fun nb w => length w = length (snd nb)) part ws.
Proof.
  intros Hnd. induction 1 as [|[n d] part Hin _ IH]; intros off ws H.
  - cbn in H. injection H as <-. constructor.
  - cbn [layout map_res] in H.
    destruct (payload_written input_dir _) as [w|] eqn:Ew; [|done].
    cbn [mbind res_bind] in H.
    destruct (map_res _ _) as [ws'|] eqn:Ews; [|done].
    cbn [mbind res_bind] in H. injection H as <-.
    constructor; [|by apply (IH _ _ Ews)].
    apply (payload_written_length input_dir
             {| PkPac.name := n; PkPac.size := len d; PkPac.offset := off |}
             d w (read_file_files_of _ n d Hnd Hin) Ew).
Qed.

Lemma concat_take_sizes (files : list (list ascii * list Z))
    (ws : list (list Z)) :
  Forall2 (fun nb w => length w = length (snd nb)) files ws ->
  forall k, len (concat (take k ws)) = sizes_before k files.
Proof.
  induction 1 as [|[n d] w files ws Hw _ IH]; intros k.
  - unfold sizes_before. by rewrite !take_nil.
  - destruct k as [|k]; [done|].
    cbn [take concat]. rewrite len_app, IH, sizes_before_S.
    cbn [snd] in Hw. unfold len. lia.
Qed.

Lemma index_table_len entries : forall index,
  Forall (fun e => (length (PkPac.name e) <= 32)%nat) entries ->
  map_res index_record entries = Ok index ->
  len (concat index) = 40 * len entries.
Proof.
  induction entries as [|e entries IH]; intros index Hn H.
  - cbn in H. by injection H as <-.
  - apply Forall_cons in Hn as [He Hn]. cbn [map_res] in H.
    destruct (index_record e) as [r|] eqn:Er; [|done].
    cbn [mbind res_bind] in H.
    destruct (map_res index_record entries) as [rs|]; [|done].
    cbn [mbind res_bind] in H. injection H as <-.
    apply index_record_bytes in Er as ->. fold (record_bytes e).
    cbn [concat]. rewrite len_app, (IH rs) by done.
    rewrite record_bytes_length by done. unfold len. simpl. lia.
Qed.

Lemma layout_names off files :
  Forall (fun nb => (length (fst nb) <= 32)%nat) files ->
  Forall (fun e => (length (PkPac.name e) <= 32)%nat) (layout off files).
Proof.
  intros H. revert off. induction H as [|[n d] files Hn _ IH]; intros off.
  - constructor.
  - cbn [layout]. constructor; [done|apply IH].
Qed.

(** X21. Where [pack] puts things, for distinct names of at most 32 bytes:
    the output has 0x3FE bytes of header, 40 bytes for every regular file
    and then the payloads, each of the size of its file; the payload of an
    entry starts at its stored offset minus 40 for every name of the
    directory that is not a regular file. So the stored offsets point at the
    payloads exactly when the directory holds regular files only. *)
Theorem pack_payload_placement (input_dir : PkPac.directory) (out : list Z) :
  NoDup (map fst input_dir) ->
  Forall (fun nb => (length (fst nb) <= 32)%nat) (files_of input_dir) ->
  PkPac.pack input_dir = Ok out ->
  let entries := PkPac.collect_files input_dir in
  let others := len input_dir - len entries in
  len out = 0x3FE + 40 * len entries + total_size (files_of input_dir)
  /\ forall k e, entries !! k = Some e ->
       exists w, payload_written input_dir e = Ok w
         /\ len w = PkPac.size e
         /\ read_at out (PkPac.offset e - 40 * others) (PkPac.size e) = w.
Proof.
  intros Hnd Hnames Hpack entries others.
  destruct (pack_shape _ _ Hpack) as (index & payloads & Hc & Hi & Hp & ->).
  fold entries in Hi, Hp.
  assert (entries = layout (0x3FE + len input_dir * (0x20 + 8))
                      (files_of input_dir)) as Hent
    by apply collect_files_files_of.
  assert (len entries = len (files_of input_dir)) as Hcount
    by (rewrite Hent; unfold len; by rewrite layout_length).
  assert (len (concat index) = 40 * len entries) as Hindex.
  { apply index_table_len; [|done]. rewrite Hent. by apply layout_names. }
  assert (Forall2 (fun nb w => length w = length (snd nb))
            (files_of input_dir) payloads) as Hlens.
  { apply (layout_payload_lengths input_dir _ Hnd) with
      (off := 0x3FE + len input_dir * (0x20 + 8)); [|by rewrite <- Hent].
    apply Forall_forall. auto. }
  set (hdr := bytes32 (len (files_of input_dir))
              ++ replicate (Z.to_nat (0x3FE - 4)) 0).
  assert (len hdr = 0x3FE) as Hhdr by reflexivity.
  split.
  - rewrite (app_assoc (bytes32 _)). fold hdr.
    rewrite !len_app, Hhdr, Hindex.
    pose proof (concat_take_sizes _ _ Hlens (length payloads)) as Ht.
    rewrite firstn_all in Ht. rewrite Ht. unfold sizes_before, total_size.
    rewrite take_ge; [lia|]. apply Forall2_length in Hlens. lia.
  - intros k e Hk.
    destruct (map_res_lookup _ _ _ _ _ Hp Hk) as (w & Hw & He).
    exists w. split; [done|].
    rewrite Hent in Hk.
    destruct (layout_lookup _ _ _ _ Hk) as (n & d & Hf & _ & Hs & Ho).
    assert (length w = length d) as Hwd.
    { destruct (Forall2_lookup_l _ _ _ _ _ Hlens Hf) as (w' & Hw' & Hl).
      rewrite Hw in Hw'. by injection Hw' as <-. }
    split; [rewrite Hs; unfold len; lia|].
    rewrite <- (take_drop_middle payloads k w Hw), concat_app.
    cbn [concat].
    replace (bytes32 (len (files_of input_dir))
             ++ replicate (Z.to_nat (0x3FE - 4)) 0
             ++ concat index
             ++ concat (take k payloads) ++ w ++ concat (drop (S k) payloads))
      with ((hdr ++ concat index ++ concat (take k payloads))
            ++ w ++ concat (drop (S k) payloads))
      by (unfold hdr; by rewrite <- !app_assoc).
    apply read_at_middle; [|rewrite Hs; unfold len; lia].
    rewrite !len_app, Hhdr, Hindex, (concat_take_sizes _ _ Hlens), Ho.
    unfold others. lia.
Qed.

Lemma pack_payload_placement_witness :
  exists out,
    PkPac.pack [(str "sub", PkPac.Dir); (str "a", PkPac.File [1; 2; 3])]
    = Ok out
    /\ len out = 0x3FE + 40 * 1 + 3
    /\ read_at out (0x3FE + 2 * 40 - 40 * 1) 3 = [1; 2; 3].
Proof.
  destruct (PkPac.pack
              [(str "sub", PkPac.Dir); (str "a", PkPac.File [1; 2; 3])])
    as [out|] eqn:E; [|vm_compute in E; discriminate E].
  exists out. split; [reflexivity|].
  destruct (pack_payload_placement
              [(str "sub", PkPac.Dir); (str "a", PkPac.File [1; 2; 3])] out)
    as [Hlen Hpay]; [decide_literal| |exact E|].
  { constructor; [simpl; lia|constructor]. }
  split; [exact Hlen|].
  destruct (Hpay 0%nat
              {| PkPac.name := str "a"; PkPac.size := 3;
                 PkPac.offset := 0x3FE + 2 * 40 |} eq_refl)
    as (w & Hw & _ & Hr).
  vm_compute in Hw. injection Hw as <-. exact Hr.
Defined.

(** ** Files too short for the probe *)

(** X22. A file shorter than 0x426 bytes is never extracted: on it
    [extract_archive] raises [struct.error], or it returns without writing
    when both count fields can be read and neither passes the sanity check.
    Below 12 bytes, the empty file included, it always raises. In both
    cases the file system is not asked for anything. *)
Theorem extract_archive_short_file {fs : Type} (os : platform)
    (makedirs : fs -> res fs)
    (write_file : fs -> list ascii -> list Z -> res fs)
    (file : list Z) (fs0 : fs) :
  len file < 0x426 ->
  (ExPac.extract_archive os makedirs write_file file fs0 = Ok None
   \/ ExPac.extract_archive os makedirs write_file file fs0 = Raise StructError)
  /\ (ExPac.extract_archive os makedirs write_file file fs0 = Ok None
      <-> exists c0 c8,
            unpack_u32 (read_at file 0 4) = Ok c0
            /\ unpack_u32 (read_at file 8 4) = Ok c8
            /\ ExPac.is_sane_count c0 = false
            /\ ExPac.is_sane_count c8 = false)
  /\ (len file < 12 -> ExPac.extract_archive os makedirs write_file file fs0 = Raise StructError).
Proof.
  intros Hlen.
  assert (unpack_u32 (read_at file (0x3FE + 0x20 + 4) 4) = Raise StructError)
    as Hw by (apply read_past_end; lia).
  assert (unpack_u32 (read_at file (0x804 + 0x20 + 4) 4) = Raise StructError)
    as Ht by (apply read_past_end; lia).
  unfold ExPac.extract_archive.
  cbn [ExPac.probe ExPac.try_open].
  unfold ExPac.PacOpener_try_open, ExPac.Pac2Opener_try_open. cbv zeta.
  rewrite Hw, Ht.
  destruct (unpack_u32 (read_at file 0 4)) as [c0|e0] eqn:E0.
  2:{ apply unpack_u32_raise in E0 as ->. cbn [mbind res_bind].
      split; [by right|]. split; [|done].
      split; [done|]. by intros (? & ? & ? & _). }
  cbn [mbind res_bind].
  destruct (ExPac.is_sane_count c0) eqn:S0; cbn [negb mbind res_bind].
  { split; [by right|]. split; [|done].
    split; [done|]. intros (? & ? & [= <-] & _ & ? & _). congruence. }
  cbn [ExPac.truthy].
  destruct (unpack_u32 (read_at file 8 4)) as [c8|e8] eqn:E8.
  2:{ apply unpack_u32_raise in E8 as ->. cbn [mbind res_bind].
      split; [by right|]. split; [|done].
      split; [done|]. by intros (? & ? & _ & ? & _). }
  cbn [mbind res_bind].
  destruct (ExPac.is_sane_count c8) eqn:S8; cbn [negb mbind res_bind].
  { split; [by right|]. split.
    - split; [done|]. intros (? & ? & _ & [= <-] & _ & ?). congruence.
    - intros H12. rewrite read_past_end in E8 by lia. done. }
  cbn [ExPac.truthy]. split; [by left|]. split.
  - split; [|done]. intros _. by exists c0, c8.
  - intros H12. rewrite read_past_end in E8 by lia. done.
Qed.

Lemma extract_archive_short_file_witness :
  ExPac.extract_archive Posix record_makedirs record_write [] []
  = Raise StructError
  /\ ExPac.extract_archive Posix record_makedirs record_write
       (replicate 12 0) [] = Ok None.
Proof.
  split.
  - apply (extract_archive_short_file Posix record_makedirs record_write
             [] []); reflexivity.
  - apply (extract_archive_short_file Posix record_makedirs record_write
             (replicate 12 0) []); [reflexivity|].
    exists 0, 0. by repeat split.
Defined.

(** ** When the packer and the extractor disagree about the cipher *)

Lemma lxor_fixed b k : Z.lxor b k = b -> k = 0.
Proof.
  intros H.
  assert (Z.lxor b (Z.lxor b k) = Z.lxor b b) as H' by by rewrite H.
  by rewrite <- Z.lxor_assoc, Z.lxor_nilpotent, Z.lxor_0_l in H'.
Qed.

(** The cipher changes the second byte of the first word it covers. *)
Lemma transformed_differs f g d :
  (forall s b0 b1 b2 b3,
     0 <= s <= 7 -> is_byte b0 -> is_byte b1 -> is_byte b2 -> is_byte b3 ->
     f s b0 b1 b2 b3 = [g s 0%nat b0; g s 1%nat b1; g s 2%nat b2; g s 3%nat b3]) ->
  (forall s b, g s 1%nat b = Z.lxor b (key_byte 1)) ->
  bytes_ok d -> 20 <= len d -> (len d - 16) mod 4 = 0 ->
  take 16 d ++ words_map f 0 (drop 16 d) <> d.
Proof.
  intros Hf Hg Hok Hlen Hal Heq. unfold len in *.
  assert (length (take 16 d) = 16%nat) as H16 by (rewrite length_take; lia).
  destruct (lookup_lt_is_Some_2 d 17) as [b Hb]; [lia|].
  assert ((take 16 d ++ words_map f 0 (drop 16 d)) !! 17%nat
          = Some (g (shift_at 0) 1%nat b)) as Hout.
  { rewrite lookup_app_r by lia. rewrite H16.
    change (17 - 16)%nat with (4 * 0 + 1)%nat.
    apply (words_map_lookup f g (Z.to_nat ((Z.of_nat (length d) - 16) / 4)));
      [done| |by apply Forall_drop|lia|].
    - rewrite length_drop.
      pose proof (Z.div_mod (Z.of_nat (length d) - 16) 4 ltac:(lia)). lia.
    - by rewrite lookup_drop. }
  rewrite Heq, Hb, Hg in Hout. injection Hout as Hout.
  symmetry in Hout. by apply lxor_fixed in Hout.
Qed.

(** X23. A buffer of 20 bytes or more that starts with 0x24 and ends at a
    word does not survive the round trip when only one side applies the
    cipher: the packer stores it unchanged and the extractor decodes it
    (extension in the packer's list, kind unknown), or the packer encodes it
    and the extractor returns it as stored (extension outside the list, kind
    image or audio). What is extracted differs from the buffer. *)
Theorem cipher_mismatch_changes_payload (os : platform)
    (input_dir : PkPac.directory) (n : list ascii) (d : list Z) (off : Z) :
  PkPac.read_file input_dir n = Ok d -> bytes_ok d ->
  dollar d = true -> 20 <= len d -> (len d - 16) mod 4 = 0 ->
  (PkPac.cipher_extension n = Ok false
   /\ ExPac.determine_type os n = ExPac.Unknown)
  \/ (PkPac.cipher_extension n = Ok true
      /\ ExPac.determine_type os n <> ExPac.Unknown) ->
  exists w d',
    payload_written input_dir
      {| PkPac.name := n; PkPac.size := len d; PkPac.offset := off |} = Ok w
    /\ (forall file pos,
          read_at file pos (len d) = w ->
          ExPac.open_entry file
            (reader_entry os
               {| PkPac.name := n; PkPac.size := len d; PkPac.offset := pos |})
          = Ok d')
    /\ d' <> d.
Proof.
  intros Hread Hok Hd Hlen Hal Hgate.
  pose proof Hd as Hd0. apply dollar_head in Hd0.
  unfold payload_written, PkPac.write_data_iter. cbn [PkPac.name].
  rewrite Hread. cbn [mbind res_bind].
  destruct Hgate as [[Hext Hty]|[Hext Hty]]; rewrite Hext;
    cbn [mbind res_bind andb].
  - exists d, (take 16 d ++ words_map word_dec 0 (drop 16 d)).
    split; [done|]. split.
    + intros file pos Hr.
      rewrite open_entry_apply; cbn [reader_entry ExPac.set_offset
        ExPac.set_size ExPac.new_Entry ExPac.type ExPac.size ExPac.offset
        PkPac.name PkPac.size PkPac.offset]; rewrite ?Hr; try done; [|lia].
      by apply decrypt_data_aligned.
    + apply (transformed_differs word_dec dec_byte); try done.
      apply word_dec_bytes.
  - assert ((16 <? len d) = true) as -> by lia.
    rewrite (encrypt_data_aligned d Hok Hd0 Hlen Hal). cbn [mbind res_bind].
    exists (take 16 d ++ words_map word_enc 0 (drop 16 d)),
      (take 16 d ++ words_map word_enc 0 (drop 16 d)).
    split; [done|]. split.
    + intros file pos Hr.
      rewrite open_entry_media; cbn [reader_entry ExPac.set_offset
        ExPac.set_size ExPac.new_Entry ExPac.type ExPac.size ExPac.offset
        PkPac.name PkPac.size PkPac.offset]; by rewrite ?Hr.
    + apply (transformed_differs word_enc enc_byte); try done.
      apply word_enc_bytes.
Qed.

Lemma cipher_mismatch_changes_payload_witness :
  exists w d',
    payload_written [(str "a.jpg", PkPac.File (0x24 :: replicate 19 7))]
      {| PkPac.name := str "a.jpg"; PkPac.size := 20; PkPac.offset := 0 |}
    = Ok w
    /\ ExPac.open_entry w
         (reader_entry Posix
            {| PkPac.name := str "a.jpg"; PkPac.size := 20;
               PkPac.offset := 0 |}) = Ok d'
    /\ d' <> 0x24 :: replicate 19 7.
Proof.
  destruct (cipher_mismatch_changes_payload Posix
              [(str "a.jpg", PkPac.File (0x24 :: replicate 19 7))]
              (str "a.jpg") (0x24 :: replicate 19 7) 0)
    as (w & d' & Hw & Hd & Hne);
    [reflexivity | apply bytes_ok_check; reflexivity | reflexivity
    | vm_compute; discriminate | reflexivity
    | left; split; vm_compute; reflexivity |].
  exists w, d'. split; [exact Hw|]. split; [|exact Hne].
  apply (Hd w 0). vm_compute in Hw. injection Hw as <-. reflexivity.
Defined.

(** ** The kind of a name on the two platforms *)

Lemma splitext_platforms name :
  "\"%char ∉ name -> splitext Nt name = splitext Posix name.
Proof.
  intros Hn. unfold splitext, splitext_generic.
  rewrite (rfind_notin "\" name Hn).
  pose proof (rfind_ge "/" name).
  by replace (Z.max (-1) (rfind "/" name)) with (rfind "/" name) by lia.
Qed.

(** X24. The kind of a name does not depend on the platform when the name
    holds no backslash: [os.path.splitext] treats the backslash as a
    separator on Windows only. With a backslash the kinds can differ: a dot
    right behind one starts an extension on POSIX and a dot file on
    Windows. *)
Theorem determine_type_platforms (name : list ascii) :
  "\"%char ∉ name ->
  ExPac.determine_type Nt name = ExPac.determine_type Posix name.
Proof.
  intros Hn. unfold ExPac.determine_type. by rewrite splitext_platforms.
Qed.

Lemma determine_type_platforms_witness :
  ExPac.determine_type Nt (str "dir/b.OGG")
  = ExPac.determine_type Posix (str "dir/b.OGG")
  /\ ExPac.determine_type Posix (str "x\.wav") = ExPac.Audio
  /\ ExPac.determine_type Nt (str "x\.wav") = ExPac.Unknown.
Proof.
  split; [|split; reflexivity].
  apply (determine_type_platforms (str "dir/b.OGG")). decide_literal.
Defined.

(** ** The exceptions that escape *)

Lemma for_each_raise {S X} (body : S -> X -> res S) xs : forall st e,
  for_each body xs st = Raise e ->
  exists st' x, x ∈ xs /\ body st' x = Raise e.
Proof.
  induction xs as [|x xs IH]; intros st e H; [done|].
  cbn [for_each] in H. destruct (body st x) as [st1|e1] eqn:E.
  - cbn [mbind res_bind] in H. destruct (IH _ _ H) as (st' & y & Hy & Hb).
    exists st', y. split; [by right|done].
  - cbn [mbind res_bind] in H. injection H as ->.
    exists st, x. split; [by left|done].
Qed.

Lemma map_res_raise {A B} (f : A -> res B) xs e :
  map_res f xs = Raise e -> exists x, x ∈ xs /\ f x = Raise e.
Proof.
  induction xs as [|x xs IH]; [done|]. cbn [map_res].
  destruct (f x) as [y|e1] eqn:E; cbn [mbind res_bind].
  - destruct (map_res f xs) as [ys|e2]; [done|]. cbn [mbind res_bind].
    intros [= ->]. destruct IH as (x' & Hx & Hf); [done|].
    exists x'. split; [by right|done].
  - intros [= ->]. exists x. split; [by left|done].
Qed.

Lemma read_index_raise os file count index_offset nl e :
  ExPac.read_index os file count index_offset nl = Raise e ->
  e = StructError \/ e = UnicodeDecodeError.
Proof.
  unfold ExPac.read_index.
  destruct (for_each _ _ _) as [st|e1] eqn:E; [done|].
  cbn [mbind res_bind]. intros [= ->].
  apply for_each_raise in E as ([acc pos] & x & _ & H).
  unfold ExPac.read_index_iter, decode_ascii in H.
  destruct (forallb _ _); [|injection H as <-; by right].
  cbn [mbind res_bind] in H. unfold unpack_u32_u32 in H.
  destruct (decide _); [|injection H as <-; by left].
  destruct (unpack_u32 (take 4 _)) as [a|e1] eqn:Ea.
  - cbn [mbind res_bind] in H.
    destruct (unpack_u32 (drop 4 _)) as [b|e2] eqn:Eb; [done|].
    cbn [mbind res_bind] in H. injection H as <-.
    left. by apply unpack_u32_raise in Eb.
  - cbn [mbind res_bind] in H. injection H as <-.
    left. by apply unpack_u32_raise in Ea.
Qed.

Lemma fmap_raise {A B} (g : A -> B) (m : res A) e :
  g <$> m = Raise e -> m = Raise e.
Proof. destruct m; [done|]. cbn. congruence. Qed.

Lemma try_open_raise os o file e :
  ExPac.try_open os o file = Raise e ->
  e = StructError \/ e = UnicodeDecodeError.
Proof.
  destruct o; cbn [ExPac.try_open];
    unfold ExPac.PacOpener_try_open, ExPac.Pac2Opener_try_open; cbv zeta.
  - destruct (unpack_u32 (read_at file 0 4)) as [count|e0] eqn:E0;
      cbn [mbind res_bind];
      [|intros [= <-]; left; by apply unpack_u32_raise in E0].
    destruct (negb (ExPac.is_sane_count count)); [done|].
    destruct (unpack_u32 (read_at file (1022 + 32 + 4) 4)) as [fo|e1] eqn:E1;
      cbn [mbind res_bind];
      [|intros [= <-]; left; by apply unpack_u32_raise in E1].
    destruct (negb (fo =? _)).
    + destruct (unpack_u32 (read_at file (1022 + 16 + 4) 4)) as [fo'|e2] eqn:E2;
        cbn [mbind res_bind];
        [|intros [= <-]; left; by apply unpack_u32_raise in E2].
      destruct (negb (fo' =? _)); [done|].
      intros H. apply fmap_raise in H. by apply read_index_raise in H.
    + intros H. apply fmap_raise in H. by apply read_index_raise in H.
  - destruct (unpack_u32 (read_at file 8 4)) as [count|e0] eqn:E0;
      cbn [mbind res_bind];
      [|intros [= <-]; left; by apply unpack_u32_raise in E0].
    destruct (negb (ExPac.is_sane_count count)); [done|].
    destruct (unpack_u32 (read_at file (2052 + 32 + 4) 4)) as [fo|e1] eqn:E1;
      cbn [mbind res_bind];
      [|intros [= <-]; left; by apply unpack_u32_raise in E1].
    destruct (negb (fo =? _)); [done|].
    intros H. apply fmap_raise in H. by apply read_index_raise in H.
Qed.

Lemma open_entry_raise file entry e :
  bytes_ok file -> ExPac.open_entry file entry = Raise e ->
  e = IndexError \/ e = StructError.
Proof.
  intros Hfile. unfold ExPac.open_entry.
  set (data := read_at file (ExPac.offset entry) (ExPac.size entry)).
  assert (bytes_ok data) as Hok by by apply read_at_bytes_ok.
  clearbody data.
  destruct (_ || _); [done|]. unfold getitem.
  destruct (data !! 0%nat) as [b0|]; cbn [mbind res_bind];
    [|intros [= <-]; by left].
  destruct (negb (b0 =? ord "$")); [done|].
  destruct (decide (len data < 20)) as [Hs|Hs];
    [by rewrite decrypt_data_short|].
  destruct (decide ((len data - 16) mod 4 = 0)) as [Ha|Ha].
  - by rewrite decrypt_data_aligned by (done || lia).
  - rewrite decrypt_data_unaligned by (done || lia). intros [= <-]. by right.
Qed.

(** X25. On a file of bytes, what [extract_archive] raises is
    [struct.error] (a short read), [UnicodeDecodeError] (a name slot with a
    byte above 127), [IndexError] (an empty payload where more than 16 bytes
    were announced), or what the file system raised when it was asked for
    the output directory or for the write of an entry. In particular the
    byte stores of the decode loop never raise [ValueError]: the rotated
    value is always a byte. *)
Theorem extract_archive_raises_only {fs : Type} (os : platform)
    (makedirs : fs -> res fs)
    (write_file : fs -> list ascii -> list Z -> res fs)
    (file : list Z) (fs0 : fs) (e : exn) :
  bytes_ok file ->
  ExPac.extract_archive os makedirs write_file file fs0 = Raise e ->
  e = StructError \/ e = UnicodeDecodeError \/ e = IndexError
  \/ makedirs fs0 = Raise e
  \/ exists out entry data,
       ExPac.open_entry file entry = Ok data
       /\ write_file out (ExPac.name entry) data = Raise e.
Proof.
  intros Hfile. unfold ExPac.extract_archive. cbn [ExPac.probe].
  assert (forall entries : option (list ExPac.Entry),
            match entries with
            | Some entries =>
                out ← makedirs fs0;
                out ← for_each (ExPac.extract_iter write_file file) entries out;
                Ok (Some out)
            | None => Ok None
            end = Raise e ->
            e = StructError \/ e = UnicodeDecodeError \/ e = IndexError
            \/ makedirs fs0 = Raise e
            \/ exists out entry data,
                 ExPac.open_entry file entry = Ok data
                 /\ write_file out (ExPac.name entry) data = Raise e)
    as Hloop.
  { intros [entries|]; [|done].
    destruct (makedirs fs0) as [fs1|e0]; cbn [mbind res_bind];
      [|intros [= ->]; tauto].
    destruct (for_each _ entries fs1) as [w|e1] eqn:E; [done|].
    cbn [mbind res_bind]. intros [= ->].
    apply for_each_raise in E as (out & entry & _ & H).
    unfold ExPac.extract_iter in H.
    destruct (ExPac.open_entry file entry) as [data|e1] eqn:Eo;
      cbn [mbind res_bind] in H.
    - do 4 right. by exists out, entry, data.
    - injection H as ->. apply (open_entry_raise _ _ _ Hfile) in Eo. tauto. }
  destruct (ExPac.try_open os ExPac.PacOpener file) as [r1|e1] eqn:E1;
    cbn [mbind res_bind].
  2:{ intros [= <-]. apply try_open_raise in E1. tauto. }
  destruct (ExPac.truthy r1); cbn [mbind res_bind]; [apply Hloop|].
  destruct (ExPac.try_open os ExPac.Pac2Opener file) as [r2|e2] eqn:E2;
    cbn [mbind res_bind].
  2:{ intros [= <-]. apply try_open_raise in E2. tauto. }
  destruct (ExPac.truthy r2); cbn [mbind res_bind]; apply Hloop.
Qed.

Lemma extract_archive_raises_only_witness :
  ExPac.extract_archive Posix record_makedirs record_write [1; 0; 0; 0] []
  = Raise StructError
  /\ (StructError = StructError \/ StructError = UnicodeDecodeError
      \/ StructError = IndexError
      \/ record_makedirs [] = Raise StructError
      \/ exists out entry data,
           ExPac.open_entry [1; 0; 0; 0] entry = Ok data
           /\ record_write out (ExPac.name entry) data = Raise StructError).
Proof.
  split; [reflexivity|].
  apply (extract_archive_raises_only Posix record_makedirs record_write
           [1; 0; 0; 0] [] StructError);
    [apply bytes_ok_check; reflexivity | reflexivity].
Defined.

Lemma payload_written_raise input_dir e d x :
  PkPac.read_file input_dir (PkPac.name e) = Ok d -> bytes_ok d ->
  payload_written input_dir e = Raise x -> x = StructError.
Proof.
  intros Hread Hok. unfold payload_written, PkPac.write_data_iter.
  rewrite Hread. cbn [mbind res_bind].
  destruct (cipher_extension_ok (PkPac.name e)) as [b Hb]. rewrite Hb.
  cbn [mbind res_bind].
  destruct (b && (16 <? len d)) eqn:Hg; [|done].
  apply andb_true_iff in Hg as [_ H16].
  destruct (dollar d) eqn:Hd.
  - apply dollar_head in Hd.
    destruct (decide (len d < 20)) as [Hs|Hs];
      [by rewrite (encrypt_data_short _ Hd Hs)|].
    destruct (decide ((len d - 16) mod 4 = 0)) as [Ha|Ha].
    + by rewrite (encrypt_data_aligned _ Hok Hd) by (done || lia).
    + rewrite (encrypt_data_unaligned _ Hok Hd) by (done || lia).
      cbn [mbind res_bind]. by intros [= <-].
  - destruct d as [|b0 d']; [vm_compute in H16; discriminate H16|].
    by rewrite (encrypt_data_not_dollar _ b0) by (done || (simpl in Hd; lia)).
Qed.

(** X26. For a directory of distinct names [pack] raises nothing but
    [UnicodeEncodeError] (a name that is not ASCII) and [struct.error] (a
    size or an offset of 2^32 or more, or a file that the cipher applies to
    and that does not end at a word). The guard [len(data) > 16] keeps
    [encrypt_data] from the [IndexError] of an empty file, and its byte
    stores never raise [ValueError]. *)
Theorem pack_raises_only (input_dir : PkPac.directory) (e : exn) :
  NoDup (map fst input_dir) ->
  Forall (fun nb => bytes_ok (snd nb)) (files_of input_dir) ->
  PkPac.pack input_dir = Raise e ->
  e = StructError \/ e = UnicodeEncodeError.
Proof.
  intros Hnd Hbytes. unfold PkPac.pack. rewrite write_archive_parts.
  destruct (pack_u32 _) as [count|e0] eqn:Ec; cbn [mbind res_bind].
  2:{ intros [= <-]. left. unfold pack_u32 in Ec.
      destruct (_ && _); [done|]. by injection Ec as <-. }
  destruct (map_res index_record _) as [index|e1] eqn:Ei;
    cbn [mbind res_bind].
  2:{ intros [= <-]. apply map_res_raise in Ei as (x & _ & H).
      unfold index_record, PkPac.write_index_iter, encode_ascii in H.
      destruct (forallb _ _); [|injection H as <-; by right].
      cbn [mbind res_bind] in H. unfold pack_u32_u32, pack_u32 in H.
      destruct ((0 <=? PkPac.size x) && _); cbn [mbind res_bind] in H;
        [|injection H as <-; by left].
      destruct ((0 <=? PkPac.offset x) && _); cbn [mbind res_bind] in H;
        [done|injection H as <-; by left]. }
  destruct (map_res (payload_written input_dir) _) as [payloads|e2] eqn:Ep;
    cbn [mbind res_bind]; [done|].
  intros [= <-]. left.
  apply map_res_raise in Ep as (x & Hx & H).
  rewrite collect_files_files_of in Hx.
  apply list_elem_of_lookup_1 in Hx as [k Hk].
  destruct (layout_lookup _ _ _ _ Hk) as (n & d & Hf & Hn & _).
  apply list_elem_of_lookup_2 in Hf.
  rewrite Forall_forall in Hbytes.
  apply (payload_written_raise input_dir x d); [|by apply (Hbytes _ Hf)|done].
  rewrite Hn. by apply read_file_files_of.
Qed.

Lemma pack_raises_only_witness :
  (StructError = StructError \/ StructError = UnicodeEncodeError)
  /\ PkPac.pack [(str "a.dat", PkPac.File (0x24 :: replicate 20 7))]
     = Raise StructError.
Proof.
  split; [|reflexivity].
  apply (pack_raises_only
           [(str "a.dat", PkPac.File (0x24 :: replicate 20 7))] StructError);
    [decide_literal
    | constructor; [apply bytes_ok_check; reflexivity|constructor]
    | reflexivity].
Defined.

(** * The round trip *)

(** ** Extraction of a stored payload *)

(** [open_entry] looks at the bytes it reads, the size and the kind. *)
Lemma open_entry_on_data file (e : ExPac.Entry) :
  ExPac.open_entry file e
  = ExPac.open_entry (read_at file (ExPac.offset e) (ExPac.size e))
      (ExPac.set_offset e 0).
Proof.
  unfold ExPac.open_entry.
  cbn [ExPac.set_offset ExPac.offset ExPac.size ExPac.type].
  assert (read_at (read_at file (ExPac.offset e) (ExPac.size e)) 0
            (ExPac.size e)
          = read_at file (ExPac.offset e) (ExPac.size e)) as ->; [|done].
  unfold read_at. change (Z.to_nat 0) with 0%nat.
  rewrite drop_0, take_take. f_equal. lia.
Qed.

Lemma extract_iter_stored {fs : Type} os
    (write_file : fs -> list ascii -> list Z -> res fs)
    file n d w off (out : fs) :
  read_at file off (len d) = w ->
  ExPac.extract_iter write_file file out
    (reader_entry os
       {| PkPac.name := n; PkPac.size := len d; PkPac.offset := off |})
  = (data ← extracted os n d w; write_file out n data).
Proof.
  intros Hrd. unfold ExPac.extract_iter, extracted.
  rewrite open_entry_on_data.
  cbn [reader_entry ExPac.set_offset ExPac.set_size ExPac.new_Entry
       ExPac.name ExPac.offset ExPac.size ExPac.type
       PkPac.name PkPac.size PkPac.offset].
  by rewrite Hrd.
Qed.

Lemma decodes_to_extracted os n d w :
  length w = length d -> decodes_to os n d w -> extracted os n d w = Ok d.
Proof.
  intros Hlen Hdec. apply (Hdec w 0).
  unfold read_at, len. change (Z.to_nat 0) with 0%nat.
  rewrite drop_0. apply take_ge. lia.
Qed.

(** The extraction loop on payloads stored one behind the other: every
    entry is extracted from its own payload and written under its name. *)
Lemma extract_loop_stored {fs : Type} os
    (write_file : fs -> list ascii -> list Z -> res fs) buffers ws :
  Forall2 (fun nb w => length w = length (snd nb)) buffers ws ->
  forall pre post (out : fs),
    for_each (ExPac.extract_iter write_file (pre ++ concat ws ++ post))
      (map (reader_entry os) (layout (len pre) buffers)) out
    = for_each
        (fun out nbw =>
           data ← extracted os (fst (fst nbw)) (snd (fst nbw)) (snd nbw);
           write_file out (fst (fst nbw)) data)
        (zip buffers ws) out.
Proof.
  induction 1 as [|[n d] w buffers ws Hlen _ IH]; intros pre post out; [done|].
  cbn [layout map for_each concat zip zip_with fst snd]. cbn [snd] in Hlen.
  rewrite (extract_iter_stored os write_file _ n d w (len pre) out).
  2:{ rewrite <- app_assoc. apply read_at_middle; [done|]. unfold len. lia. }
  destruct (extracted os n d w) as [data|]; [|done]. cbn [mbind res_bind].
  destruct (write_file out n data) as [out'|]; [|done]. cbn [mbind res_bind].
  replace (len pre + len d) with (len (pre ++ w))
    by (rewrite len_app; unfold len; lia).
  replace (pre ++ (w ++ concat ws) ++ post)
    with ((pre ++ w) ++ concat ws ++ post)
    by (by rewrite <- !app_assoc).
  apply IH.
Qed.

Lemma extract_loop_decoded {fs : Type} os
    (write_file : fs -> list ascii -> list Z -> res fs) buffers ws :
  Forall2 (fun nb w => extracted os (fst nb) (snd nb) w = Ok (snd nb))
    buffers ws ->
  forall out : fs,
    for_each
      (fun out nbw =>
         data ← extracted os (fst (fst nbw)) (snd (fst nbw)) (snd nbw);
         write_file out (fst (fst nbw)) data)
      (zip buffers ws) out
    = for_each (fun out nb => write_file out (fst nb) (snd nb)) buffers out.
Proof.
  induction 1 as [|[n d] w buffers ws Hx _ IH]; intros out; [done|].
  cbn [for_each zip zip_with fst snd]. cbn [fst snd] in Hx. rewrite Hx.
  cbn [mbind res_bind]. destruct (write_file out n d) as [out'|]; [|done].
  cbn [mbind res_bind]. apply IH.
Qed.

(** ** The recording file system *)

Lemma record_writes buffers : forall acc,
  for_each (fun out nb => record_write out (fst nb) (snd nb)) buffers acc
  = Ok (acc ++ buffers).
Proof.
  induction buffers as [|[n d] buffers IH]; intros acc.
  - by rewrite app_nil_r.
  - change (for_each (fun out nb => record_write out (fst nb) (snd nb))
              buffers (acc ++ [(n, d)]) = Ok (acc ++ (n, d) :: buffers)).
    rewrite IH. by rewrite <- app_assoc.
Qed.

Lemma record_loop_shape {X} (f : X -> res (list ascii * list Z)) xs :
  forall acc out,
    for_each (fun out x => nd ← f x; record_write out (fst nd) (snd nd)) xs acc
    = Ok out ->
    exists new, out = acc ++ new /\ Forall2 (fun x nd => f x = Ok nd) xs new.
Proof.
  induction xs as [|x xs IH]; intros acc out H.
  - cbn in H. injection H as <-. exists []. split; [by rewrite app_nil_r|].
    constructor.
  - cbn [for_each] in H. destruct (f x) as [nd|] eqn:E; [|done].
    change (for_each
              (fun out x => nd ← f x; record_write out (fst nd) (snd nd))
              xs (acc ++ [(fst nd, snd nd)]) = Ok out) in H.
    destruct (IH _ _ H) as (new & -> & Hnew).
    exists (nd :: new). split; [|by constructor].
    rewrite <- app_assoc. destruct nd. reflexivity.
Qed.

(** What the recording file system holds after the extraction loop on
    stored payloads says what every payload was extracted to. *)
Lemma record_loop_extracted os buffers ws :
  length ws = length buffers ->
  for_each
    (fun out nbw =>
       data ← extracted os (fst (fst nbw)) (snd (fst nbw)) (snd nbw);
       record_write out (fst (fst nbw)) data)
    (zip buffers ws) []
  = Ok buffers ->
  Forall2 (fun nb w => extracted os (fst nb) (snd nb) w = Ok (snd nb))
    buffers ws.
Proof.
  intros Hlen H.
  assert (for_each
            (fun out nbw =>
               nd ← (data ← extracted os (fst (fst nbw)) (snd (fst nbw))
                               (snd nbw);
                     Ok (fst (fst nbw), data));
               record_write out (fst nd) (snd nd))
            (zip buffers ws) [] = Ok buffers) as H'.
  { rewrite <- H. clear. generalize (@nil (list ascii * list Z)).
    induction (zip buffers ws) as [|x xs IH]; intros acc; [done|].
    cbn [for_each]. destruct (extracted _ _ _ _) as [data|]; [|done].
    cbn [mbind res_bind fst snd]. destruct (record_write _ _ _); [|done].
    cbn [mbind res_bind]. apply IH. }
  apply record_loop_shape in H' as (new & Hnew & Hall).
  cbn [app] in Hnew. subst new. clear H.
  revert ws Hlen Hall.
  induction buffers as [|[n d] buffers IH]; intros [|w ws] Hlen Hall;
    try done.
  cbn [zip zip_with] in Hall. apply Forall2_cons in Hall as [Hx Hall].
  constructor; [|apply IH; [by injection Hlen|done]].
  cbn [fst snd] in *. destruct (extracted os n d w) as [data|]; [|done].
  cbn [mbind res_bind] in Hx. by injection Hx as ->.
Qed.

(** ** One buffer *)

(** The packer and the extractor agree about the cipher exactly when the
    stored payload is extracted to the buffer. *)
Lemma cipher_agrees_iff os input_dir n d off w :
  PkPac.read_file input_dir n = Ok d -> bytes_ok d ->
  payload_written input_dir
    {| PkPac.name := n; PkPac.size := len d; PkPac.offset := off |} = Ok w ->
  extracted os n d w = Ok d <-> cipher_agrees os n d.
Proof.
  intros Hread Hok Hw. split.
  2:{ intros Hagree.
      destruct (payload_roundtrip os _ n d off Hread Hok Hagree)
        as (w' & Hw' & Hlen & Hdec).
      rewrite Hw in Hw'. injection Hw' as <-.
      by apply decodes_to_extracted. }
  intros Hex.
  destruct (Z_lt_dec (len d) 20) as [Hlt|Hge]; [by left|].
  destruct (dollar d) eqn:Hd; [|right; by left].
  pose proof Hd as Hd0. apply dollar_head in Hd0.
  assert (read_at d 0 (len d) = d) as Hrd.
  { unfold read_at, len. change (Z.to_nat 0) with 0%nat.
    rewrite drop_0. apply take_ge. lia. }
  unfold payload_written, PkPac.write_data_iter in Hw. cbn [PkPac.name] in Hw.
  rewrite Hread in Hw. cbn [mbind res_bind] in Hw.
  destruct (cipher_extension_ok n) as [b Hb]. rewrite Hb in Hw.
  cbn [mbind res_bind] in Hw.
  assert ((16 <? len d) = true) as H16 by lia. rewrite H16 in Hw.
  unfold extracted in Hex.
  destruct b; cbn [andb] in Hw.
  - destruct (Z.eq_dec ((len d - 16) mod 4) 0) as [Hal|Hal].
    2:{ rewrite encrypt_data_unaligned in Hw by (done || lia). done. }
    rewrite encrypt_data_aligned in Hw by (done || lia).
    cbn [mbind res_bind app] in Hw. injection Hw as <-.
    destruct (kind_unknown_dec (ExPac.determine_type os n)) as [Hty|Hty];
      [do 3 right; done|].
    exfalso. rewrite open_entry_media in Hex by done.
    cbn [reader_entry ExPac.set_offset ExPac.set_size ExPac.new_Entry
         ExPac.offset ExPac.size PkPac.name PkPac.size PkPac.offset] in Hex.
    assert (16 <= length d)%nat as Hn16 by (unfold len in Hge; lia).
    destruct (transformed_shape word_enc d word_enc_length Hn16)
      as (Hl & _ & _).
    injection Hex as Hex. unfold read_at, len in Hex.
    change (Z.to_nat 0) with 0%nat in Hex.
    rewrite drop_0, take_ge in Hex by lia.
    revert Hex. apply (transformed_differs word_enc enc_byte);
      [apply word_enc_bytes|done|done|lia|done].
  - cbn [mbind res_bind app] in Hw. injection Hw as <-.
    destruct (kind_unknown_dec (ExPac.determine_type os n)) as [Hty|Hty];
      [|right; right; left; done].
    exfalso. rewrite open_entry_apply in Hex;
      cbn [reader_entry ExPac.set_offset ExPac.set_size ExPac.new_Entry
           ExPac.type ExPac.offset ExPac.size PkPac.name PkPac.size
           PkPac.offset]; rewrite ?Hrd; try done; try lia.
    cbn [reader_entry ExPac.set_offset ExPac.set_size ExPac.new_Entry
         ExPac.type ExPac.offset ExPac.size PkPac.name PkPac.size
         PkPac.offset] in Hex. rewrite Hrd in Hex.
    destruct (Z.eq_dec ((len d - 16) mod 4) 0) as [Hal|Hal].
    + rewrite decrypt_data_aligned in Hex by (done || lia).
      injection Hex as Hex.
      revert Hex. apply (transformed_differs word_dec dec_byte);
        [apply word_dec_bytes|done|done|lia|done].
    + rewrite decrypt_data_unaligned in Hex by (done || lia). done.
Qed.

(** ** The whole archive *)

Lemma layout_entries_ok buffers : forall off,
  0 <= off ->
  Forall (fun nb => name_ok (fst nb)) buffers ->
  Forall (fun e => PkPac.size e < 2 ^ 32 /\ PkPac.offset e < 2 ^ 32)
    (layout off buffers) ->
  Forall entry_ok (layout off buffers).
Proof.
  induction buffers as [|[n d] rest IH]; intros off Hoff Hn Hf;
    [constructor|].
  apply Forall_cons in Hn as [Hn Hrest]. cbn [layout] in *.
  apply Forall_cons in Hf as [[Hs Ho] Hf]. cbn [PkPac.size PkPac.offset] in *.
  pose proof (len_nonneg d). constructor.
  - split; [exact Hn|]. simpl. lia.
  - apply IH; [lia|done|done].
Qed.

Lemma layout_names_ascii buffers : forall off,
  Forall (fun e => forallb (fun c => ord c <? 128) (PkPac.name e) = true
                   /\ PkPac.size e < 2 ^ 32 /\ PkPac.offset e < 2 ^ 32)
    (layout off buffers) ->
  Forall (fun nb => forallb (fun c => ord c <? 128) (fst nb) = true) buffers
  /\ Forall (fun e => PkPac.size e < 2 ^ 32 /\ PkPac.offset e < 2 ^ 32)
       (layout off buffers).
Proof.
  induction buffers as [|[n d] rest IH]; intros off H; [by split|].
  cbn [layout] in *. apply Forall_cons in H as [(Ha & Hs & Ho) H].
  destruct (IH _ H) as [? ?]. split; by constructor.
Qed.

Lemma layout_payloads_each input_dir part : forall off ws,
  map_res (payload_written input_dir) (layout off part) = Ok ws ->
  Forall2 (fun nb w =>
             exists off',
               payload_written input_dir
                 {| PkPac.name := fst nb; PkPac.size := len (snd nb);
                    PkPac.offset := off' |} = Ok w) part ws.
Proof.
  induction part as [|[n d] part IH]; intros off ws H.
  - cbn in H. injection H as <-. constructor.
  - cbn [layout map_res] in H.
    destruct (payload_written input_dir _) as [w|] eqn:Ew; [|done].
    cbn [mbind res_bind] in H.
    destruct (map_res _ _) as [ws'|] eqn:Ews; [|done].
    cbn [mbind res_bind] in H. injection H as <-.
    constructor; [by exists off|by apply (IH _ _ Ews)].
Qed.

Lemma as_directory_names buffers :
  map fst (as_directory buffers) = map fst buffers.
Proof. unfold as_directory. rewrite map_map. by apply map_ext. Qed.

(** What the packer writes for entries that fit the index: the header, the
    records and the payloads. *)
Lemma pack_written buffers file :
  NoDup (map fst buffers) ->
  let entries := layout (0x3FE + len buffers * (0x20 + 8)) buffers in
  Forall entry_ok entries ->
  PkPac.pack (as_directory buffers) = Ok file ->
  exists ws,
    map_res (payload_written (as_directory buffers)) entries = Ok ws
    /\ Forall2 (fun nb w => length w = length (snd nb)) buffers ws
    /\ file = bytes32 (len buffers) ++ replicate (Z.to_nat (0x3FE - 4)) 0
              ++ concat (map record_bytes entries) ++ concat ws.
Proof.
  intros Hnd entries Hent Hpack.
  destruct (pack_shape _ _ Hpack) as (index & ws & _ & Hi & Hp & ->).
  rewrite collect_files_layout in Hi, Hp. fold entries in Hi, Hp.
  rewrite (index_records_written _ Hent) in Hi. injection Hi as <-.
  rewrite files_of_as_directory. exists ws. split; [done|]. split; [|done].
  apply (layout_payload_lengths (as_directory buffers) buffers) with
    (off := 0x3FE + len buffers * (0x20 + 8)); [| |done].
  - by rewrite as_directory_names.
  - rewrite files_of_as_directory. by apply Forall_forall.
Qed.

Lemma pack_writes buffers ws :
  len buffers < 100000 ->
  let entries := layout (0x3FE + len buffers * (0x20 + 8)) buffers in
  Forall entry_ok entries ->
  map_res (payload_written (as_directory buffers)) entries = Ok ws ->
  PkPac.pack (as_directory buffers)
  = Ok (bytes32 (len buffers) ++ replicate (Z.to_nat (0x3FE - 4)) 0
          ++ concat (map record_bytes entries) ++ concat ws).
Proof.
  intros Hcnt entries Hent Hws. pose proof (len_nonneg buffers).
  unfold PkPac.pack. rewrite collect_files_layout. fold entries.
  rewrite write_archive_parts.
  assert (len entries = len buffers) as ->
    by (unfold len, entries; by rewrite layout_length).
  rewrite pack_u32_ok by lia. cbn [mbind res_bind].
  rewrite (index_records_written _ Hent). cbn [mbind res_bind].
  by rewrite Hws.
Qed.

(** The extractor on an archive of that shape: it asks for the output
    directory and extracts every entry from its own payload. *)
Lemma archive_extraction {fs : Type} os (makedirs : fs -> res fs)
    (write_file : fs -> list ascii -> list Z -> res fs) buffers ws
    (out : fs) :
  buffers <> [] -> len buffers < 100000 ->
  let entries := layout (0x3FE + len buffers * (0x20 + 8)) buffers in
  Forall entry_ok entries ->
  Forall2 (fun nb w => length w = length (snd nb)) buffers ws ->
  ExPac.extract_archive os makedirs write_file
    (bytes32 (len buffers) ++ replicate (Z.to_nat (0x3FE - 4)) 0
       ++ concat (map record_bytes entries) ++ concat ws) out
  = (out ← makedirs out;
     out ← for_each
             (fun out nbw =>
                data ← extracted os (fst (fst nbw)) (snd (fst nbw)) (snd nbw);
                write_file out (fst (fst nbw)) data)
             (zip buffers ws) out;
     Ok (Some out)).
Proof.
  intros Hne Hcnt entries Hent Hlens.
  set (base := 0x3FE + len buffers * (0x20 + 8)) in *.
  set (hdr := bytes32 (len buffers) ++ replicate (Z.to_nat (0x3FE - 4)) 0).
  assert (len entries = len buffers) as Hcount
    by (unfold len, entries; by rewrite layout_length).
  assert (0 < len buffers) as Hpos
    by (destruct buffers; [done|unfold len; simpl; lia]).
  assert (ExPac.is_sane_count (len buffers) = true) as Hsane
    by (apply is_sane_count_spec; lia).
  assert (accepted (bytes32 (len buffers)
                      ++ replicate (Z.to_nat (0x3FE - 4)) 0
                      ++ concat (map record_bytes entries) ++ concat ws)
            0 0x3FE 0x20 (len buffers)) as Hacc.
  { destruct (layout_head base buffers Hne) as (e & es & Hl & Hoff).
    unfold entries in *. rewrite Hl in *.
    apply Forall_cons in Hent as [He0 _].
    by apply written_archive_accepted; [lia|done|]. }
  unfold ExPac.extract_archive.
  rewrite (probe_classic os _ _ 0x20 Hsane (try_open_wide os _ _ Hacc)).
  unfold ExPac.read_index.
  pose proof (read_index_loop_records os entries hdr (concat ws) []
                (seq 0 (Z.to_nat (len buffers))) Hent) as Hidx.
  unfold hdr in Hidx. rewrite header_length, <- !app_assoc in Hidx.
  rewrite Hidx by (rewrite length_seq; unfold len in *; lia).
  cbn [mbind res_bind fmap res_fmap fst app]. clear Hidx.
  destruct (makedirs out) as [out1|]; [|done]. cbn [mbind res_bind].
  pose proof (extract_loop_stored os write_file buffers ws Hlens
                (hdr ++ concat (map record_bytes entries)) [] out1) as Hext.
  rewrite len_app, (index_table_length _ Hent), Hcount, app_nil_r in Hext.
  unfold hdr in Hext. rewrite header_length, <- !app_assoc in Hext.
  replace (1022 + 40 * len buffers) with base in Hext by (unfold base; lia).
  fold entries in Hext. by rewrite Hext.
Qed.

Lemma record_at_name os file nl pos (e : ExPac.Entry) :
  record_at os file nl pos e ->
  (length (ExPac.name e) <= Z.to_nat nl)%nat
  /\ rstrip "000" (ExPac.name e) = ExPac.name e.
Proof.
  intros (decoded & Hdec & Hname & _).
  apply decode_ascii_ok in Hdec as [Hlen _].
  destruct (rstrip_prefix "000" decoded) as [j Hj].
  rewrite <- Hname in Hj. split.
  - assert (length decoded <= Z.to_nat nl)%nat
      by (rewrite Hlen; unfold read_at; rewrite length_take; lia).
    rewrite Hj, length_app in H. lia.
  - rewrite Hname. apply rstrip_idemp.
Qed.

Lemma probe_some os file es :
  ExPac.probe os [ExPac.PacOpener; ExPac.Pac2Opener] file None = Ok (Some es) ->
  exists count index_offset nl,
    ExPac.is_sane_count count = true /\ (nl = 0x20 \/ nl = 0x10)
    /\ ExPac.read_index os file count index_offset nl = Ok es.
Proof.
  cbn [ExPac.probe ExPac.try_open]. intros H.
  destruct (ExPac.PacOpener_try_open os file) as [[es1|]|] eqn:E1; [| |done];
    cbn [mbind res_bind] in H.
  - destruct (classic_try_open_some _ _ _ E1)
      as (count & nl & Hc & Hs & Hnl & Hr).
    rewrite (read_index_truthy _ _ _ _ _ _ Hs Hr) in H. injection H as <-.
    by exists count, 0x3FE, nl.
  - cbn [ExPac.truthy] in H.
    destruct (ExPac.Pac2Opener_try_open os file) as [[es2|]|] eqn:E2;
      [| |done]; cbn [mbind res_bind] in H.
    + destruct (tagged_try_open_some _ _ _ E2) as (count & Hc & Hs & Hr).
      rewrite (read_index_truthy _ _ _ _ _ _ Hs Hr) in H. injection H as <-.
      exists count, 0x804, 0x20. auto.
    + done.
Qed.

(** What the recording file system holds after an extraction has the names
    of index entries: there are between 1 and 99999 of them, none longer
    than 32 bytes and none ending in NUL. *)
Lemma extract_recorded_names os file buffers :
  ExPac.extract_archive os record_makedirs record_write file []
  = Ok (Some buffers) ->
  buffers <> [] /\ len buffers < 100000
  /\ Forall (fun nb => (length (fst nb) <= 32)%nat
                       /\ rstrip "000" (fst nb) = fst nb) buffers.
Proof.
  unfold ExPac.extract_archive. intros H.
  destruct (ExPac.probe _ _ _ _) as [[es|]|] eqn:Ep; [| |done];
    cbn [mbind res_bind] in H; [|done].
  unfold record_makedirs in H. cbn [mbind res_bind] in H.
  destruct (for_each _ es []) as [log|] eqn:E; [|done].
  cbn [mbind res_bind] in H. injection H as ->.
  destruct (probe_some _ _ _ Ep) as (count & io & nl & Hs & Hnl & Hr).
  apply is_sane_count_spec in Hs.
  pose proof (read_index_length _ _ _ _ _ _ Hr) as Hlen.
  destruct (extract_loop_writes _ _ _ _ _ E) as (datas & Hdatas & Hloop).
  assert (for_each
            (fun out ed =>
               nd ← Ok (ExPac.name (fst ed), snd ed);
               record_write out (fst nd) (snd nd))
            (zip es datas) [] = Ok buffers) as Hloop' by exact Hloop.
  apply record_loop_shape in Hloop' as (new & Hnew & Hall).
  cbn [app] in Hnew. subst new.
  pose proof (Forall2_length _ _ _ Hdatas) as Hld.
  pose proof (Forall2_length _ _ _ Hall) as Hlb.
  rewrite length_zip_with in Hlb.
  split; [|split].
  - intros ->. simpl in Hlb. lia.
  - unfold len. lia.
  - apply Forall_lookup. intros k [n d] Hk.
    destruct (Forall2_lookup_r _ _ _ _ _ Hall Hk) as ([e data] & Hz & Hnd).
    cbn [fst snd] in *. injection Hnd as <- <-.
    apply lookup_zip_with_Some in Hz as (e' & d' & [= <- <-] & He & _).
    pose proof (read_index_records _ _ _ _ _ _ Hr k e He) as Hrec.
    apply record_at_name in Hrec as [Hl Hstrip]. split; [|done].
    destruct Hnl as [-> | ->]; simpl in Hl; lia.
Qed.

(** C1, as the code has it. For named byte buffers with distinct names,
    extracting the archive built from them asks the file system for exactly
    the buffers - the output directory, then one write per buffer, in order,
    under its name and with its content - if and only if: there are between
    1 and 99999 buffers; every name is ASCII, at most 32 bytes long and does
    not end in NUL; every size and every stored offset is below 2^32; and
    for every buffer the packer and the extractor agree about the cipher
    ([cipher_agrees]): the buffer has fewer than 20 bytes or does not start
    with 0x24, or both sides skip it by its name, or both apply the cipher
    and the buffer ends at a word. What the file system makes of the writes
    is not the scripts' to decide. *)
Theorem pack_extract_roundtrip (os : platform)
    (buffers : list (list ascii * list Z)) :
  NoDup (map fst buffers) ->
  Forall (fun nb => bytes_ok (snd nb)) buffers ->
  (buffers <> [] /\ len buffers < 100000
   /\ Forall (fun nb => name_ok (fst nb) /\ cipher_agrees os (fst nb) (snd nb))
        buffers
   /\ Forall (fun e => PkPac.size e < 2 ^ 32 /\ PkPac.offset e < 2 ^ 32)
        (PkPac.collect_files (as_directory buffers)))
  <-> (forall (fs : Type) (makedirs : fs -> res fs)
              (write_file : fs -> list ascii -> list Z -> res fs) (out : fs),
         (file ← PkPac.pack (as_directory buffers);
          ExPac.extract_archive os makedirs write_file file out)
         = write_buffers makedirs write_file buffers out).
Proof.
  intros Hnd Hbytes. rewrite collect_files_layout.
  set (entries := layout (0x3FE + len buffers * (0x20 + 8)) buffers).
  pose proof (len_nonneg buffers) as Hlen0.
  assert (forall k n d, buffers !! k = Some (n, d) ->
            PkPac.read_file (as_directory buffers) n = Ok d /\ bytes_ok d)
    as Hfile.
  { intros k n d Hk. split; [by apply (read_file_lookup buffers k)|].
    rewrite Forall_lookup in Hbytes. apply (Hbytes k (n, d) Hk). }
  split.
  - intros (Hne & Hcnt & Hall & Hfit) fs makedirs write_file out.
    assert (Forall entry_ok entries) as Hent.
    { apply layout_entries_ok; [lia| |done].
      eapply Forall_impl; [exact Hall|]. by intros nb [? _]. }
    destruct (payloads_written os buffers Hnd) with (part := buffers)
      (off := 0x3FE + len buffers * (0x20 + 8)) as (ws & Hws & Hrel).
    { apply Forall_lookup. intros k [n d] Hk. split.
      - by apply (Hfile k n d).
      - rewrite Forall_lookup in Hall. by apply (Hall k (n, d) Hk). }
    { by apply Forall_forall. }
    fold entries in Hws. rewrite (pack_writes buffers ws Hcnt Hent Hws).
    cbn [mbind res_bind].
    rewrite archive_extraction; [|done|done|done|].
    2:{ eapply Forall2_impl; [exact Hrel|]. by intros nb w [? _]. }
    unfold write_buffers. destruct (makedirs out) as [out1|]; [|done].
    cbn [mbind res_bind]. rewrite extract_loop_decoded; [done|].
    eapply Forall2_impl; [exact Hrel|]. intros nb w [Hl Hd].
    by apply decodes_to_extracted.
  - intros H.
    specialize (H _ record_makedirs record_write []).
    unfold write_buffers, record_makedirs at 2 in H.
    cbn [mbind res_bind] in H. rewrite record_writes in H.
    cbn [mbind res_bind app] in H.
    destruct (PkPac.pack (as_directory buffers)) as [file|] eqn:Hpack;
      [|done].
    cbn [mbind res_bind] in H.
    destruct (extract_recorded_names _ _ _ H) as (Hne & Hcnt & Hnames).
    destruct (pack_shape _ _ Hpack) as (index & ws0 & _ & Hi & _ & _).
    rewrite collect_files_layout in Hi. fold entries in Hi.
    assert (is_ok (map_res index_record entries)) as Hok by by eexists.
    apply map_res_is_ok in Hok. unfold entries in Hok.
    apply layout_index_is_ok in Hok; [|lia].
    apply layout_names_ascii in Hok as [Hascii Hfit]. fold entries in Hfit.
    assert (Forall (fun nb => name_ok (fst nb)) buffers) as Hnok.
    { apply Forall_lookup. intros k nb Hk.
      rewrite Forall_lookup in Hascii, Hnames.
      destruct (Hnames k nb Hk) as [? ?]. split; [by apply (Hascii k)|done]. }
    assert (Forall entry_ok entries) as Hent
      by (apply layout_entries_ok; [lia|done|done]).
    destruct (pack_written buffers file Hnd Hent Hpack)
      as (ws & Hws & Hlens & ->).
    fold entries in H. rewrite archive_extraction in H by done.
    unfold record_makedirs in H. cbn [mbind res_bind] in H.
    destruct (for_each _ (zip buffers ws) []) as [log|] eqn:Eloop; [|done].
    cbn [mbind res_bind] in H. injection H as ->.
    apply record_loop_extracted in Eloop;
      [|symmetry; by apply (Forall2_length _ _ _ Hlens)].
    apply layout_payloads_each in Hws.
    split; [done|]. split; [done|]. split; [|done].
    apply Forall_lookup. intros k [n d] Hk. cbn [fst snd].
    rewrite Forall_lookup in Hnok. split; [by apply (Hnok k (n, d) Hk)|].
    destruct (Forall2_lookup_l _ _ _ _ _ Eloop Hk) as (w & Hw & Hex).
    destruct (Forall2_lookup_l _ _ _ _ _ Hws Hk) as (w' & Hw' & off & Hpw).
    rewrite Hw in Hw'. injection Hw' as <-. cbn [fst snd] in *.
    destruct (Hfile k n d Hk) as [Hread Hok].
    by apply (cipher_agrees_iff os _ n d off w Hread Hok Hpw).
Qed.

Lemma pack_extract_roundtrip_witness :
  (file ← PkPac.pack (as_directory sample_buffers);
   ExPac.extract_archive Posix record_makedirs record_write file [])
  = Ok (Some sample_buffers).
Proof.
  rewrite (proj1 (pack_extract_roundtrip Posix sample_buffers
                    ltac:(decide_literal)
                    ltac:(constructor;
                            [apply bytes_ok_check; reflexivity
                            |constructor;
                               [apply bytes_ok_check; reflexivity
                               |constructor]]))).
  - reflexivity.
  - split; [discriminate|]. split; [vm_compute; reflexivity|]. split.
    + constructor; [|constructor; [|constructor]].
      * split; [split; [reflexivity|split; [simpl; lia|reflexivity]]|].
        do 3 right. split; [reflexivity|]. split; reflexivity.
      * split; [split; [reflexivity|split; [simpl; lia|reflexivity]]|].
        left. vm_compute. reflexivity.
    + constructor; [|constructor; [|constructor]];
        split; vm_compute; reflexivity.
Defined.

(** A buffer named "A.pgd" that starts with 0x24: the packer's list does not
    hold "pgd", so the last word is encoded; the extractor takes the name
    for an image and asks for the write of the stored bytes as they are. A
    buffer named "A.jpg" is stored as it is and decoded by the extractor.
    Both names are ASCII and short, the buffers are 20 bytes long. *)
Lemma roundtrip_fails_when_gates_differ :
  (file ← PkPac.pack (as_directory [(str "A.pgd", 0x24 :: replicate 19 7)]);
   ExPac.extract_archive Posix record_makedirs record_write file [])
  = Ok (Some [(str "A.pgd", 0x24 :: replicate 15 7 ++ [169; 130; 210; 240])])
  /\ (file ← PkPac.pack (as_directory [(str "A.pgd", 0x24 :: replicate 19 7)]);
      ExPac.extract_archive Posix record_makedirs record_write file [])
     <> write_buffers record_makedirs record_write
          [(str "A.pgd", 0x24 :: replicate 19 7)] []
  /\ (file ← PkPac.pack (as_directory [(str "A.jpg", 0x24 :: replicate 19 7)]);
      ExPac.extract_archive Posix record_makedirs record_write file [])
     <> write_buffers record_makedirs record_write
          [(str "A.jpg", 0x24 :: replicate 19 7)] [].
Proof.
  split; [vm_compute; reflexivity|].
  split; intros H; vm_compute in H; discriminate H.
Qed.
